(** * DGL GraphBolt tutorial notebooks: a shallow embedding

    The repository holds three Jupyter notebooks:
    - the GraphBolt walkthrough ([walkthrough]),
    - the link-prediction tutorial ([link_prediction]),
    - the node-classification tutorial ([node_classification]).

    A notebook is a list of cells run against one Python kernel.  The
    kernel is modelled by its global namespace (a dictionary from names to
    values) and by the chronological trace of the effects the cells have
    had on the outside world (imports, calls into the external packages,
    printing, iteration, in-place updates, raised exceptions).  A cell is a
    program in a state-and-exception monad over kernels; as in Python, the
    effects a cell had before it raised stay in the kernel. *)

From stdpp Require Import gmap strings list.
From Stdlib Require Import ZArith Lia.

Set Warnings "-register-all".
Open Scope string_scope.
Open Scope list_scope.
Open Scope Z_scope.

(** ** Exceptions *)

Inductive exn_class :=
  | ImportError
  | ModuleNotFoundError   (* subclass of ImportError *)
  | NameError
  | TypeError
  | IndexError
  | OtherError (name : string).

Record exn := Exn { exn_cls : exn_class; exn_msg : string }.

(** [except ImportError] matches ImportError and its subclass. *)
Definition isinstance_ImportError (e : exn) : bool :=
  match exn_cls e with
  | ImportError | ModuleNotFoundError => true
  | _ => false
  end.

(** ** Results of fallible code *)

Inductive result (A : Type) :=
  | Ok (a : A)
  | Raise (e : exn).
Arguments Ok {A} a.
Arguments Raise {A} e.

Definition and_then {A B} (r : result A) (f : A -> result B) : result B :=
  match r with
  | Ok a => f a
  | Raise e => Raise e
  end.

Declare Scope py_scope.
Delimit Scope py_scope with py.
Notation "x <-? r ; f" := (and_then r (fun x => f))
  (at level 20, r at level 100, f at level 200, only parsing) : py_scope.
Notation "' p <-? r ; f" := (and_then r (fun p => f))
  (at level 20, p pattern, r at level 100, f at level 200, only parsing)
  : py_scope.
Open Scope py_scope.

(** ** Tensors

    The node pairs of a minibatch are one-dimensional integer tensors.  A
    one-dimensional tensor is its element type and its elements; the
    elements of a float tensor made from integers are those integers. *)

Inductive dtype := int32 | int64 | float32.

Record tensor := Tensor { tensor_dtype : dtype; tensor_data : list Z }.

(** Type promotion among the three element types. *)
Definition promote (a b : dtype) : dtype :=
  match a, b with
  | float32, _ | _, float32 => float32
  | int64, _ | _, int64 => int64
  | int32, int32 => int32
  end.

(** [torch.cat(ts, dim=0)] on one-dimensional tensors; an empty sequence
    is refused. *)
Fixpoint cat_from (acc : tensor) (ts : list tensor) : tensor :=
  match ts with
  | [] => acc
  | t :: ts' =>
      cat_from (Tensor (promote (tensor_dtype acc) (tensor_dtype t))
                       (tensor_data acc ++ tensor_data t)) ts'
  end.

Definition cat (ts : list tensor) : result tensor :=
  match ts with
  | [] => Raise (Exn (OtherError "RuntimeError")
                     "torch.cat(): expected a non-empty list of Tensors")
  | t :: ts' => Ok (cat_from t ts')
  end.

Definition ones_like (t : tensor) : tensor :=
  Tensor (tensor_dtype t) (map (fun _ => 1) (tensor_data t)).

Definition zeros_like (t : tensor) : tensor :=
  Tensor (tensor_dtype t) (map (fun _ => 0) (tensor_data t)).

(** [t.float()] *)
Definition float (t : tensor) : tensor := Tensor float32 (tensor_data t).

(** The two attributes of a [gb.DGLMiniBatch] that
    [to_binary_link_dgl_computing_pack] reads; either is [None] when the
    pipeline did not produce it. *)
Record node_pairs_of_minibatch := MiniBatchPairs {
  positive_node_pairs : option (tensor * tensor);
  negative_node_pairs : option (tensor * tensor)
}.

(** [a, b = v]: unpacking [None] raises TypeError. *)
Definition unpack_pair (v : option (tensor * tensor))
    : result (tensor * tensor) :=
  match v with
  | Some p => Ok p
  | None => Raise (Exn TypeError "cannot unpack non-iterable NoneType object")
  end.

(**
<<
def to_binary_link_dgl_computing_pack(data: gb.DGLMiniBatch):
    pos_src, pos_dst = data.positive_node_pairs
    neg_src, neg_dst = data.negative_node_pairs
    node_pairs = (
        torch.cat((pos_src, neg_src), dim=0),
        torch.cat((pos_dst, neg_dst), dim=0),
    )
    pos_label = torch.ones_like(pos_src)
    neg_label = torch.zeros_like(neg_src)
    labels = torch.cat([pos_label, neg_label], dim=0)
    return (node_pairs, labels.float())
>> *)
Definition to_binary_link_dgl_computing_pack (data : node_pairs_of_minibatch)
    : result ((tensor * tensor) * tensor) :=
  ' (pos_src, pos_dst) <-? unpack_pair (positive_node_pairs data);
  ' (neg_src, neg_dst) <-? unpack_pair (negative_node_pairs data);
  src <-? cat [pos_src; neg_src];
  dst <-? cat [pos_dst; neg_dst];
  let node_pairs := (src, dst) in
  let pos_label := ones_like pos_src in
  let neg_label := zeros_like neg_src in
  labels <-? cat [pos_label; neg_label];
  Ok (node_pairs, float labels).

(** ** The two GNN models

    A layer is applied to a block (message flow graph) and the current node
    representation; what it computes is the external library's business. *)

Section GNN.

Variables layer block repr : Type.
Variable conv : layer -> block -> repr -> repr.   (* layer(block, h) *)
Variable relu : repr -> repr.                     (* F.relu(h) *)

(**
<<
    def forward(self, blocks, x):
        hidden_x = x
        for layer_idx, (layer, block) in enumerate(zip(self.layers, blocks)):
            hidden_x = layer(block, hidden_x)
            is_last_layer = layer_idx == len(self.layers) - 1
            if not is_last_layer:
                hidden_x = F.relu(hidden_x)
        return hidden_x
>>
    [SAGE_forward_loop] is the loop from index [layer_idx] on, over what is
    left of [zip(self.layers, blocks)]. *)
Fixpoint SAGE_forward_loop (len_layers : Z) (layer_idx : Z)
    (zipped : list (layer * block)) (hidden_x : repr) : repr :=
  match zipped with
  | [] => hidden_x
  | (layer, block) :: rest =>
      let hidden_x := conv layer block hidden_x in
      let is_last_layer := layer_idx =? len_layers - 1 in
      let hidden_x := if negb is_last_layer then relu hidden_x else hidden_x in
      SAGE_forward_loop len_layers (layer_idx + 1) rest hidden_x
  end.

Definition SAGE_forward (layers : list layer) (blocks : list block)
    (x : repr) : repr :=
  SAGE_forward_loop (Z.of_nat (length layers)) 0 (zip layers blocks) x.

(** [mfgs[i]] for a literal index [i >= 0]. *)
Definition index_list (l : list block) (i : nat) : result block :=
  match l !! i with
  | Some b => Ok b
  | None => Raise (Exn IndexError "list index out of range")
  end.

(**
<<
    def forward(self, mfgs, x):
        h = self.conv1(mfgs[0], x)
        h = F.relu(h)
        h = self.conv2(mfgs[1], h)
        return h
>> *)
Definition Model_forward (conv1 conv2 : layer) (mfgs : list block)
    (x : repr) : result repr :=
  mfg0 <-? index_list mfgs 0;
  let h := conv conv1 mfg0 x in
  let h := relu h in
  mfg1 <-? index_list mfgs 1;
  let h := conv conv2 mfg1 h in
  Ok h.

(** What the tutorials say the models compute: layer [i] on block [i], a
    ReLU after every layer but the last. *)
Fixpoint layered (layers : list layer) (blocks : list block) (h : repr)
    : option repr :=
  match layers, blocks with
  | [], _ => Some h
  | [l], b :: _ => Some (conv l b h)
  | l :: ls, b :: bs => layered ls bs (relu (conv l b h))
  | _ :: _, [] => None
  end.

End GNN.

Arguments SAGE_forward_loop {layer block repr} conv relu.
Arguments SAGE_forward {layer block repr} conv relu.
Arguments index_list {block}.
Arguments Model_forward {layer block repr} conv relu.
Arguments layered {layer block repr} conv relu.

(** ** Values

    Every object the notebooks touch is created inside an external package
    (torch, dgl, dgl.graphbolt, tqdm, sklearn).  Such an object is named by
    the expression that produced it: literals, attribute accesses and
    applications of external callables to their arguments. *)

Inductive sym :=
  | SNone
  | SBool (b : bool)
  | SInt (z : Z)
  | SFloat (digits : string)
  | SStr (s : string)
  | STuple (l : list sym)
  | SList (l : list sym)
  | SDict (l : list (sym * sym))
  | SExn (e : exn)
  | SModule (name : string)
  | SAttr (o : sym) (a : string)                 (* o.a *)
  | SItem (o : sym) (k : sym)                    (* o[k] *)
  | SKw (name : string) (v : sym)                (* keyword argument name=v *)
  | SApp (f : string) (args : list sym)          (* f(args), f external *)
  | SMeth (o : sym) (m : string) (args : list sym)  (* o.m(args) *)
  | SNth (it : sym) (i : nat)                    (* i-th item yielded by it *)
  | SOp (op : string) (args : list sym)          (* operator on opaque data *)
  | STensor (t : tensor)                         (* a tensor known by value *)
  | SDef (name : string)                         (* def/class of the notebook *)
  | SObj (cls : string) (attrs : list (string * sym)).
                                   (* instance of a class of the notebook *)

Definition ints (l : list Z) : sym := SList (map SInt l).

(** [o.a]: an attribute set by a notebook's own [__init__] is looked up,
    any other attribute is whatever the external object holds. *)
Fixpoint assoc (a : string) (l : list (string * sym)) : option sym :=
  match l with
  | [] => None
  | (b, v) :: l' => if String.eqb a b then Some v else assoc a l'
  end.

Definition attr (o : sym) (a : string) : sym :=
  match o with
  | SObj _ attrs => match assoc a attrs with Some v => v | None => SAttr o a end
  | _ => SAttr o a
  end.

(** [l.append(v)] on a Python list. *)
Definition appended (l v : sym) : sym :=
  match l with
  | SList xs => SList (xs ++ [v])
  | _ => SMeth l "append" [v]
  end.

(** ** Effects *)

Inductive event :=
  | EvImport (module : string)
  | EvShell (cmd : string)                       (* a [!cmd] line *)
  | EvCall (callee : sym) (f : string) (args : list sym)
  | EvIter (it : sym)                            (* iter(it) *)
  | EvNext (it : sym) (i : nat)                  (* the i-th next() on it *)
  | EvSetItem (o k v : sym)                      (* o[k] = v *)
  | EvSetAttr (o : sym) (a : string) (v : sym)   (* o.a = v *)
  | EvAppend (o v : sym)                         (* o.append(v) *)
  | EvPrint (args : list sym)
  | EvRaise (e : exn).

Record kernel := Kernel {
  globals : gmap string sym;
  trace : list event
}.

Definition fresh_kernel : kernel := Kernel ∅ [].

Definition M (A : Type) : Type := kernel -> kernel * result A.

Definition ret {A} (a : A) : M A := fun k => (k, Ok a).

Definition bind {A B} (c : M A) (f : A -> M B) : M B :=
  fun k => match c k with
           | (k', Ok a) => f a k'
           | (k', Raise e) => (k', Raise e)
           end.

Notation "x <- c ; f" := (bind c (fun x => f))
  (at level 20, c at level 100, f at level 200, only parsing) : py_scope.
Notation "c ;; f" := (bind c (fun _ => f))
  (at level 100, f at level 200, right associativity) : py_scope.

Definition emit (e : event) : M unit :=
  fun k => (Kernel (globals k) (trace k ++ [e]), Ok tt).

(** [raise e]: the exception is recorded, then unwinds. *)
Definition throw {A} (e : exn) : M A :=
  fun k => (Kernel (globals k) (trace k ++ [EvRaise e]), Raise e).

(** [name = v] at the top level of a cell. *)
Definition set (name : string) (v : sym) : M unit :=
  fun k => (Kernel (<[name := v]> (globals k)) (trace k), Ok tt).

(** Reading a global; an unbound name raises NameError. *)
Definition get (name : string) : M sym :=
  fun k => match globals k !! name with
           | Some v => (k, Ok v)
           | None => throw (Exn NameError name) k
           end.

(** [try: body except <catches> as e: handler e] *)
Definition try_except {A} (body : M A) (catches : exn -> bool)
    (handler : exn -> M A) : M A :=
  fun k => match body k with
           | (k', Ok a) => (k', Ok a)
           | (k', Raise e) => if catches e then handler e k' else (k', Raise e)
           end.

(** [except ... as name: handler], once the exception is caught: it is
    bound to [name] while the handler runs, and [name] is unbound when the
    handler ends, however it ends. *)
Definition except_as {A} (name : string) (handler : M A) (e : exn) : M A :=
  fun k => match handler (Kernel (<[name := SExn e]> (globals k)) (trace k)) with
           | (k', r) => (Kernel (delete name (globals k')) (trace k'), r)
           end.

Definition print (args : list sym) : M unit := emit (EvPrint args).

(** A pure computation that may raise. *)
Definition lift {A} (r : result A) : M A :=
  match r with
  | Ok a => ret a
  | Raise e => throw e
  end.

(** [name.append(v)] on the list bound to a global. *)
Definition append_to (name : string) (v : sym) : M unit :=
  l <- get name;
  emit (EvAppend l v);;
  set name (appended l v).

(** [for i in range(n)], the body telling whether it ran into [break]. *)
Inductive ctl := Next | Break.

Fixpoint for_range (i : Z) (n : nat) (body : Z -> M ctl) : M unit :=
  match n with
  | O => ret tt
  | S n' =>
      c <- body i;
      match c with
      | Break => ret tt
      | Next => for_range (i + 1) n' body
      end
  end.

Definition truthy (v : sym) : bool :=
  match v with
  | SNone | SBool false | SInt 0 | SStr "" => false
  | STuple [] | SList [] | SDict [] => false
  | _ => true
  end.

(** ** The outside world

    Whether an operation on the outside world raises is not decided by the
    notebook: it is decided by the environment, from what has happened so
    far and the operation attempted. *)

Section World.

Variable fails : list event -> event -> option exn.

(** How many items an external sequence or iterable holds. *)
Variable len : sym -> nat.

(** The node pairs an external minibatch holds. *)
Variable pairs_of : sym -> node_pairs_of_minibatch.

(** An operation on the outside world: it raises when the environment says
    so, and is recorded otherwise. *)
Definition ext (e : event) : M unit :=
  fun k => match fails (trace k) e with
           | Some x => throw x k
           | None => emit e k
           end.

(** [import m] binds the top-level package name; [import m as a] binds [a]
    to the module itself. *)
Definition top_package (m : string) : string :=
  match String.index 0 "." m with
  | Some i => String.substring 0 i m
  | None => m
  end.

Definition import (m : string) : M unit :=
  ext (EvImport m);; set (top_package m) (SModule (top_package m)).

Definition import_as (m alias : string) : M unit :=
  ext (EvImport m);; set alias (SModule m).

Definition import_from (m name : string) : M unit :=
  ext (EvImport m);; set name (SAttr (SModule m) name).

(** [o.m(args)], [f(args)] for an external callable held in a value, and
    [f(args)] for a Python builtin. *)
Definition meth (o : sym) (m : string) (args : list sym) : M sym :=
  ext (EvCall o m args);; ret (SMeth o m args).

Definition call (f : sym) (args : list sym) : M sym :=
  meth f "__call__" args.

Definition builtin (f : string) (args : list sym) : M sym :=
  ext (EvCall (SModule "builtins") f args);; ret (SApp f args).

(** [o[k] = v] *)
Definition setitem (o k v : sym) : M unit := ext (EvSetItem o k v).

(** [o.a = v] *)
Definition setattr (o : sym) (a : string) (v : sym) : M unit :=
  ext (EvSetAttr o a v).

(** A [!cmd] line. *)
Definition shell (cmd : string) : M unit := ext (EvShell cmd).

(** [next(iter(it))].  Whether the iterator has a first item is the
    environment's answer to the [next]: on an exhausted iterator it raises
    StopIteration there. *)
Definition next_iter (it : sym) : M sym :=
  ext (EvIter it);; ext (EvNext it 0);; ret (SNth it 0).

(** [for x in it: body x] without [break]. *)
Fixpoint for_items (it : sym) (i : nat) (n : nat) (body : sym -> M unit)
    : M unit :=
  match n with
  | O => ret tt
  | S n' => ext (EvNext it i);; body (SNth it i);; for_items it (S i) n' body
  end.

Definition for_in (it : sym) (body : sym -> M unit) : M unit :=
  ext (EvIter it);; for_items it 0 (len it) body.

(** [with ctx as x: body x].  The context managers the notebooks use
    (tqdm bars, [torch.no_grad()]) return themselves from [__enter__] and
    do not suppress exceptions in [__exit__]: the exit always runs and an
    exception of the body goes on unwinding. *)
Definition with_ctx {A} (ctx : sym) (body : sym -> M A) : M A :=
  ext (EvCall ctx "__enter__" []);;
  fun k => match body ctx k with
           | (k', Ok a) => (ext (EvCall ctx "__exit__" []);; ret a) k'
           | (k', Raise e) =>
               match ext (EvCall ctx "__exit__" []) k' with
               | (k'', Ok _) => (k'', Raise e)
               | (k'', Raise x) => (k'', Raise x)
               end
           end.

(** The items of a sequence: those of a literal, or as many [v[i]] as the
    external sequence holds. *)
Definition elements (v : sym) : list sym :=
  match v with
  | SList l | STuple l => l
  | _ => map (fun i => SItem v (SInt (Z.of_nat i))) (seq 0 (len v))
  end.

(** ** The import guard

<<
try:
    import dgl.graphbolt as gb
    installed = True
except ImportError as error:
    installed = False
    print(error)
print("DGL installed!" if installed else "DGL not found!")
>>
    The two training tutorials have [import dgl] as the first line of the
    [try] body; [guarded] is the list of imports of the body. *)

Definition import_guard (guarded : M unit) : M unit :=
  try_except
    (guarded;;
     set "installed" (SBool true))
    isinstance_ImportError
    (except_as "error"
       (set "installed" (SBool false);;
        error <- get "error";
        print [error]));;
  installed <- get "installed";
  print [if truthy installed then SStr "DGL installed!"
         else SStr "DGL not found!"].

Definition walkthrough_guard : M unit :=
  import_guard (import_as "dgl.graphbolt" "gb").

Definition training_guard : M unit :=
  import_guard (import "dgl";; import_as "dgl.graphbolt" "gb").

(** ** Notebook: GraphBolt walkthrough *)

(** Cell [fWiaC1WaDE-W]. *)
Definition walkthrough_install : M unit :=
  import "os";;
  import "torch";;
  os <- get "os";
  torch <- get "torch";
  setitem (SAttr os "environ") (SStr "TORCH") (SAttr torch "__version__");;
  os <- get "os";
  setitem (SAttr os "environ") (SStr "DGLBACKEND") (SStr "pytorch");;
  walkthrough_guard.

Definition node_pairs_literal : sym :=
  SList (map ints
    [[7; 0]; [6; 0]; [1; 3]; [3; 3]; [2; 4]; [8; 4]; [1; 4]; [2; 4]; [1; 5];
     [9; 6]; [0; 6]; [8; 6]; [7; 7]; [7; 7]; [4; 7]; [6; 8]; [5; 8]; [9; 9];
     [4; 9]; [4; 9]; [5; 9]; [9; 9]; [5; 9]; [9; 9]; [7; 9]]).

(** Cell [g73ZAbMQsSgV]. *)
Definition walkthrough_item_set : M unit :=
  torch <- get "torch";
  node_pairs <- meth torch "tensor" [node_pairs_literal];
  set "node_pairs" node_pairs;;
  gb <- get "gb";
  item_set <- meth gb "ItemSet" [node_pairs; SKw "names" (SStr "node_pairs")];
  set "item_set" item_set;;
  items <- builtin "list" [item_set];
  print [items].

Definition indptr_literal : sym := ints [0; 2; 2; 2; 4; 8; 9; 12; 15; 17; 25].

Definition indices_literal : sym :=
  ints [7; 6; 1; 3; 2; 8; 1; 2; 1; 9; 0; 8; 7; 7; 4; 6; 5; 9; 4; 4; 5; 9; 5;
        9; 7].

(** Cell [jDjY149xs3PI]. *)
Definition walkthrough_graph : M unit :=
  torch <- get "torch";
  indptr <- meth torch "tensor" [indptr_literal];
  set "indptr" indptr;;
  torch <- get "torch";
  indices <- meth torch "tensor" [indices_literal];
  set "indices" indices;;
  let num_edges := SInt 25 in
  set "num_edges" num_edges;;
  torch <- get "torch";
  eid <- meth torch "arange" [num_edges];
  set "eid" eid;;
  gb <- get "gb";
  let edge_attributes := SDict [(SAttr gb "ORIGINAL_EDGE_ID", eid)] in
  set "edge_attributes" edge_attributes;;
  gb <- get "gb";
  graph <- meth gb "from_fused_csc"
             [indptr; indices; SNone; SNone; edge_attributes; SNone];
  set "graph" graph;;
  print [graph].

(** The feature store both the feature cell and the exercise cell build. *)
Definition build_feature_store : M unit :=
  let num_nodes := SInt 10 in
  set "num_nodes" num_nodes;;
  let num_edges := SInt 25 in
  set "num_edges" num_edges;;
  torch <- get "torch";
  node_feature_data <- meth torch "rand" [STuple [num_nodes; SInt 2]];
  set "node_feature_data" node_feature_data;;
  torch <- get "torch";
  edge_feature_data <- meth torch "rand" [STuple [num_edges; SInt 3]];
  set "edge_feature_data" edge_feature_data;;
  gb <- get "gb";
  node_feature <- meth gb "TorchBasedFeature" [node_feature_data];
  set "node_feature" node_feature;;
  gb <- get "gb";
  edge_feature <- meth gb "TorchBasedFeature" [edge_feature_data];
  set "edge_feature" edge_feature;;
  let features :=
    SDict [(STuple [SStr "node"; SNone; SStr "feat"], node_feature);
           (STuple [SStr "edge"; SNone; SStr "feat"], edge_feature)] in
  set "features" features;;
  gb <- get "gb";
  feature_store <- meth gb "BasicFeatureStore" [features];
  set "feature_store" feature_store.

(** Cell [zIU6KWe1Sm2g]. *)
Definition walkthrough_feature_store : M unit :=
  build_feature_store;;
  feature_store <- get "feature_store";
  print [feature_store].

(** [print(next(iter(datapipe)))] *)
Definition print_first_minibatch : M unit :=
  datapipe <- get "datapipe";
  minibatch <- next_iter datapipe;
  print [minibatch].

(** Cell [XtqPDprrogR7]. *)
Definition walkthrough_item_sampler : M unit :=
  gb <- get "gb";
  item_set <- get "item_set";
  datapipe <- meth gb "ItemSampler"
                [item_set; SKw "batch_size" (SInt 3); SKw "shuffle" (SBool false)];
  set "datapipe" datapipe;;
  print_first_minibatch.

(** Cell [PrFpGoOGopJy]. *)
Definition walkthrough_negative_sampler : M unit :=
  datapipe <- get "datapipe";
  graph <- get "graph";
  datapipe <- meth datapipe "sample_uniform_negative" [graph; SInt 1];
  set "datapipe" datapipe;;
  print_first_minibatch.

(** Cell [4UsY3PL3ppYV]. *)
Definition walkthrough_subgraph_sampler : M unit :=
  torch <- get "torch";
  fanouts <- meth torch "tensor" [ints [1]];
  set "fanouts" fanouts;;
  datapipe <- get "datapipe";
  graph <- get "graph";
  datapipe <- meth datapipe "sample_neighbor" [graph; SList [fanouts]];
  set "datapipe" datapipe;;
  print_first_minibatch.

(** Cell [YAj8G7YBqO6G]. *)
Definition walkthrough_feature_fetcher : M unit :=
  datapipe <- get "datapipe";
  feature_store <- get "feature_store";
  datapipe <- meth datapipe "fetch_feature"
                [feature_store;
                 SKw "node_feature_keys" (SList [SStr "feat"]);
                 SKw "edge_feature_keys" (SList [SStr "feat"])];
  set "datapipe" datapipe;;
  print_first_minibatch.

(** Cell [o8Yoi8BeqSdu]. *)
Definition walkthrough_to_dgl : M unit :=
  datapipe <- get "datapipe";
  datapipe <- meth datapipe "to_dgl" [];
  set "datapipe" datapipe;;
  print_first_minibatch.

(** Cell [RofiZOUMqt_u]. *)
Definition walkthrough_copy_to : M unit :=
  datapipe <- get "datapipe";
  datapipe <- meth datapipe "copy_to" [SKw "device" (SStr "cuda")];
  set "datapipe" datapipe;;
  print_first_minibatch.

(** Cell [YV-mk-xAv78v], the exercise: it rebuilds an item set, a graph and
    a feature store, leaves the datapipe to the reader ([...]) and prints
    the first minibatch of whatever [datapipe] is bound to. *)
Definition walkthrough_exercise : M unit :=
  let num_nodes := SInt 10 in
  set "num_nodes" num_nodes;;
  torch <- get "torch";
  nodes <- meth torch "arange" [num_nodes];
  set "nodes" nodes;;
  torch <- get "torch";
  labels <- meth torch "tensor" [ints [1; 2; 0; 2; 2; 0; 2; 2; 2; 2]];
  set "labels" labels;;
  gb <- get "gb";
  item_set <- meth gb "ItemSet"
                [STuple [nodes; labels];
                 SKw "names" (STuple [SStr "seed_nodes"; SStr "labels"])];
  set "item_set" item_set;;
  torch <- get "torch";
  indptr <- meth torch "tensor" [indptr_literal];
  set "indptr" indptr;;
  torch <- get "torch";
  indices <- meth torch "tensor" [indices_literal];
  set "indices" indices;;
  torch <- get "torch";
  eid <- meth torch "tensor"
           [ints [0; 1; 2; 3; 4; 5; 6; 7; 8; 9; 10; 11; 12; 13;
                  14; 15; 16; 17; 18; 19; 20; 21; 22; 23; 24]];
  set "eid" eid;;
  gb <- get "gb";
  let edge_attributes := SDict [(SAttr gb "ORIGINAL_EDGE_ID", eid)] in
  set "edge_attributes" edge_attributes;;
  gb <- get "gb";
  graph <- meth gb "from_fused_csc"
             [indptr; indices; SNone; SNone; edge_attributes; SNone];
  set "graph" graph;;
  build_feature_store;;
  print_first_minibatch.

(** ** The cells the two training tutorials share *)

(** Cell [QcpjTazg6hEo] (the same in both tutorials). *)
Definition training_install : M unit :=
  import "os";;
  import "torch";;
  import_as "numpy" "np";;
  os <- get "os";
  torch <- get "torch";
  setitem (SAttr os "environ") (SStr "TORCH") (SAttr torch "__version__");;
  os <- get "os";
  setitem (SAttr os "environ") (SStr "DGLBACKEND") (SStr "pytorch");;
  torch <- get "torch";
  device <- meth torch "device" [SStr "cpu"];
  set "device" device;;
  shell "pip install --pre dgl -f https://data.dgl.ai/wheels-test/repo.html";;
  training_guard.

(** Cell [RnJkkSKhWiUG]: [dataset = gb.BuiltinDataset(name).load()]. *)
Definition load_dataset (name : string) : M unit :=
  gb <- get "gb";
  builtin_dataset <- meth gb "BuiltinDataset" [SStr name];
  dataset <- meth builtin_dataset "load" [];
  set "dataset" dataset.

(** [dataset.tasks[i]] *)
Definition task (dataset : sym) (i : Z) : sym :=
  SItem (SAttr dataset "tasks") (SInt i).

(** [print(next(iter(train_dataloader)))], the minibatch kept in [data]. *)
Definition peek_train_dataloader : M sym :=
  train_dataloader <- get "train_dataloader";
  data <- next_iter train_dataloader;
  set "data" data;;
  ret data.

(** [layer(block, h)] and [F.relu(h)] on opaque representations. *)
Definition sym_conv (layer block h : sym) : sym :=
  SMeth layer "__call__" [block; h].

Definition sym_relu (F h : sym) : sym := SMeth F "relu" [h].

(** ** Notebook: link prediction *)

(** Cell [YCm8CGkOX9lK]. *)
Definition link_tasks : M unit :=
  dataset <- get "dataset";
  set "graph" (SAttr dataset "graph");;
  dataset <- get "dataset";
  set "feature" (SAttr dataset "feature");;
  dataset <- get "dataset";
  set "train_set" (SAttr (task dataset 1) "train_set");;
  dataset <- get "dataset";
  set "test_set" (SAttr (task dataset 1) "test_set");;
  dataset <- get "dataset";
  let task_name := SItem (SAttr (task dataset 1) "metadata") (SStr "name") in
  set "task_name" task_name;;
  print [SOp "f-string" [SStr "Task: "; task_name; SStr "."]].

(** Cell [LZgXGfBvYijJ]. *)
Definition link_train_dataloader : M unit :=
  gb <- get "gb";
  train_set <- get "train_set";
  datapipe <- meth gb "ItemSampler"
                [train_set; SKw "batch_size" (SInt 256);
                 SKw "shuffle" (SBool true)];
  set "datapipe" datapipe;;
  graph <- get "graph";
  datapipe <- meth datapipe "sample_uniform_negative" [graph; SInt 5];
  set "datapipe" datapipe;;
  graph <- get "graph";
  datapipe <- meth datapipe "sample_neighbor" [graph; ints [5; 5; 5]];
  set "datapipe" datapipe;;
  feature <- get "feature";
  datapipe <- meth datapipe "fetch_feature"
                [feature; SKw "node_feature_keys" (SList [SStr "feat"])];
  set "datapipe" datapipe;;
  datapipe <- meth datapipe "to_dgl" [];
  set "datapipe" datapipe;;
  device <- get "device";
  datapipe <- meth datapipe "copy_to" [device];
  set "datapipe" datapipe;;
  gb <- get "gb";
  train_dataloader <- meth gb "MultiProcessDataLoader"
                        [datapipe; SKw "num_workers" (SInt 0)];
  set "train_dataloader" train_dataloader.

(** Cell [euEdzmerYmZi]. *)
Definition link_peek : M unit :=
  data <- peek_train_dataloader;
  print [SOp "f-string" [SStr "DGLMiniBatch: "; data]].

(** Cell [0qQbBwO7Y3-Q]: three imports and [class SAGE(nn.Module)]. *)
Definition link_define_SAGE : M unit :=
  import_as "dgl.nn" "dglnn";;
  import_as "torch.nn" "nn";;
  import_as "torch.nn.functional" "F";;
  nn <- get "nn";
  set "SAGE" (SDef "SAGE").

(**
<<
    def __init__(self, in_size, hidden_size):
        super().__init__()
        self.layers = nn.ModuleList()
        self.layers.append(dglnn.SAGEConv(in_size, hidden_size, "mean"))
        self.layers.append(dglnn.SAGEConv(hidden_size, hidden_size, "mean"))
        self.hidden_size = hidden_size
        self.predictor = nn.Sequential(
            nn.Linear(hidden_size, hidden_size),
            nn.ReLU(),
            nn.Linear(hidden_size, 1),
        )
>> *)
Definition SAGE_init (in_size hidden_size : sym) : M sym :=
  let self := SObj "SAGE" [] in      (* the instance, no attribute set yet *)
  builtin "super().__init__" [];;
  nn <- get "nn";
  layers <- meth nn "ModuleList" [];
  setattr self "layers" layers;;
  dglnn <- get "dglnn";
  conv_in <- meth dglnn "SAGEConv" [in_size; hidden_size; SStr "mean"];
  ext (EvAppend layers conv_in);;
  dglnn <- get "dglnn";
  conv_hidden <- meth dglnn "SAGEConv" [hidden_size; hidden_size; SStr "mean"];
  ext (EvAppend layers conv_hidden);;
  setattr self "hidden_size" hidden_size;;
  nn <- get "nn";
  linear_hidden <- meth nn "Linear" [hidden_size; hidden_size];
  nn <- get "nn";
  activation <- meth nn "ReLU" [];
  nn <- get "nn";
  linear_out <- meth nn "Linear" [hidden_size; SInt 1];
  nn <- get "nn";
  predictor <- meth nn "Sequential" [linear_hidden; activation; linear_out];
  setattr self "predictor" predictor;;
  ret (SObj "SAGE" [("layers", SList [conv_in; conv_hidden]);
                    ("hidden_size", hidden_size);
                    ("predictor", predictor)]).

(** [self(blocks, x)] for an instance of SAGE: [nn.Module.__call__], which
    is the external library's, runs [forward]. *)
Definition SAGE_call (self blocks x : sym) : M sym :=
  ext (EvCall self "__call__" [blocks; x]);;
  F <- get "F";
  ret (SAGE_forward sym_conv (sym_relu F)
         (elements (attr self "layers")) (elements blocks) x).

(** Cell [omSIB_ePZACg]. *)
Definition link_model : M unit :=
  feature <- get "feature";
  size <- meth feature "size" [SStr "node"; SNone; SStr "feat"];
  let in_size := SItem size (SInt 0) in
  set "in_size" in_size;;
  _ <- get "SAGE";
  model <- SAGE_init in_size (SInt 128);
  device <- get "device";
  _ <- meth model "to" [device];
  set "model" model;;
  torch <- get "torch";
  parameters <- meth model "parameters" [];
  optimizer <- meth (SAttr torch "optim") "Adam"
                 [parameters; SKw "lr" (SFloat "0.001")];
  set "optimizer" optimizer.

(** Cell [wvIJBPb7ZNUv]: the annotation [gb.DGLMiniBatch] of the parameter
    is evaluated when the function is defined. *)
Definition link_define_to_binary_link : M unit :=
  _ <- get "gb";
  set "to_binary_link_dgl_computing_pack"
      (SDef "to_binary_link_dgl_computing_pack").

(** [to_binary_link_dgl_computing_pack(data)] on a minibatch of the outside
    world. *)
Definition call_to_binary_link (data : sym)
    : M ((tensor * tensor) * tensor) :=
  _ <- get "to_binary_link_dgl_computing_pack";
  lift (to_binary_link_dgl_computing_pack (pairs_of data)).

(** [model.predictor(y[pairs[0]] * y[pairs[1]]).squeeze()] *)
Definition predict (model y : sym) (pairs : tensor * tensor) : M sym :=
  scores <- call (attr model "predictor")
              [SOp "*" [SItem y (STensor (fst pairs));
                        SItem y (STensor (snd pairs))]];
  meth scores "squeeze" [].

(** Cell [SccLVrjSZSkd]. *)
Definition link_training_loop : M unit :=
  import "tqdm";;
  for_range 0 3 (fun epoch =>
    set "epoch" (SInt epoch);;
    model <- get "model";
    _ <- meth model "train" [];
    set "total_loss" (SInt 0);;
    tqdm <- get "tqdm";
    train_dataloader <- get "train_dataloader";
    enumerated <- builtin "enumerate" [train_dataloader];
    progress <- meth tqdm "tqdm" [enumerated];
    for_in progress (fun item =>
      let step := SItem item (SInt 0) in
      let data := SItem item (SInt 1) in
      set "step" step;;
      set "data" data;;
      packed <- call_to_binary_link data;
      let compacted_pairs := fst packed in
      let labels := snd packed in
      set "compacted_pairs"
          (STuple [STensor (fst compacted_pairs); STensor (snd compacted_pairs)]);;
      set "labels" (STensor labels);;
      let node_feature := SItem (SAttr data "node_features") (SStr "feat") in
      set "node_feature" node_feature;;
      let blocks := SAttr data "blocks" in
      set "blocks" blocks;;
      model <- get "model";
      y <- SAGE_call model blocks node_feature;
      set "y" y;;
      model <- get "model";
      logits <- predict model y compacted_pairs;
      set "logits" logits;;
      F <- get "F";
      loss <- meth F "binary_cross_entropy_with_logits" [logits; STensor labels];
      set "loss" loss;;
      optimizer <- get "optimizer";
      _ <- meth optimizer "zero_grad" [];
      _ <- meth loss "backward" [];
      optimizer <- get "optimizer";
      _ <- meth optimizer "step" [];
      total_loss <- get "total_loss";
      loss_item <- meth loss "item" [];
      set "total_loss" (SOp "+" [total_loss; loss_item]));;
    total_loss <- get "total_loss";
    step <- get "step";
    print [SOp "f-string"
             [SStr "Epoch "; SInt epoch; SStr " | Loss ";
              SOp "/" [total_loss; SOp "+" [step; SInt 1]]]];;
    ret Next).

(** Cell [IMulfsnIZZVh]. *)
Definition link_evaluation : M unit :=
  model <- get "model";
  _ <- meth model "eval" [];
  gb <- get "gb";
  test_set <- get "test_set";
  datapipe <- meth gb "ItemSampler"
                [test_set; SKw "batch_size" (SInt 256);
                 SKw "shuffle" (SBool false)];
  set "datapipe" datapipe;;
  graph <- get "graph";
  datapipe <- meth datapipe "sample_neighbor" [graph; ints [-1; -1]];
  set "datapipe" datapipe;;
  feature <- get "feature";
  datapipe <- meth datapipe "fetch_feature"
                [feature; SKw "node_feature_keys" (SList [SStr "feat"])];
  set "datapipe" datapipe;;
  datapipe <- meth datapipe "to_dgl" [];
  set "datapipe" datapipe;;
  device <- get "device";
  datapipe <- meth datapipe "copy_to" [device];
  set "datapipe" datapipe;;
  gb <- get "gb";
  eval_dataloader <- meth gb "MultiProcessDataLoader"
                       [datapipe; SKw "num_workers" (SInt 0)];
  set "eval_dataloader" eval_dataloader;;
  set "logits" (SList []);;
  set "labels" (SList []);;
  enumerated <- builtin "enumerate" [eval_dataloader];
  for_in enumerated (fun item =>
    let step := SItem item (SInt 0) in
    let data := SItem item (SInt 1) in
    set "step" step;;
    set "data" data;;
    packed <- call_to_binary_link data;
    let compacted_pairs := fst packed in
    let label := snd packed in
    set "compacted_pairs"
        (STuple [STensor (fst compacted_pairs); STensor (snd compacted_pairs)]);;
    set "label" (STensor label);;
    let x := SItem (SAttr data "node_features") (SStr "feat") in
    set "x" x;;
    model <- get "model";
    y <- SAGE_call model (SAttr data "blocks") x;
    set "y" y;;
    model <- get "model";
    squeezed <- predict model y compacted_pairs;
    logit <- meth squeezed "detach" [];
    set "logit" logit;;
    append_to "logits" logit;;
    append_to "labels" (STensor label));;
  torch <- get "torch";
  logits <- get "logits";
  logits <- meth torch "cat" [logits; SKw "dim" (SInt 0)];
  set "logits" logits;;
  torch <- get "torch";
  labels <- get "labels";
  labels <- meth torch "cat" [labels; SKw "dim" (SInt 0)];
  set "labels" labels;;
  import_from "sklearn.metrics" "roc_auc_score";;
  roc_auc_score <- get "roc_auc_score";
  auc <- call roc_auc_score [labels; logits];
  set "auc" auc;;
  print [SStr "Link Prediction AUC:"; auc].

(** ** Notebook: node classification *)

(** Cell [IXGZmgIaXJWQ]. *)
Definition node_tasks : M unit :=
  dataset <- get "dataset";
  set "graph" (SAttr dataset "graph");;
  dataset <- get "dataset";
  set "feature" (SAttr dataset "feature");;
  dataset <- get "dataset";
  set "train_set" (SAttr (task dataset 0) "train_set");;
  dataset <- get "dataset";
  set "valid_set" (SAttr (task dataset 0) "validation_set");;
  dataset <- get "dataset";
  set "test_set" (SAttr (task dataset 0) "test_set");;
  dataset <- get "dataset";
  let task_name := SItem (SAttr (task dataset 0) "metadata") (SStr "name") in
  set "task_name" task_name;;
  dataset <- get "dataset";
  let num_classes :=
    SItem (SAttr (task dataset 0) "metadata") (SStr "num_classes") in
  set "num_classes" num_classes;;
  print [SOp "f-string" [SStr "Task: "; task_name;
                         SStr ". Number of classes: "; num_classes]].

(** The five stages both data loaders of the notebook chain over an item
    set read from the global [item_set_name]:
<<
datapipe = gb.ItemSampler(<set>, batch_size=1024, shuffle=<shuffle>)
datapipe = datapipe.sample_neighbor(graph, [4, 4])
datapipe = datapipe.fetch_feature(feature, node_feature_keys=["feat"])
datapipe = datapipe.to_dgl()
datapipe = datapipe.copy_to(device)
<loader> = gb.MultiProcessDataLoader(datapipe, num_workers=0)
>> *)
Definition node_dataloader (item_set_name : string) (shuffle : bool)
    (loader_name : string) : M unit :=
  gb <- get "gb";
  item_set <- get item_set_name;
  datapipe <- meth gb "ItemSampler"
                [item_set; SKw "batch_size" (SInt 1024);
                 SKw "shuffle" (SBool shuffle)];
  set "datapipe" datapipe;;
  graph <- get "graph";
  datapipe <- meth datapipe "sample_neighbor" [graph; ints [4; 4]];
  set "datapipe" datapipe;;
  feature <- get "feature";
  datapipe <- meth datapipe "fetch_feature"
                [feature; SKw "node_feature_keys" (SList [SStr "feat"])];
  set "datapipe" datapipe;;
  datapipe <- meth datapipe "to_dgl" [];
  set "datapipe" datapipe;;
  device <- get "device";
  datapipe <- meth datapipe "copy_to" [device];
  set "datapipe" datapipe;;
  gb <- get "gb";
  loader <- meth gb "MultiProcessDataLoader"
              [datapipe; SKw "num_workers" (SInt 0)];
  set loader_name loader.

(** Cell [yQVYDO0ZbBvi]. *)
Definition node_train_dataloader : M unit :=
  node_dataloader "train_set" true "train_dataloader".

(** Cell [V7vQiKj2bL_o]. *)
Definition node_peek : M unit :=
  data <- peek_train_dataloader;
  print [data].

(** Cell [bN4sgZqFbUvd]. *)
Definition node_input_nodes : M unit :=
  data <- get "data";
  let mfgs := SAttr data "blocks" in
  set "mfgs" mfgs;;
  dgl <- get "dgl";
  let input_nodes :=
    SItem (SAttr (SItem mfgs (SInt 0)) "srcdata") (SAttr dgl "NID") in
  set "input_nodes" input_nodes;;
  print [SOp "f-string" [SStr "Input nodes: "; input_nodes; SStr "."]].

(**
<<
    def __init__(self, in_feats, h_feats, num_classes):
        super(Model, self).__init__()
        self.conv1 = SAGEConv(in_feats, h_feats, aggregator_type="mean")
        self.conv2 = SAGEConv(h_feats, num_classes, aggregator_type="mean")
        self.h_feats = h_feats
>> *)
Definition Model_init (in_feats h_feats num_classes : sym) : M sym :=
  let self := SObj "Model" [] in
  builtin "super(Model, self).__init__" [];;
  SAGEConv <- get "SAGEConv";
  conv1 <- call SAGEConv [in_feats; h_feats; SKw "aggregator_type" (SStr "mean")];
  setattr self "conv1" conv1;;
  SAGEConv <- get "SAGEConv";
  conv2 <- call SAGEConv
             [h_feats; num_classes; SKw "aggregator_type" (SStr "mean")];
  setattr self "conv2" conv2;;
  setattr self "h_feats" h_feats;;
  ret (SObj "Model" [("conv1", conv1); ("conv2", conv2); ("h_feats", h_feats)]).

(** [self(mfgs, x)] for an instance of Model. *)
Definition Model_call (self mfgs x : sym) : M sym :=
  ext (EvCall self "__call__" [mfgs; x]);;
  F <- get "F";
  lift (Model_forward sym_conv (sym_relu F)
          (attr self "conv1") (attr self "conv2") (elements mfgs) x).

(** Cell [iKhEIL0Ccmwx]: three imports, [class Model(nn.Module)] and the
    model. *)
Definition node_model : M unit :=
  import_as "torch.nn" "nn";;
  import_as "torch.nn.functional" "F";;
  import_from "dgl.nn" "SAGEConv";;
  nn <- get "nn";
  set "Model" (SDef "Model");;
  feature <- get "feature";
  size <- meth feature "size" [SStr "node"; SNone; SStr "feat"];
  let in_size := SItem size (SInt 0) in
  set "in_size" in_size;;
  _ <- get "Model";
  num_classes <- get "num_classes";
  model <- Model_init in_size (SInt 64) num_classes;
  device <- get "device";
  _ <- meth model "to" [device];
  set "model" model.

(** Cell [dET8i_hewLUi]. *)
Definition node_optimizer : M unit :=
  torch <- get "torch";
  model <- get "model";
  parameters <- meth model "parameters" [];
  opt <- meth (SAttr torch "optim") "Adam" [parameters];
  set "opt" opt.

(** Cell [Gvd7vFWZwQI5]. *)
Definition node_valid_dataloader : M unit :=
  node_dataloader "valid_set" false "valid_dataloader";;
  import "sklearn.metrics".

(** Cell [wsfqhKUvwZEj]. *)
Definition node_training_loop : M unit :=
  import "tqdm";;
  for_range 0 10 (fun epoch =>
    set "epoch" (SInt epoch);;
    model <- get "model";
    _ <- meth model "train" [];
    tqdm <- get "tqdm";
    train_dataloader <- get "train_dataloader";
    progress <- meth tqdm "tqdm" [train_dataloader];
    with_ctx progress (fun tq =>
      set "tq" tq;;
      enumerated <- builtin "enumerate" [tq];
      for_in enumerated (fun item =>
        let step := SItem item (SInt 0) in
        let data := SItem item (SInt 1) in
        set "step" step;;
        set "data" data;;
        let x := SItem (SAttr data "node_features") (SStr "feat") in
        set "x" x;;
        let labels := SAttr data "labels" in
        set "labels" labels;;
        model <- get "model";
        predictions <- Model_call model (SAttr data "blocks") x;
        set "predictions" predictions;;
        F <- get "F";
        loss <- meth F "cross_entropy" [predictions; labels];
        set "loss" loss;;
        opt <- get "opt";
        _ <- meth opt "zero_grad" [];
        _ <- meth loss "backward" [];
        opt <- get "opt";
        _ <- meth opt "step" [];
        sklearn <- get "sklearn";
        labels_cpu <- meth labels "cpu" [];
        labels_numpy <- meth labels_cpu "numpy" [];
        predicted <- meth predictions "argmax" [SInt 1];
        predicted <- meth predicted "detach" [];
        predicted <- meth predicted "cpu" [];
        predicted <- meth predicted "numpy" [];
        accuracy <- meth (SAttr sklearn "metrics") "accuracy_score"
                      [labels_numpy; predicted];
        set "accuracy" accuracy;;
        tq <- get "tq";
        loss_item <- meth loss "item" [];
        _ <- meth tq "set_postfix"
               [SDict [(SStr "loss", SOp "%" [SStr "%.03f"; loss_item]);
                       (SStr "acc", SOp "%" [SStr "%.03f"; accuracy])];
                SKw "refresh" (SBool false)];
        ret tt));;
    model <- get "model";
    _ <- meth model "eval" [];
    set "predictions" (SList []);;
    set "labels" (SList []);;
    tqdm <- get "tqdm";
    valid_dataloader <- get "valid_dataloader";
    progress <- meth tqdm "tqdm" [valid_dataloader];
    with_ctx progress (fun tq =>
      set "tq" tq;;
      torch <- get "torch";
      no_grad <- meth torch "no_grad" [];
      with_ctx no_grad (fun _ =>
        for_in tq (fun data =>
          set "data" data;;
          let x := SItem (SAttr data "node_features") (SStr "feat") in
          set "x" x;;
          labels_cpu <- meth (SAttr data "labels") "cpu" [];
          labels_numpy <- meth labels_cpu "numpy" [];
          append_to "labels" labels_numpy;;
          model <- get "model";
          scores <- Model_call model (SAttr data "blocks") x;
          predicted <- meth scores "argmax" [SInt 1];
          predicted <- meth predicted "cpu" [];
          predicted <- meth predicted "numpy" [];
          append_to "predictions" predicted);;
        np <- get "np";
        predictions <- get "predictions";
        predictions <- meth np "concatenate" [predictions];
        set "predictions" predictions;;
        np <- get "np";
        labels <- get "labels";
        labels <- meth np "concatenate" [labels];
        set "labels" labels;;
        sklearn <- get "sklearn";
        accuracy <- meth (SAttr sklearn "metrics") "accuracy_score"
                      [labels; predictions];
        set "accuracy" accuracy;;
        print [SMeth (SStr "Epoch {} Validation Accuracy {}") "format"
                 [SInt epoch; accuracy]];;
        ret Break))).

(** ** The notebooks as documents

    A notebook file gives its format version and its cells; a cell has a
    type, an identifier and a source.  Only code cells are run. *)

Record cell := Cell {
  cell_type : string;
  cell_id : string;
  source : M unit
}.

Record notebook := Notebook {
  nbformat : Z;
  nbformat_minor : Z;
  cells : list cell
}.

(** The source of a markdown cell is text: it does nothing. *)
Definition markdown (id : string) : cell := Cell "markdown" id (ret tt).
Definition code (id : string) (src : M unit) : cell := Cell "code" id src.

Definition walkthrough : notebook :=
  {| nbformat := 4; nbformat_minor := 0;
     cells :=
       [markdown "e1qfiZMOJYYv";
        code "fWiaC1WaDE-W" walkthrough_install;
        markdown "8O7PfsY4sPoN";
        code "g73ZAbMQsSgV" walkthrough_item_set;
        markdown "Lqty9p4cs0OR";
        code "jDjY149xs3PI" walkthrough_graph;
        markdown "mNp2S2_Vs8af";
        code "zIU6KWe1Sm2g" walkthrough_feature_store;
        markdown "Oh2ockWWoXQ0";
        code "XtqPDprrogR7" walkthrough_item_sampler;
        markdown "BjkAK37xopp1";
        code "PrFpGoOGopJy" walkthrough_negative_sampler;
        markdown "fYO_oIwkpmb3";
        code "4UsY3PL3ppYV" walkthrough_subgraph_sampler;
        markdown "0uIydsjUqMA0";
        code "YAj8G7YBqO6G" walkthrough_feature_fetcher;
        markdown "Gt059n1xrmj-";
        code "o8Yoi8BeqSdu" walkthrough_to_dgl;
        markdown "hjBSLPRPrsD2";
        code "RofiZOUMqt_u" walkthrough_copy_to;
        markdown "xm9HnyHRvxXj";
        code "YV-mk-xAv78v" walkthrough_exercise] |}.

Definition link_prediction : notebook :=
  {| nbformat := 4; nbformat_minor := 0;
     cells :=
       [markdown "Ow8CQmZIV8Yn";
        markdown "onVijYWpWlMj";
        code "QcpjTazg6hEo" training_install;
        markdown "OOKZxxT7W1Rz";
        code "RnJkkSKhWiUG" (load_dataset "cora");
        markdown "WxnTMEQXXKsM";
        code "YCm8CGkOX9lK" link_tasks;
        markdown "2y-P5omQYP00";
        code "LZgXGfBvYijJ" link_train_dataloader;
        markdown "5sU_aulqYkwK";
        code "euEdzmerYmZi" link_peek;
        markdown "WYQqfrDWYtU0";
        code "0qQbBwO7Y3-Q" link_define_SAGE;
        markdown "y23JppwHY5MC";
        code "omSIB_ePZACg" link_model;
        markdown "J9K1GUs4ZDYw";
        code "wvIJBPb7ZNUv" link_define_to_binary_link;
        markdown "QyWtzNZcZRgp";
        code "SccLVrjSZSkd" link_training_loop;
        markdown "pxow2XSkZXoO";
        code "IMulfsnIZZVh" link_evaluation;
        markdown "KoCoIvqAZeCS"] |}.

Definition node_classification : notebook :=
  {| nbformat := 4; nbformat_minor := 0;
     cells :=
       [markdown "OxbY2KlG4ZfJ";
        markdown "mzZKrVVk6Y_8";
        code "QcpjTazg6hEo" training_install;
        markdown "XWdRZAM-51Cb";
        code "RnJkkSKhWiUG" (load_dataset "ogbn-arxiv");
        markdown "S8avoKBiXA9j";
        code "IXGZmgIaXJWQ" node_tasks;
        markdown "y8yn77Kg6HkW";
        markdown "q7GrcJTnZQjt";
        code "yQVYDO0ZbBvi" node_train_dataloader;
        markdown "7Rp12SUhbEV1";
        code "V7vQiKj2bL_o" node_peek;
        markdown "-eBuPnT-bS-o";
        code "bN4sgZqFbUvd" node_input_nodes;
        markdown "fV6epnRxbZl4";
        code "iKhEIL0Ccmwx" node_model;
        markdown "OGLN3kCcwCA8";
        code "dET8i_hewLUi" node_optimizer;
        markdown "leZvFP4GwMcq";
        code "Gvd7vFWZwQI5" node_valid_dataloader;
        markdown "nTIIfVMDwXqX";
        code "wsfqhKUvwZEj" node_training_loop;
        markdown "kmHnUI0QwfJ4"] |}.

Definition repository : list notebook :=
  [walkthrough; link_prediction; node_classification].

(** ** Running a notebook *)

Definition run_cell (c : cell) : M unit :=
  if String.eqb (cell_type c) "code" then source c else ret tt.

(** "Run all": the cells in order, stopping at the first exception. *)
Fixpoint run_cells (cs : list cell) : M unit :=
  match cs with
  | [] => ret tt
  | c :: cs' => run_cell c;; run_cells cs'
  end.

Definition run_all (nb : notebook) : M unit := run_cells (cells nb).

(** Interactive use: the reader executes cells one at a time, in any order
    and any number of times; an exception is displayed and the kernel
    keeps the state the cell left. *)
Definition execute (nb : notebook) (k : kernel) (i : nat) : kernel :=
  match cells nb !! i with
  | Some c => fst (run_cell c k)
  | None => k
  end.

Definition session (nb : notebook) (order : list nat) (k : kernel) : kernel :=
  fold_left (execute nb) order k.

End World.


(** * Properties of runs *)

(** ** Worlds to run the notebooks in *)

(** Nothing raises. *)
Definition calm : list event -> event -> option exn := fun _ _ => None.

(** DGL is not installed: importing [dgl] or one of its submodules raises
    ModuleNotFoundError; nothing else raises. *)
Definition no_dgl : list event -> event -> option exn :=
  fun _ e =>
    match e with
    | EvImport m =>
        if String.eqb (top_package m) "dgl"
        then Some (Exn ModuleNotFoundError "No module named 'dgl'")
        else None
    | _ => None
    end.

(** An older DGL is installed: [dgl] imports, its submodule
    [dgl.graphbolt] does not exist. *)
Definition no_graphbolt : list event -> event -> option exn :=
  fun _ e =>
    match e with
    | EvImport m =>
        if String.eqb m "dgl.graphbolt"
        then Some (Exn ModuleNotFoundError "No module named 'dgl.graphbolt'")
        else None
    | _ => None
    end.

(** Every iterable yields two items. *)
Definition two_items : sym -> nat := fun _ => 2%nat.

(** Every minibatch holds two positive and three negative pairs. *)
Definition sample_pairs : sym -> node_pairs_of_minibatch :=
  fun _ =>
    {| positive_node_pairs :=
         Some (Tensor int64 [0; 1], Tensor int64 [2; 3]);
       negative_node_pairs :=
         Some (Tensor int64 [0; 1; 4], Tensor int64 [5; 6; 7]) |}.

(** ** Printed output and raised exceptions *)

Definition printed (k : kernel) : list (list sym) :=
  omap (fun e => match e with EvPrint args => Some args | _ => None end)
       (trace k).

Definition raised (k : kernel) : list exn :=
  omap (fun e => match e with EvRaise x => Some x | _ => None end) (trace k).

(** A program handles an error when it completes normally although an
    exception was raised while it ran. *)
Definition swallows {A} (c : M A) (k : kernel) : Prop :=
  exists k' a, c k = (k', Ok a) /\ raised k' <> raised k.

(** A program that swallows nothing: when it completes, no exception was
    raised while it ran.  (It says nothing of a run that ends with an
    exception; [propagates] below does.) *)
Definition transparent {A} (c : M A) : Prop :=
  forall k k' a, c k = (k', Ok a) -> raised k' = raised k.

(** What an observer sees of a run of the guard that found DGL missing:
    it ended normally, [installed] is False, the error then "DGL not
    found!" were printed, and the one exception raised was [e]. *)
Definition reports_missing (k : kernel) (run : kernel * result unit)
    (e : exn) : Prop :=
  snd run = Ok tt /\
  globals (fst run) !! "installed" = Some (SBool false) /\
  printed (fst run) = printed k ++ [[SExn e]; [SStr "DGL not found!"]] /\
  raised (fst run) = raised k ++ [e].

(** And of a run that found it: it ended normally, [installed] is True,
    "DGL installed!" was printed, nothing was raised, [gb] is the
    module. *)
Definition reports_installed (k : kernel) (run : kernel * result unit)
    : Prop :=
  snd run = Ok tt /\
  globals (fst run) !! "installed" = Some (SBool true) /\
  printed (fst run) = printed k ++ [[SStr "DGL installed!"]] /\
  raised (fst run) = raised k /\
  globals (fst run) !! "gb" = Some (SModule "dgl.graphbolt").

(** ** Error handling *)

(** What a program that completes normally may have caught: nothing, or
    one ImportError. *)
Definition catches_import_errors_only {A} (c : M A) : Prop :=
  forall k k' a, c k = (k', Ok a) ->
    raised k' = raised k \/
    exists e, isinstance_ImportError e = true /\ raised k' = raised k ++ [e].

(** A program whose every exceptional exit has recorded just the
    exception it ends with. *)
Definition raises_logged {A} (c : M A) : Prop :=
  forall k k' e, c k = (k', Raise e) -> raised k' = raised k ++ [e].

(** An exception the environment raises for the [__exit__] of a context
    manager. *)
Definition raised_by_exit (fails : list event -> event -> option exn)
    (x : exn) : Prop :=
  exists tr ctx, fails tr (EvCall ctx "__exit__" []) = Some x.

(** A program with no error handling of its own.  If it completes, no
    exception was raised while it ran.  If it ends with an exception, that
    is the last exception raised, and whatever was raised after the first
    exception was raised by the [__exit__] of a [with] block being left:
    nothing is caught, replaced or raised again by the program. *)
Definition propagates (fails : list event -> event -> option exn) {A}
    (c : M A) : Prop :=
  forall k k' r, c k = (k', r) ->
    match r with
    | Ok _ => raised k' = raised k
    | Raise e =>
        exists first exits,
          raised k' = raised k ++ first :: exits /\
          last (first :: exits) = Some e /\
          Forall (raised_by_exit fails) exits
    end.

(** A notebook, given the environment, has exactly one cell that handles
    an error: cell [i] can complete after an exception was raised, what it
    catches is one ImportError at most, and an exception it ends with is
    the only one raised; every other cell has no error handling of its
    own. *)
Definition one_guard
    (nb : (list event -> event -> option exn) -> notebook) : Prop :=
  exists i,
    (exists fails c k,
       cells (nb fails) !! i = Some c /\ swallows (run_cell c) k) /\
    (forall fails c,
       cells (nb fails) !! i = Some c ->
       catches_import_errors_only (run_cell c) /\
       raises_logged (run_cell c)) /\
    (forall fails j c,
       j <> i -> cells (nb fails) !! j = Some c ->
       propagates fails (run_cell c)).

(** An event other than the record of a raised exception. *)
Definition not_a_raise (e : event) : Prop :=
  match e with
  | EvRaise _ => False
  | _ => True
  end.

(** ** Data pipelines *)

Definition canonical : list string :=
  ["ItemSampler"; "sample_uniform_negative"; "sample_neighbor";
   "fetch_feature"; "to_dgl"; "copy_to"].

Definition canonical_without_negatives : list string :=
  ["ItemSampler"; "sample_neighbor"; "fetch_feature"; "to_dgl"; "copy_to"].

Definition is_stage (m : string) : bool :=
  existsb (String.eqb m)
    ["sample_uniform_negative"; "sample_neighbor"; "fetch_feature"; "to_dgl";
     "copy_to"].

(** The stages chained into a datapipe, first stage first; empty when the
    value is not a datapipe rooted in an ItemSampler. *)
Fixpoint stages (v : sym) : list string :=
  match v with
  | SMeth o m _ =>
      if String.eqb m "ItemSampler" then [m]
      else if is_stage m then
        match stages o with
        | [] => []
        | st => st ++ [m]
        end
      else []
  | _ => []
  end.

Definition complete (dp : sym) : bool :=
  bool_decide (stages dp = canonical)
  || bool_decide (stages dp = canonical_without_negatives).

(** Some first stages of the fixed order, negative sampling present or
    not. *)
Definition in_order (dp : sym) : bool :=
  bool_decide (stages dp <> [])
  && (bool_decide (stages dp `prefix_of` canonical)
      || bool_decide (stages dp `prefix_of` canonical_without_negatives)).

(** The datapipe a [gb.MultiProcessDataLoader] was given. *)
Definition loader_datapipe (v : sym) : option sym :=
  match v with
  | SMeth _ m (dp :: _) =>
      if String.eqb m "MultiProcessDataLoader" then Some dp else None
  | _ => None
  end.

(** What [enumerate(x)] and [tqdm.tqdm(x)] iterate is [x]. *)
Fixpoint unwrap (it : sym) : sym :=
  match it with
  | SMeth _ m [x] => if String.eqb m "tqdm" then unwrap x else it
  | SApp f [x] => if String.eqb f "enumerate" then unwrap x else it
  | _ => it
  end.

(** The datapipe an [iter(it)] sets going. *)
Definition pipeline_iterated (it : sym) : sym :=
  match loader_datapipe (unwrap it) with
  | Some dp => dp
  | None => unwrap it
  end.

(** Every stage is chained in the fixed order. *)
Definition chained_in_order (e : event) : bool :=
  match e with
  | EvCall o m args =>
      if String.eqb m "ItemSampler" || is_stage m
      then in_order (SMeth o m args)
      else true
  | _ => true
  end.

(** Whatever is iterated is a pipeline with all its stages. *)
Definition iterated_when_complete (e : event) : bool :=
  match e with
  | EvIter it => complete (pipeline_iterated it)
  | _ => true
  end.

(** Whatever is iterated is a data loader over a pipeline with all its
    stages. *)
Definition iterated_through_loader (e : event) : bool :=
  match e with
  | EvIter it =>
      match loader_datapipe (unwrap it) with
      | Some dp => complete dp
      | None => false
      end
  | _ => true
  end.

(** Whatever is iterated is a datapipe whose stages so far are in order. *)
Definition iterated_in_order (e : event) : bool :=
  match e with
  | EvIter it => in_order (pipeline_iterated it)
  | _ => true
  end.

(** The claim of the specification: stages in the fixed order, and a
    pipeline iterated only once it has all its stages. *)
Definition staged_then_iterated (e : event) : bool :=
  chained_in_order e && iterated_when_complete e.

(** What the training tutorials do: the finished pipeline is wrapped in a
    data loader, and only the data loader is iterated. *)
Definition staged_then_loaded (e : event) : bool :=
  chained_in_order e && iterated_through_loader e.

(** What the walkthrough does: the pipeline is iterated after each stage
    is chained. *)
Definition staged_stepwise (e : event) : bool :=
  chained_in_order e && iterated_in_order e.

(** A data loader over a pipeline with all its stages. *)
Definition finished_loader (v : sym) : Prop :=
  exists gb dp workers,
    v = SMeth gb "MultiProcessDataLoader" [dp; workers] /\ complete dp = true.

Definition loaders_by_name (x : string) (v : sym) : Prop :=
  if String.eqb x "train_dataloader" || String.eqb x "valid_dataloader"
     || String.eqb x "eval_dataloader"
  then finished_loader v
  else True.

(** A datapipe made of the first [n] stages of the fixed order, not
    wrapped in anything. *)
Definition pipe_so_far (n : nat) (v : sym) : Prop :=
  stages v = take n canonical /\ pipeline_iterated v = v.

Definition datapipe_has (n : nat) (x : string) (v : sym) : Prop :=
  if String.eqb x "datapipe" then pipe_so_far n v else True.

(** What each [iter] of a trace sets going: the stages of the pipeline,
    and whether it goes through a data loader. *)
Definition iterations (tr : list event) : list (list string * bool) :=
  omap (fun e =>
          match e with
          | EvIter it =>
              Some (stages (pipeline_iterated it),
                    bool_decide (is_Some (loader_datapipe (unwrap it))))
          | _ => None
          end) tr.

(** ** Keyword arguments *)

Fixpoint kwarg (name : string) (args : list sym) : option sym :=
  match args with
  | [] => None
  | SKw n v :: rest => if String.eqb n name then Some v else kwarg name rest
  | _ :: rest => kwarg name rest
  end.

Definition is_int (z : Z) (v : option sym) : bool :=
  match v with
  | Some (SInt z') => z =? z'
  | _ => false
  end.

Definition is_bool (b : bool) (v : option sym) : bool :=
  match v with
  | Some (SBool b') => Bool.eqb b b'
  | _ => false
  end.

(** ** Data loaders and concurrency *)

Definition modules_imported : list string :=
  ["os"; "torch"; "numpy"; "dgl"; "dgl.graphbolt"; "dgl.nn"; "torch.nn";
   "torch.nn.functional"; "tqdm"; "sklearn.metrics"].

(** The functions and methods the notebooks call: constructors, queries
    and tensor operations of torch, dgl, numpy, sklearn and tqdm, the
    training steps of a model and an optimizer, and the builtins [list]
    and [enumerate].  None starts, joins or synchronises a process or a
    thread, and none schedules work. *)
Definition calls_made : list string :=
  ["tensor"; "arange"; "rand"; "device"; "cat"; "no_grad";
   "ItemSet"; "from_fused_csc"; "TorchBasedFeature"; "BasicFeatureStore";
   "BuiltinDataset"; "load"; "size";
   "ItemSampler"; "sample_uniform_negative"; "sample_neighbor";
   "fetch_feature"; "to_dgl"; "copy_to"; "MultiProcessDataLoader";
   "super().__init__"; "super(Model, self).__init__"; "ModuleList";
   "SAGEConv"; "Linear"; "ReLU"; "Sequential"; "to"; "parameters"; "Adam";
   "train"; "eval"; "zero_grad"; "backward"; "step"; "item";
   "binary_cross_entropy_with_logits"; "cross_entropy";
   "squeeze"; "detach"; "cpu"; "numpy"; "argmax"; "concatenate";
   "accuracy_score"; "tqdm"; "set_postfix"; "list"; "enumerate";
   "__enter__"; "__exit__"; "__call__"].

(** The values the notebooks call as functions: the two functions they
    import by name, a model of their own (whose [__call__] runs its
    [forward]) and the predictor of a model. *)
Definition callable (v : sym) : bool :=
  match v with
  | SAttr (SModule m) a =>
      (String.eqb m "dgl.nn" && String.eqb a "SAGEConv")
      || (String.eqb m "sklearn.metrics" && String.eqb a "roc_auc_score")
  | SObj _ _ => true
  | SMeth _ m _ => String.eqb m "Sequential"
  | _ => false
  end.

Definition environment_variables : list string := ["TORCH"; "DGLBACKEND"].

Definition shell_lines : list string :=
  ["pip install --pre dgl -f https://data.dgl.ai/wheels-test/repo.html"].

(** What a notebook does to the outside world is: import one of the
    modules listed, run the one shell line, set one of the two environment
    variables, or call one of the functions listed (a function value only
    when it is one of those above); and every data loader is made with
    [num_workers=0].  Updates of the notebooks' own objects, iteration and
    printing are not restricted. *)
Definition delegates (e : event) : bool :=
  match e with
  | EvImport m => existsb (String.eqb m) modules_imported
  | EvShell cmd => existsb (String.eqb cmd) shell_lines
  | EvCall f m args =>
      existsb (String.eqb m) calls_made
      && (if String.eqb m "__call__" then callable f else true)
      && (if String.eqb m "MultiProcessDataLoader"
          then is_int 0 (kwarg "num_workers" args)
          else true)
  | EvSetItem _ (SStr key) _ =>
      existsb (String.eqb key) environment_variables
  | EvSetItem _ _ _ => false
  | _ => true
  end.

(** What is known of the globals the notebooks call: [SAGEConv] and
    [roc_auc_score] are the imported functions, [model] is a model of the
    notebook (in the link-prediction tutorial, one with a predictor). *)
Definition callables_by_name (with_predictor : bool) (x : string) (v : sym)
    : Prop :=
  if String.eqb x "SAGEConv" || String.eqb x "roc_auc_score"
  then callable v = true
  else if String.eqb x "model"
  then callable v = true /\
       (if with_predictor then callable (attr v "predictor") = true else True)
  else True.

(** The [num_workers] each data loader was made with. *)
Definition loaders_made (tr : list event) : list (option sym) :=
  omap (fun e =>
          match e with
          | EvCall _ m args =>
              if String.eqb m "MultiProcessDataLoader"
              then Some (kwarg "num_workers" args) else None
          | _ => None
          end) tr.

(** ** Item sets and shuffling *)

Inductive split := training | evaluation.

(** [task.train_set] is a training set, [task.validation_set] and
    [task.test_set] are evaluation sets. *)
Definition split_of (item_set : sym) : option split :=
  match item_set with
  | SAttr _ a =>
      if String.eqb a "train_set" then Some training
      else if String.eqb a "validation_set" || String.eqb a "test_set"
      then Some evaluation
      else None
  | _ => None
  end.

Definition shuffle_matches_split (e : event) : bool :=
  match e with
  | EvCall _ m (item_set :: options) =>
      if String.eqb m "ItemSampler" then
        match split_of item_set with
        | Some training => is_bool true (kwarg "shuffle" options)
        | Some evaluation => is_bool false (kwarg "shuffle" options)
        | None => true
        end
      else true
  | _ => true
  end.

(** The samplers made over a training or evaluation set, with the value
    of [shuffle] each was given. *)
Definition samplers (tr : list event) : list (split * option sym) :=
  omap (fun e =>
          match e with
          | EvCall _ m (item_set :: options) =>
              if String.eqb m "ItemSampler"
              then match split_of item_set with
                   | Some s => Some (s, kwarg "shuffle" options)
                   | None => None
                   end
              else None
          | _ => None
          end) tr.

(** What the tutorials keep in [train_set], [valid_set] and [test_set]. *)
Definition split_by_name (x : string) (v : sym) : Prop :=
  if String.eqb x "train_set" then split_of v = Some training
  else if String.eqb x "valid_set" || String.eqb x "test_set"
  then split_of v = Some evaluation
  else True.

(** The two training tutorials. *)
Definition tutorials (fails : list event -> event -> option exn)
    (len : sym -> nat) (pairs_of : sym -> node_pairs_of_minibatch)
    : list notebook :=
  [link_prediction fails len pairs_of; node_classification fails len].

(** ** Objects the notebooks must leave alone *)

Definition is_item_set (v : sym) : bool :=
  match v with
  | SMeth _ m _ => String.eqb m "ItemSet"
  | SAttr _ a =>
      String.eqb a "train_set" || String.eqb a "validation_set"
      || String.eqb a "test_set"
  | _ => false
  end.

Definition is_sampling_graph (v : sym) : bool :=
  match v with
  | SMeth _ m _ => String.eqb m "from_fused_csc"
  | SAttr _ a => String.eqb a "graph"
  | _ => false
  end.

Definition is_feature_store (v : sym) : bool :=
  match v with
  | SMeth _ m _ =>
      String.eqb m "BasicFeatureStore" || String.eqb m "TorchBasedFeature"
  | SAttr _ a => String.eqb a "feature"
  | _ => false
  end.

(** A minibatch is an item a datapipe or data loader yields, alone or as
    the second component of what [enumerate] yields. *)
Definition is_minibatch (v : sym) : bool :=
  match v with
  | SNth _ _ => true
  | SItem (SNth _ _) (SInt 1) => true
  | _ => false
  end.

Definition protected (v : sym) : bool :=
  is_item_set v || is_sampling_graph v || is_feature_store v
  || is_minibatch v.

(** Such an object or a part of one: an attribute or an item of it, at
    any depth ([data.node_features], [data.node_features["feat"]],
    [data.blocks[0]], [data.labels]). *)
Fixpoint within_protected (v : sym) : bool :=
  protected v ||
  match v with
  | SAttr o _ | SItem o _ => within_protected o
  | _ => false
  end.

(** No item assignment, attribute assignment or [append] has such an
    object or a part of one as its target, and the only methods called on
    one are the queries [size] (of a feature store) and [cpu] (of the
    labels of a minibatch). *)
Definition leaves_alone (e : event) : bool :=
  match e with
  | EvSetItem o _ _ | EvSetAttr o _ _ | EvAppend o _ =>
      negb (within_protected o)
  | EvCall o m _ =>
      if within_protected o
      then String.eqb m "size" || String.eqb m "cpu"
      else true
  | _ => true
  end.

(** How many in-place updates a trace holds. *)
Definition updates (tr : list event) : nat :=
  length (omap (fun e => match e with
                         | EvSetItem _ _ _ | EvSetAttr _ _ _ | EvAppend _ _ =>
                             Some e
                         | _ => None
                         end) tr).

(** The names bound to such an object in a kernel. *)
Definition references (k : kernel) : list string :=
  (map_to_list (filter (fun kv => protected (snd kv) = true) (globals k))).*1.

(** The globals the notebooks call methods on or append to, and what is
    known of their values: none is such an object or a part of one, nor is
    the [predictor] of a model. *)
Definition receivers : list string :=
  ["os"; "torch"; "np"; "gb"; "dgl"; "dglnn"; "nn"; "F"; "tqdm"; "sklearn";
   "SAGEConv"; "roc_auc_score"; "datapipe"; "model"; "optimizer"; "opt";
   "tq"; "labels"; "logits"; "predictions"].

Definition unprotected (v : sym) : Prop :=
  within_protected v = false /\
  within_protected (attr v "predictor") = false.

Definition unprotected_by_name (x : string) (v : sym) : Prop :=
  if existsb (String.eqb x) receivers then unprotected v else True.

(** The same, with nothing known of the names [skip]: between cells the
    node-classification tutorial has [labels] bound to the labels of a
    minibatch. *)
Definition unprotected_except (skip : list string) (x : string) (v : sym)
    : Prop :=
  if existsb (String.eqb x) skip then True else unprotected_by_name x v.

(** When the cell completes, [x] is bound to such an object: the object
    outlives the cell. *)
Definition leaves_bound (x : string) (maker : M unit) : Prop :=
  forall k k', maker k = (k', Ok tt) ->
    exists v, globals k' !! x = Some v /\ protected v = true.

(** When the cell completes from a kernel in which [x] is bound to [v], it
    has called [m] with [v] among the arguments: it reads the object from
    the global. *)
Definition passes_on (x : string) (reader : M unit) (m : string) : Prop :=
  forall k k' v, globals k !! x = Some v -> reader k = (k', Ok tt) ->
    exists es o args,
      trace k' = trace k ++ es /\ EvCall o m args ∈ es /\ v ∈ args.

(** Cell [i] of the notebook leaves the object bound to the global [x],
    and the later cell [j] reads it from there and passes it to [m]. *)
Definition handed_over (nb : notebook) (x : string) (i j : nat)
    (m : string) : Prop :=
  (i < j)%nat /\
  exists maker reader,
    cells nb !! i = Some maker /\ cells nb !! j = Some reader /\
    leaves_bound x (run_cell maker) /\ passes_on x (run_cell reader) m.

(** When the cell completes from a kernel in which [x] is bound to [v], it
    has bound [y] to the field [a] of [v] ([mfgs = data.blocks]). *)
Definition reads_field (x : string) (reader : M unit) (y a : string)
    : Prop :=
  forall k k' v, globals k !! x = Some v -> reader k = (k', Ok tt) ->
    globals k' !! y = Some (SAttr v a).

(** What a cell that builds a data loader reads: the item set, the graph
    and the feature store, each from its global, each passed first to the
    call that takes it. *)
Definition loader_reads (item_set_name : string) (c : M unit) : Prop :=
  forall k k', c k = (k', Ok tt) ->
    exists item_set graph feature es,
      globals k !! item_set_name = Some item_set /\
      globals k !! "graph" = Some graph /\
      globals k !! "feature" = Some feature /\
      trace k' = trace k ++ es /\
      (exists o args, EvCall o "ItemSampler" (item_set :: args) ∈ es) /\
      (exists o args, EvCall o "sample_neighbor" (graph :: args) ∈ es) /\
      (exists o args, EvCall o "fetch_feature" (feature :: args) ∈ es).

(** ** Invariants of a kernel

    [event_ok] holds of every event so far, [global_ok name v] of every
    global. *)

Definition inv (event_ok : event -> bool) (global_ok : string -> sym -> Prop)
    (k : kernel) : Prop :=
  forallb event_ok (trace k) = true /\
  forall x v, globals k !! x = Some v -> global_ok x v.

(** From a kernel satisfying [inv event_ok pre], the program ends in one
    satisfying [inv event_ok post] with a result satisfying [R], or raises
    in one satisfying [inv event_ok exc]. *)
Definition triple {A} (event_ok : event -> bool)
    (exc pre : string -> sym -> Prop) (c : M A) (R : A -> Prop)
    (post : string -> sym -> Prop) : Prop :=
  forall k, inv event_ok pre k ->
    match c k with
    | (k', Ok a) => R a /\ inv event_ok post k'
    | (k', Raise _) => inv event_ok exc k'
    end.

Definition anything : string -> sym -> Prop := fun _ _ => True.

(** DGL is installed but does not load: importing [dgl] or one of its
    submodules raises an OSError (a shared library is missing), which is
    not an ImportError. *)
Definition broken_dgl : list event -> event -> option exn :=
  fun _ e =>
    match e with
    | EvImport m =>
        if String.eqb (top_package m) "dgl"
        then Some (Exn (OtherError "OSError")
                       "libgraphbolt.so: cannot open shared object file")
        else None
    | _ => None
    end.

(** ** Runs that end without an exception *)

(** No operation on the outside world raises. *)
Definition quiet (fails : list event -> event -> option exn) : Prop :=
  forall tr e, fails tr e = None.

(** Every name of [names] is bound in the kernel. *)
Definition binds (names : list string) (k : kernel) : Prop :=
  Forall (fun x => is_Some (globals k !! x)) names.

Definition names_in (names among : list string) : bool :=
  forallb (fun x => existsb (String.eqb x) among) names.

(** From a kernel that binds [pre] the program returns, and leaves a
    kernel that binds [post]. *)
Definition completes {A} (pre : list string) (c : M A) (post : list string)
    : Prop :=
  forall k, binds pre k -> exists k' a, c k = (k', Ok a) /\ binds post k'.

(** Every minibatch has its positive and its negative node pairs. *)
Definition with_negatives (pairs_of : sym -> node_pairs_of_minibatch) : Prop :=
  forall data,
    is_Some (positive_node_pairs (pairs_of data)) /\
    is_Some (negative_node_pairs (pairs_of data)).

(** No iterable yields an item. *)
Definition no_items : sym -> nat := fun _ => 0%nat.

(** ** What a program adds to the trace *)

(** A call of one of the methods or functions named [names]. *)
Definition calls_any (names : list string) (e : event) : bool :=
  match e with
  | EvCall _ f _ => existsb (String.eqb f) names
  | _ => false
  end.

Definition count_events (p : event -> bool) (es : list event) : nat :=
  length (List.filter p es).

(** Whatever the kernel and however the program ends, it adds at most [n]
    events that satisfy [p] to the trace, and takes nothing away. *)
Definition at_most {A} (p : event -> bool) (n : nat) (c : M A) : Prop :=
  forall k, exists es,
    trace (fst (c k)) = trace k ++ es /\ (count_events p es <= n)%nat.

(** A loop body that never asks for the next iteration: it ends in
    [break] or in an exception. *)
Definition ends_without_next (c : M ctl) : Prop :=
  forall k k', c k <> (k', Ok Next).

(** ** Devices *)

(** [torch.device("cpu")] *)
Definition is_cpu_device (v : sym) : bool :=
  match v with
  | SMeth _ m [SStr s] => String.eqb m "device" && String.eqb s "cpu"
  | _ => false
  end.

(** Every [copy_to] of a pipeline and every [to] of a model is given the
    CPU device, and nothing else. *)
Definition on_cpu (e : event) : bool :=
  match e with
  | EvCall _ m args =>
      if String.eqb m "copy_to" || String.eqb m "to"
      then match args with
           | [d] => is_cpu_device d
           | _ => false
           end
      else true
  | _ => true
  end.

Definition device_by_name (x : string) (v : sym) : Prop :=
  if String.eqb x "device" then is_cpu_device v = true else True.

(** ** What a data loader loads *)

(** The item set at the root of a datapipe. *)
Fixpoint pipeline_source (v : sym) : option sym :=
  match v with
  | SMeth o m args =>
      if String.eqb m "ItemSampler" then head args
      else if is_stage m then pipeline_source o
      else None
  | _ => None
  end.

(** The split a data loader reads, when it is a data loader over a
    pipeline with all its stages. *)
Definition loader_split (v : sym) : option split :=
  match loader_datapipe v with
  | Some dp =>
      if complete dp
      then match pipeline_source dp with
           | Some item_set => split_of item_set
           | None => None
           end
      else None
  | None => None
  end.

Definition loads_by_name (x : string) (v : sym) : Prop :=
  if String.eqb x "train_dataloader" then loader_split v = Some training
  else if String.eqb x "valid_dataloader" || String.eqb x "eval_dataloader"
  then loader_split v = Some evaluation
  else split_by_name x v.

Definition any_event (e : event) : bool := true.

(** ** Names a program leaves as it found them *)

Definition keeps_name {A} (x : string) (c : M A) : Prop :=
  forall k, globals (fst (c k)) !! x = globals k !! x.

(** When the program completes, the last thing it did was to print the
    first item of what [x] was bound to when it started, and [x] is still
    bound to that. *)
Definition prints_first_of (x : string) (c : M unit) : Prop :=
  forall k k', c k = (k', Ok tt) ->
    exists dp tr,
      globals k !! x = Some dp /\ globals k' !! x = Some dp /\
      trace k' = tr ++ [EvIter dp; EvNext dp 0; EvPrint [SNth dp 0]].

(** Every minibatch holds two positive pairs and no negative pairs. *)
Definition positives_only : sym -> node_pairs_of_minibatch :=
  fun _ =>
    {| positive_node_pairs :=
         Some (Tensor int64 [0; 1], Tensor int64 [2; 3]);
       negative_node_pairs := None |}.

(** * Theorems *)

(** ** Tensors and [to_binary_link_dgl_computing_pack] *)

Lemma cat_pair (a b : tensor) :
  cat [a; b] = Ok (Tensor (promote (tensor_dtype a) (tensor_dtype b))
                          (tensor_data a ++ tensor_data b)).
Proof. reflexivity. Qed.

Lemma map_const_replicate {A B} (b : B) (l : list A) :
  map (fun _ => b) l = replicate (length l) b.
Proof. induction l as [|x l IH]; simpl; [reflexivity|]. now rewrite IH. Qed.

(** C8: on a minibatch with [p] positive and [n] negative pairs the
    function returns the pair of [cat(pos_src, neg_src)] and
    [cat(pos_dst, neg_dst)] with a float label tensor of [p] ones followed
    by [n] zeros; position [i] of the three tensors is the [i]-th positive
    pair with label 1 when [i < p], and the [(i - p)]-th negative pair with
    label 0 otherwise. *)
Theorem to_binary_link_positives_then_negatives
    (data : node_pairs_of_minibatch)
    (pos_src pos_dst neg_src neg_dst : tensor) (p n : nat) :
  positive_node_pairs data = Some (pos_src, pos_dst) ->
  negative_node_pairs data = Some (neg_src, neg_dst) ->
  length (tensor_data pos_src) = p -> length (tensor_data pos_dst) = p ->
  length (tensor_data neg_src) = n -> length (tensor_data neg_dst) = n ->
  exists src dst labels,
    to_binary_link_dgl_computing_pack data = Ok ((src, dst), labels) /\
    cat [pos_src; neg_src] = Ok src /\
    cat [pos_dst; neg_dst] = Ok dst /\
    tensor_dtype labels = float32 /\
    tensor_data labels = replicate p 1 ++ replicate n 0 /\
    length (tensor_data labels) = (p + n)%nat /\
    length (tensor_data src) = (p + n)%nat /\
    length (tensor_data dst) = (p + n)%nat /\
    (forall i, (i < p)%nat ->
       tensor_data labels !! i = Some 1 /\
       tensor_data src !! i = tensor_data pos_src !! i /\
       tensor_data dst !! i = tensor_data pos_dst !! i) /\
    (forall i, (p <= i < p + n)%nat ->
       tensor_data labels !! i = Some 0 /\
       tensor_data src !! i = tensor_data neg_src !! (i - p)%nat /\
       tensor_data dst !! i = tensor_data neg_dst !! (i - p)%nat).
Proof.
  intros Hpos Hneg Hps Hpd Hns Hnd.
  unfold to_binary_link_dgl_computing_pack. rewrite Hpos, Hneg.
  cbn [unpack_pair and_then]. rewrite !cat_pair. cbn [and_then].
  do 3 eexists. split; [reflexivity|]. split; [reflexivity|].
  split; [reflexivity|]. split; [reflexivity|].
  cbn [float ones_like zeros_like tensor_data].
  rewrite !map_const_replicate, Hps, Hns.
  split; [reflexivity|]. repeat split.
  - rewrite length_app, !length_replicate. reflexivity.
  - rewrite length_app. congruence.
  - rewrite length_app. congruence.
  - rewrite lookup_app_l by (rewrite length_replicate; lia).
    apply lookup_replicate_2. lia.
  - apply lookup_app_l. lia.
  - apply lookup_app_l. lia.
  - rewrite lookup_app_r by (rewrite length_replicate; lia).
    rewrite length_replicate. apply lookup_replicate_2. lia.
  - rewrite lookup_app_r by lia. now rewrite Hps.
  - rewrite lookup_app_r by lia. now rewrite Hpd.
Qed.

Lemma to_binary_link_positives_then_negatives_witness :
  exists src dst labels,
    to_binary_link_dgl_computing_pack (sample_pairs SNone)
      = Ok ((src, dst), labels) /\
    tensor_data src = [0; 1; 0; 1; 4] /\
    tensor_data dst = [2; 3; 5; 6; 7] /\
    tensor_data labels = [1; 1; 0; 0; 0].
Proof.
  destruct (to_binary_link_positives_then_negatives (sample_pairs SNone)
              (Tensor int64 [0; 1]) (Tensor int64 [2; 3])
              (Tensor int64 [0; 1; 4]) (Tensor int64 [5; 6; 7]) 2 3
              eq_refl eq_refl eq_refl eq_refl eq_refl eq_refl)
    as (src & dst & labels & Hrun & Hsrc & Hdst & _ & Hdata & _).
  exists src, dst, labels.
  injection Hsrc as <-. injection Hdst as <-.
  repeat split; [exact Hrun|exact Hdata].
Defined.

(** Without negative pairs the unpacking raises. *)
Lemma to_binary_link_without_negatives (pos : tensor * tensor) :
  to_binary_link_dgl_computing_pack (MiniBatchPairs (Some pos) None) =
  Raise (Exn TypeError "cannot unpack non-iterable NoneType object").
Proof. destruct pos. reflexivity. Qed.

(** ** The forward passes *)

Section Forward.

Context {layer block repr : Type}.
Variable conv : layer -> block -> repr -> repr.
Variable relu : repr -> repr.

Lemma SAGE_forward_loop_layered (layers : list layer) :
  forall (blocks : list block) (idx : nat) (h : repr),
    (length layers <= length blocks)%nat ->
    layered conv relu layers blocks h =
    Some (SAGE_forward_loop conv relu
            (Z.of_nat (idx + length layers)) (Z.of_nat idx)
            (zip layers blocks) h).
Proof.
  induction layers as [|l ls IH]; intros blocks idx h Hlen.
  - reflexivity.
  - destruct blocks as [|b bs]; [simpl in Hlen; lia|].
    simpl in Hlen. cbn [zip zip_with SAGE_forward_loop].
    destruct ls as [|l2 ls'].
    + cbn [layered length].
      replace (Z.of_nat idx =? Z.of_nat (idx + 1) - 1) with true
        by (symmetry; apply Z.eqb_eq; lia).
      reflexivity.
    + replace (Z.of_nat idx =? Z.of_nat (idx + length (l :: l2 :: ls')) - 1)
        with false by (symmetry; apply Z.eqb_neq; simpl length; lia).
      cbn [negb].
      change (layered conv relu (l :: l2 :: ls') (b :: bs) h)
        with (layered conv relu (l2 :: ls') bs (relu (conv l b h))).
      rewrite (IH bs (S idx) (relu (conv l b h))) by lia.
      do 2 f_equal; simpl length; lia.
Qed.

Lemma layered_take (layers : list layer) :
  forall (blocks : list block) (h : repr),
    layered conv relu layers (take (length layers) blocks) h =
    layered conv relu layers blocks h.
Proof.
  induction layers as [|l ls IH]; intros blocks h; [reflexivity|].
  destruct blocks as [|b bs]; [reflexivity|].
  destruct ls as [|l2 ls']; [reflexivity|].
  change (layered conv relu (l :: l2 :: ls') (b :: bs) h)
    with (layered conv relu (l2 :: ls') bs (relu (conv l b h))).
  rewrite <- IH. reflexivity.
Qed.

(** C9: with at least as many blocks as layers, both forward passes apply
    layer [i] to block [i] in order with a ReLU after every layer but the
    last, and look at the first [k] blocks only ([k] the number of layers,
    2 for Model). *)
Theorem forward_applies_layers_in_order :
  (forall (layers : list layer) (blocks : list block) (x : repr),
     (length layers <= length blocks)%nat ->
     layered conv relu layers blocks x
       = Some (SAGE_forward conv relu layers blocks x) /\
     SAGE_forward conv relu layers (take (length layers) blocks) x
       = SAGE_forward conv relu layers blocks x) /\
  (forall (conv1 conv2 : layer) (mfgs : list block) (x : repr),
     (2 <= length mfgs)%nat ->
     exists h,
       Model_forward conv relu conv1 conv2 mfgs x = Ok h /\
       layered conv relu [conv1; conv2] mfgs x = Some h /\
       Model_forward conv relu conv1 conv2 (take 2 mfgs) x = Ok h).
Proof.
  split.
  - intros layers blocks x Hlen.
    pose proof (SAGE_forward_loop_layered layers blocks 0 x Hlen) as Hfull.
    split; [exact Hfull|].
    assert (Htake : (length layers <= length (take (length layers) blocks))%nat)
      by (rewrite length_take; lia).
    pose proof (SAGE_forward_loop_layered layers _ 0 x Htake) as Hcut.
    rewrite layered_take, Hfull in Hcut.
    injection Hcut as Hcut. symmetry. exact Hcut.
  - intros conv1 conv2 mfgs x Hlen.
    destruct mfgs as [|m0 [|m1 rest]]; simpl in Hlen; try lia.
    exists (conv conv2 m1 (relu (conv conv1 m0 x))).
    repeat split.
Qed.

(** The model SAGE builds has two layers. *)
Lemma SAGE_forward_two_layers (l1 l2 : layer) (b1 b2 : block)
    (rest : list block) (x : repr) :
  SAGE_forward conv relu [l1; l2] (b1 :: b2 :: rest) x =
  conv l2 b2 (relu (conv l1 b1 x)).
Proof. reflexivity. Qed.

(** With fewer blocks than layers the loop of SAGE stops early, and what
    it returns went through a ReLU last. *)
Lemma SAGE_forward_one_block (l1 l2 : layer) (b1 : block) (x : repr) :
  SAGE_forward conv relu [l1; l2] [b1] x = relu (conv l1 b1 x).
Proof. reflexivity. Qed.

Lemma Model_forward_one_block (conv1 conv2 : layer) (b1 : block) (x : repr) :
  Model_forward conv relu conv1 conv2 [b1] x =
  Raise (Exn IndexError "list index out of range").
Proof. reflexivity. Qed.

End Forward.

Lemma forward_applies_layers_in_order_witness :
  let conv := fun layer block h : Z => layer * h + block in
  let relu := Z.max 0 in
  layered conv relu [1; 2] [10; 20; 30] (-100)
    = Some (SAGE_forward conv relu [1; 2] [10; 20; 30] (-100)) /\
  SAGE_forward conv relu [1; 2] [10; 20; 30] (-100) = 20 /\
  exists h, Model_forward conv relu 1 2 [10; 20; 30] (-100) = Ok h.
Proof.
  intros conv relu.
  destruct (forward_applies_layers_in_order conv relu) as [Hsage Hmodel].
  destruct (Hsage [1; 2] [10; 20; 30] (-100)) as [Hspec _]; [simpl; lia|].
  destruct (Hmodel 1 2 [10; 20; 30] (-100)) as (h & Hrun & _); [simpl; lia|].
  split; [exact Hspec|]. split; [reflexivity|]. exists h. exact Hrun.
Defined.

(** ** The import guard *)

Lemma printed_app (k : kernel) (es : list event) :
  printed (Kernel (globals k) (trace k ++ es)) =
  printed k ++ printed (Kernel (globals k) es).
Proof. unfold printed. simpl. apply omap_app. Qed.

Lemma raised_app (g : gmap string sym) (tr es : list event) :
  raised (Kernel g (tr ++ es)) = raised (Kernel g tr) ++ raised (Kernel g es).
Proof. unfold raised. simpl. apply omap_app. Qed.

Section Guard.

Variable fails : list event -> event -> option exn.
Variable guarded : M unit.

Lemma import_guard_installed (k k1 : kernel) :
  guarded k = (k1, Ok tt) ->
  import_guard guarded k =
    (Kernel (<["installed" := SBool true]> (globals k1))
            (trace k1 ++ [EvPrint [SStr "DGL installed!"]]),
     Ok tt).
Proof.
  intros Hrun. cbv [import_guard try_except bind]. rewrite Hrun.
  cbv [set get print emit globals trace]. rewrite lookup_insert_eq.
  reflexivity.
Qed.

Lemma import_guard_caught (k k1 : kernel) (e : exn) :
  guarded k = (k1, Raise e) ->
  isinstance_ImportError e = true ->
  import_guard guarded k =
    (Kernel (<["installed" := SBool false]> (delete "error" (globals k1)))
            (trace k1 ++ [EvPrint [SExn e]; EvPrint [SStr "DGL not found!"]]),
     Ok tt).
Proof.
  intros Hrun Hcls. cbv [import_guard try_except bind]. rewrite Hrun, Hcls.
  cbv [except_as bind set get print emit globals trace].
  rewrite lookup_insert_ne by discriminate. rewrite lookup_insert_eq.
  rewrite delete_insert_ne by discriminate. rewrite delete_insert_eq.
  rewrite lookup_insert_eq. cbv [truthy]. rewrite <- app_assoc. reflexivity.
Qed.

(** Any other exception goes through the guard. *)
Lemma import_guard_propagates (k k1 : kernel) (e : exn) :
  guarded k = (k1, Raise e) ->
  isinstance_ImportError e = false ->
  import_guard guarded k = (k1, Raise e).
Proof.
  intros Hrun Hcls. cbv [import_guard try_except bind]. now rewrite Hrun, Hcls.
Qed.

End Guard.

Section Imports.

Variable fails : list event -> event -> option exn.

Lemma import_as_ok (m alias : string) (k : kernel) :
  fails (trace k) (EvImport m) = None ->
  import_as fails m alias k =
    (Kernel (<[alias := SModule m]> (globals k)) (trace k ++ [EvImport m]),
     Ok tt).
Proof. intros Hf. cbv [import_as bind ext]. now rewrite Hf. Qed.

Lemma import_as_raises (m alias : string) (k : kernel) (e : exn) :
  fails (trace k) (EvImport m) = Some e ->
  import_as fails m alias k =
    (Kernel (globals k) (trace k ++ [EvRaise e]), Raise e).
Proof. intros Hf. cbv [import_as bind ext]. now rewrite Hf. Qed.

Lemma import_ok (m : string) (k : kernel) :
  fails (trace k) (EvImport m) = None ->
  import fails m k =
    (Kernel (<[top_package m := SModule (top_package m)]> (globals k))
            (trace k ++ [EvImport m]),
     Ok tt).
Proof. intros Hf. cbv [import bind ext]. now rewrite Hf. Qed.

Lemma import_raises (m : string) (k : kernel) (e : exn) :
  fails (trace k) (EvImport m) = Some e ->
  import fails m k = (Kernel (globals k) (trace k ++ [EvRaise e]), Raise e).
Proof. intros Hf. cbv [import bind ext]. now rewrite Hf. Qed.

Ltac observe :=
  repeat split; cbn [fst snd globals];
  try apply lookup_insert_eq;
  try (unfold printed, raised; cbn [trace];
       rewrite <- ?app_assoc; cbn [app]; rewrite omap_app; cbn [omap];
       rewrite ?app_nil_r; reflexivity).

(** C1: in the guard of every notebook, an ImportError raised by
    [import dgl.graphbolt] is caught: the guard ends normally with
    [installed] False after printing the error and then "DGL not found!";
    when the import succeeds [installed] is True and "DGL installed!" is
    printed.  (In the training tutorials [import dgl.graphbolt] is reached
    when [import dgl] before it succeeded.) *)
Theorem import_guard_best_effort (k : kernel) :
  (forall e,
     fails (trace k) (EvImport "dgl.graphbolt") = Some e ->
     isinstance_ImportError e = true ->
     reports_missing k (walkthrough_guard fails k) e) /\
  (fails (trace k) (EvImport "dgl.graphbolt") = None ->
     reports_installed k (walkthrough_guard fails k)) /\
  (fails (trace k) (EvImport "dgl") = None ->
     (forall e,
        fails (trace k ++ [EvImport "dgl"]) (EvImport "dgl.graphbolt") = Some e ->
        isinstance_ImportError e = true ->
        reports_missing k (training_guard fails k) e) /\
     (fails (trace k ++ [EvImport "dgl"]) (EvImport "dgl.graphbolt") = None ->
        reports_installed k (training_guard fails k))).
Proof.
  split; [|split; [|intros Hdgl; split]].
  - intros e Hf Hcls. unfold walkthrough_guard.
    rewrite (import_guard_caught _ k _ e (import_as_raises _ _ k e Hf) Hcls).
    observe.
  - intros Hf. unfold walkthrough_guard.
    rewrite (import_guard_installed _ k _ (import_as_ok _ _ k Hf)).
    observe. cbn [globals].
    rewrite lookup_insert_ne by discriminate. apply lookup_insert_eq.
  - intros e Hf Hcls. unfold training_guard.
    erewrite import_guard_caught; [| |exact Hcls].
    2:{ cbv [bind]. rewrite (import_ok _ k Hdgl).
        apply import_as_raises. exact Hf. }
    observe.
  - intros Hf. unfold training_guard.
    erewrite import_guard_installed.
    2:{ cbv [bind]. rewrite (import_ok _ k Hdgl).
        apply import_as_ok. exact Hf. }
    observe. cbn [globals].
    rewrite lookup_insert_ne by discriminate. apply lookup_insert_eq.
Qed.

(** In the training tutorials an ImportError of [import dgl] itself is
    caught in the same way. *)
Lemma training_guard_without_dgl (k : kernel) (e : exn) :
  fails (trace k) (EvImport "dgl") = Some e ->
  isinstance_ImportError e = true ->
  reports_missing k (training_guard fails k) e.
Proof.
  intros Hf Hcls. unfold training_guard.
  erewrite import_guard_caught; [| |exact Hcls].
  2:{ cbv [bind]. now rewrite (import_raises _ k e Hf). }
  observe.
Qed.

(** An exception that is not an ImportError is not caught. *)
Lemma walkthrough_guard_other_exception (k : kernel) (e : exn) :
  fails (trace k) (EvImport "dgl.graphbolt") = Some e ->
  isinstance_ImportError e = false ->
  walkthrough_guard fails k =
    (Kernel (globals k) (trace k ++ [EvRaise e]), Raise e).
Proof.
  intros Hf Hcls. unfold walkthrough_guard.
  now rewrite (import_guard_propagates _ k _ e (import_as_raises _ _ k e Hf) Hcls).
Qed.

End Imports.

Lemma import_guard_best_effort_witness :
  reports_missing fresh_kernel (walkthrough_guard no_dgl fresh_kernel)
    (Exn ModuleNotFoundError "No module named 'dgl'") /\
  reports_installed fresh_kernel (walkthrough_guard calm fresh_kernel) /\
  reports_missing fresh_kernel (training_guard no_graphbolt fresh_kernel)
    (Exn ModuleNotFoundError "No module named 'dgl.graphbolt'") /\
  reports_installed fresh_kernel (training_guard calm fresh_kernel).
Proof.
  destruct (import_guard_best_effort no_dgl fresh_kernel) as (Hmissing & _).
  destruct (import_guard_best_effort calm fresh_kernel)
    as (_ & Hfound & Htraining).
  destruct (import_guard_best_effort no_graphbolt fresh_kernel)
    as (_ & _ & Holder).
  split; [|split; [|split]].
  - apply Hmissing; reflexivity.
  - apply Hfound; reflexivity.
  - apply Holder; reflexivity.
  - apply Htraining; reflexivity.
Defined.

(** ** A program logic for cells *)

Section Logic.

Variable fails : list event -> event -> option exn.
Variable len : sym -> nat.
Variable event_ok : event -> bool.
Variable exc : string -> sym -> Prop.
Hypothesis raise_ok : forall e, event_ok (EvRaise e) = true.

Local Abbreviation triple := (triple event_ok exc).

Lemma inv_emit (G : string -> sym -> Prop) (k : kernel) (e : event) :
  inv event_ok G k -> event_ok e = true ->
  inv event_ok G (Kernel (globals k) (trace k ++ [e])).
Proof.
  intros [Htr Hg] He. split; [|exact Hg]. cbn [trace].
  rewrite forallb_app, Htr. cbn. now rewrite He.
Qed.

Lemma inv_weaken (G G' : string -> sym -> Prop) (k : kernel) :
  inv event_ok G k -> (forall x v, G x v -> G' x v) -> inv event_ok G' k.
Proof. intros [Htr Hg] Hsub. split; [exact Htr|]. eauto. Qed.

Lemma inv_set (G G' : string -> sym -> Prop) (k : kernel) (x : string)
    (v : sym) :
  inv event_ok G k -> G' x v -> (forall y w, y <> x -> G y w -> G' y w) ->
  inv event_ok G' (Kernel (<[x := v]> (globals k)) (trace k)).
Proof.
  intros [Htr Hg] Hv Hrest. split; [exact Htr|]. intros y w. cbn [globals].
  destruct (decide (y = x)) as [->|Hne].
  - rewrite lookup_insert_eq. now intros [= <-].
  - rewrite lookup_insert_ne by congruence. eauto.
Qed.

Lemma t_ret {A} (G : string -> sym -> Prop) (R : A -> Prop) (a : A) :
  R a -> triple G (ret a) R G.
Proof. intros Ha k Hk. now split. Qed.

Lemma t_ret_eq {A} (G : string -> sym -> Prop) (a : A) :
  triple G (ret a) (fun b => b = a) G.
Proof. now apply t_ret. Qed.

Lemma t_bind {A B} (G G1 G2 : string -> sym -> Prop) (c : M A)
    (f : A -> M B) (R1 : A -> Prop) (R2 : B -> Prop) :
  triple G c R1 G1 ->
  (forall a, R1 a -> triple G1 (f a) R2 G2) ->
  triple G (bind c f) R2 G2.
Proof.
  intros Hc Hf k Hk. unfold bind. specialize (Hc k Hk).
  destruct (c k) as [k' [a|e]]; [|exact Hc].
  destruct Hc as [Ha Hk']. exact (Hf a Ha k' Hk').
Qed.

Lemma t_post {A} (G G1 G' : string -> sym -> Prop) (c : M A)
    (R1 R : A -> Prop) :
  triple G c R1 G1 ->
  (forall a, R1 a -> R a) -> (forall x v, G1 x v -> G' x v) ->
  triple G c R G'.
Proof.
  intros Hc HR HG k Hk. specialize (Hc k Hk).
  destruct (c k) as [k' [a|e]]; [|exact Hc].
  destruct Hc as [Ha Hk']. split; [auto|]. eapply inv_weaken; eauto.
Qed.

Lemma t_emit (G : string -> sym -> Prop) (e : event) :
  event_ok e = true -> triple G (emit e) (fun _ => True) G.
Proof. intros He k Hk. split; [exact I|]. now apply inv_emit. Qed.

Lemma t_print (G : string -> sym -> Prop) (args : list sym) :
  event_ok (EvPrint args) = true -> triple G (print args) (fun _ => True) G.
Proof. apply t_emit. Qed.

Lemma t_throw {A} (G G' : string -> sym -> Prop) (R : A -> Prop) (e : exn) :
  (forall x v, G x v -> exc x v) -> triple G (throw e) R G'.
Proof.
  intros Hsub k Hk. cbn. apply inv_emit; [|apply raise_ok].
  eapply inv_weaken; eauto.
Qed.

Lemma t_lift {A} (G : string -> sym -> Prop) (r : result A) :
  (forall x v, G x v -> exc x v) ->
  triple G (lift r) (fun a => r = Ok a) G.
Proof.
  intros Hsub. destruct r as [a|e]; [now apply t_ret|now apply t_throw].
Qed.

Lemma t_get (G : string -> sym -> Prop) (x : string) :
  (forall y v, G y v -> exc y v) -> triple G (get x) (G x) G.
Proof.
  intros Hsub k Hk. unfold get.
  destruct (globals k !! x) as [v|] eqn:Hx.
  - split; [|exact Hk]. destruct Hk as [_ Hg]. eauto.
  - now apply (t_throw G G).
Qed.

Lemma t_set (G G' : string -> sym -> Prop) (x : string) (v : sym) :
  G' x v -> (forall y w, y <> x -> G y w -> G' y w) ->
  triple G (set x v) (fun _ => True) G'.
Proof. intros Hv Hrest k Hk. split; [exact I|]. eapply inv_set; eauto. Qed.

Lemma t_set_same (G : string -> sym -> Prop) (x : string) (v : sym) :
  G x v -> triple G (set x v) (fun _ => True) G.
Proof. intros Hv. apply t_set; auto. Qed.

Lemma t_ext (G : string -> sym -> Prop) (e : event) :
  event_ok e = true -> (forall x v, G x v -> exc x v) ->
  triple G (ext fails e) (fun _ => True) G.
Proof.
  intros He Hsub k Hk. unfold ext.
  destruct (fails (trace k) e) as [x|].
  - now apply (t_throw G G).
  - now apply t_emit.
Qed.

Lemma t_meth (G : string -> sym -> Prop) (o : sym) (m : string)
    (args : list sym) :
  event_ok (EvCall o m args) = true -> (forall x v, G x v -> exc x v) ->
  triple G (meth fails o m args) (fun a => a = SMeth o m args) G.
Proof.
  intros He Hsub. unfold meth. eapply t_bind; [now apply t_ext|].
  intros _ _. now apply t_ret.
Qed.

Lemma t_call (G : string -> sym -> Prop) (f : sym) (args : list sym) :
  event_ok (EvCall f "__call__" args) = true ->
  (forall x v, G x v -> exc x v) ->
  triple G (call fails f args) (fun a => a = SMeth f "__call__" args) G.
Proof. apply t_meth. Qed.

Lemma t_builtin (G : string -> sym -> Prop) (f : string) (args : list sym) :
  event_ok (EvCall (SModule "builtins") f args) = true ->
  (forall x v, G x v -> exc x v) ->
  triple G (builtin fails f args) (fun a => a = SApp f args) G.
Proof.
  intros He Hsub. unfold builtin. eapply t_bind; [now apply t_ext|].
  intros _ _. now apply t_ret.
Qed.

Lemma t_next_iter (G : string -> sym -> Prop) (it : sym) :
  event_ok (EvIter it) = true -> event_ok (EvNext it 0) = true ->
  (forall x v, G x v -> exc x v) ->
  triple G (next_iter fails it) (fun a => a = SNth it 0) G.
Proof.
  intros Hi Hn Hsub. unfold next_iter.
  eapply t_bind; [now apply t_ext|]. intros _ _.
  eapply t_bind; [now apply t_ext|]. intros _ _. now apply t_ret.
Qed.

Lemma t_for_items (G : string -> sym -> Prop) (it : sym)
    (body : sym -> M unit) (n : nat) :
  (forall i, event_ok (EvNext it i) = true) ->
  (forall x v, G x v -> exc x v) ->
  (forall i, triple G (body (SNth it i)) (fun _ => True) G) ->
  forall i, triple G (for_items fails it i n body) (fun _ => True) G.
Proof.
  intros Hn Hsub Hbody. induction n as [|n IH]; intros i.
  - now apply t_ret.
  - cbn [for_items]. eapply t_bind; [now apply t_ext|]. intros _ _.
    eapply t_bind; [apply Hbody|]. intros _ _. apply IH.
Qed.

Lemma t_for_in (G : string -> sym -> Prop) (it : sym) (body : sym -> M unit) :
  event_ok (EvIter it) = true ->
  (forall i, event_ok (EvNext it i) = true) ->
  (forall x v, G x v -> exc x v) ->
  (forall i, triple G (body (SNth it i)) (fun _ => True) G) ->
  triple G (for_in fails len it body) (fun _ => True) G.
Proof.
  intros Hi Hn Hsub Hbody. unfold for_in.
  eapply t_bind; [now apply t_ext|]. intros _ _. now apply t_for_items.
Qed.

Lemma t_for_range (G : string -> sym -> Prop) (body : Z -> M ctl) (n : nat) :
  (forall i, triple G (body i) (fun _ => True) G) ->
  forall i, triple G (for_range i n body) (fun _ => True) G.
Proof.
  intros Hbody. induction n as [|n IH]; intros i.
  - now apply t_ret.
  - cbn [for_range]. eapply t_bind; [apply Hbody|]. intros [|] _.
    + apply IH.
    + now apply t_ret.
Qed.

Lemma t_with_ctx {A} (G G' : string -> sym -> Prop) (ctx : sym)
    (body : sym -> M A) (R : A -> Prop) :
  event_ok (EvCall ctx "__enter__" []) = true ->
  event_ok (EvCall ctx "__exit__" []) = true ->
  (forall x v, G x v -> exc x v) -> (forall x v, G' x v -> exc x v) ->
  triple G (body ctx) R G' ->
  triple G (with_ctx fails ctx body) R G'.
Proof.
  intros Hin Hout Hsub Hsub' Hbody. unfold with_ctx.
  eapply t_bind; [now apply t_ext|]. intros _ _ k Hk.
  specialize (Hbody k Hk). destruct (body ctx k) as [k' [a|e]].
  - destruct Hbody as [Ha Hk'].
    pose proof (t_ext G' _ Hout Hsub' k' Hk') as Hexit.
    unfold bind. destruct (ext fails _ k') as [k'' [[]|x]]; [|exact Hexit].
    cbn. split; [exact Ha|apply Hexit].
  - pose proof (t_ext exc _ Hout (fun _ _ H => H) k' Hbody) as Hexit.
    destruct (ext fails _ k') as [k'' [[]|x]]; [apply Hexit|exact Hexit].
Qed.

Lemma t_try_except {A} (G G' : string -> sym -> Prop) (body : M A)
    (catches : exn -> bool) (handler : exn -> M A) (R : A -> Prop) :
  triple G body R G' ->
  (forall e, catches e = true -> triple exc (handler e) R G') ->
  triple G (try_except body catches handler) R G'.
Proof.
  intros Hbody Hhandler k Hk. unfold try_except. specialize (Hbody k Hk).
  destruct (body k) as [k' [a|e]]; [exact Hbody|].
  destruct (catches e) eqn:Hc; [|exact Hbody].
  exact (Hhandler e Hc k' Hbody).
Qed.

Lemma inv_delete (G : string -> sym -> Prop) (k : kernel) (x : string) :
  inv event_ok G k -> inv event_ok G (Kernel (delete x (globals k)) (trace k)).
Proof.
  intros [Htr Hg]. split; [exact Htr|]. intros y w. cbn [globals].
  rewrite lookup_delete_Some. intros [_ Hy]. eauto.
Qed.

Lemma t_except_as {A} (G G' : string -> sym -> Prop) (name : string)
    (handler : M A) (e : exn) (R : A -> Prop) :
  G name (SExn e) -> triple G handler R G' ->
  triple G (except_as name handler e) R G'.
Proof.
  intros Hname Hhandler k Hk. unfold except_as.
  assert (Hbound : inv event_ok G
                     (Kernel (<[name := SExn e]> (globals k)) (trace k)))
    by (eapply inv_set; eauto).
  specialize (Hhandler _ Hbound).
  destruct (handler _) as [k' [a|x]].
  - destruct Hhandler as [Ha Hk']. split; [exact Ha|]. now apply inv_delete.
  - now apply inv_delete.
Qed.

Lemma t_import (G : string -> sym -> Prop) (m : string) :
  event_ok (EvImport m) = true -> (forall x v, G x v -> exc x v) ->
  G (top_package m) (SModule (top_package m)) ->
  triple G (import fails m) (fun _ => True) G.
Proof.
  intros He Hsub Hv. unfold import. eapply t_bind; [now apply t_ext|].
  intros _ _. now apply t_set_same.
Qed.

Lemma t_import_as (G : string -> sym -> Prop) (m alias : string) :
  event_ok (EvImport m) = true -> (forall x v, G x v -> exc x v) ->
  G alias (SModule m) ->
  triple G (import_as fails m alias) (fun _ => True) G.
Proof.
  intros He Hsub Hv. unfold import_as. eapply t_bind; [now apply t_ext|].
  intros _ _. now apply t_set_same.
Qed.

Lemma t_import_from (G : string -> sym -> Prop) (m name : string) :
  event_ok (EvImport m) = true -> (forall x v, G x v -> exc x v) ->
  G name (SAttr (SModule m) name) ->
  triple G (import_from fails m name) (fun _ => True) G.
Proof.
  intros He Hsub Hv. unfold import_from. eapply t_bind; [now apply t_ext|].
  intros _ _. now apply t_set_same.
Qed.

Lemma t_append_to (G : string -> sym -> Prop) (name : string) (v : sym) :
  (forall x w, G x w -> exc x w) ->
  (forall l, G name l ->
     event_ok (EvAppend l v) = true /\ G name (appended l v)) ->
  triple G (append_to name v) (fun _ => True) G.
Proof.
  intros Hsub Hl. unfold append_to. eapply t_bind; [now apply t_get|].
  intros l Hgl. destruct (Hl l Hgl) as [He Hv].
  eapply t_bind; [now apply t_emit|]. intros _ _. now apply t_set_same.
Qed.

End Logic.

(** A weaker promise about the kernel an exception leaves. *)
Lemma t_exc {A} (event_ok : event -> bool)
    (exc exc' G G' : string -> sym -> Prop) (c : M A) (R : A -> Prop) :
  triple event_ok exc G c R G' ->
  (forall x v, exc x v -> exc' x v) ->
  triple event_ok exc' G c R G'.
Proof.
  intros Hc Hsub k Hk. specialize (Hc k Hk).
  destruct (c k) as [k' [a|e]]; [exact Hc|]. eapply inv_weaken; eauto.
Qed.

(** Running cells keeps an invariant every cell keeps. *)
Lemma session_inv (event_ok : event -> bool) (G : string -> sym -> Prop)
    (nb : notebook) :
  (forall c, c ∈ cells nb ->
     triple event_ok G G (run_cell c) (fun _ => True) G) ->
  forall order k, inv event_ok G k -> inv event_ok G (session nb order k).
Proof.
  intros Hcells order. unfold session.
  induction order as [|i order IH]; intros k Hk; [exact Hk|].
  cbn [fold_left]. apply IH. unfold execute.
  destruct (cells nb !! i) as [c|] eqn:Hi; [|exact Hk].
  assert (Hc : c ∈ cells nb) by (eapply list_elem_of_lookup_2; eauto).
  specialize (Hcells c Hc k Hk).
  destruct (run_cell c k) as [k' [[]|e]]; [apply Hcells|exact Hcells].
Qed.

Lemma run_cells_triple (event_ok : event -> bool) (G : string -> sym -> Prop)
    (cs : list cell) :
  (forall c, c ∈ cs -> triple event_ok G G (run_cell c) (fun _ => True) G) ->
  triple event_ok G G (run_cells cs) (fun _ => True) G.
Proof.
  induction cs as [|c cs IH]; intros Hcells.
  - intros k Hk. now split.
  - cbn [run_cells]. eapply t_bind.
    + apply Hcells. left.
    + intros _ _. apply IH. intros c' Hc'. apply Hcells. now right.
Qed.

Lemma run_all_inv (event_ok : event -> bool) (G : string -> sym -> Prop)
    (nb : notebook) :
  (forall c, c ∈ cells nb ->
     triple event_ok G G (run_cell c) (fun _ => True) G) ->
  forall k, inv event_ok G k -> inv event_ok G (fst (run_all nb k)).
Proof.
  intros Hcells k Hk. pose proof (run_cells_triple _ _ _ Hcells k Hk) as H.
  unfold run_all. destruct (run_cells (cells nb) k) as [k' [[]|e]];
    [apply H|exact H].
Qed.

Lemma inv_fresh (event_ok : event -> bool) (G : string -> sym -> Prop) :
  inv event_ok G fresh_kernel.
Proof. split; [reflexivity|]. intros x v. cbn. now rewrite lookup_empty. Qed.

(** ** Automation: one rule per construct of a cell *)

Ltac head_of t :=
  lazymatch t with
  | ?f _ => head_of f
  | _ => t
  end.

Ltac same_globals := let H := fresh in intros ? ? H; exact H.

Ltac side_condition :=
  first
    [ exact I
    | reflexivity
    | assumption
    | same_globals
    | solve [intros; assumption]
    | solve [intros; exact I]
    | solve [intros; cbn; auto] ].

Ltac primitive :=
  lazymatch goal with
  | |- triple _ _ _ (get _) _ _ => apply t_get
  | |- triple _ _ _ (set _ _) _ _ => apply t_set_same
  | |- triple _ _ _ (print _) _ _ => apply t_print
  | |- triple _ _ _ (emit _) _ _ => apply t_emit
  | |- triple _ _ _ (lift _) _ _ => apply t_lift
  | |- triple _ _ _ (ext _ _) _ _ => apply t_ext
  | |- triple _ _ _ (setitem _ _ _ _) _ _ => apply t_ext
  | |- triple _ _ _ (setattr _ _ _ _) _ _ => apply t_ext
  | |- triple _ _ _ (shell _ _) _ _ => apply t_ext
  | |- triple _ _ _ (meth _ _ _ _) _ _ => apply t_meth
  | |- triple _ _ _ (call _ _ _) _ _ => apply t_call
  | |- triple _ _ _ (builtin _ _ _) _ _ => apply t_builtin
  | |- triple _ _ _ (next_iter _ _) _ _ => apply t_next_iter
  | |- triple _ _ _ (import _ _) _ _ => apply t_import
  | |- triple _ _ _ (import_as _ _ _) _ _ => apply t_import_as
  | |- triple _ _ _ (import_from _ _ _) _ _ => apply t_import_from
  | |- triple _ _ _ (append_to _ _) _ _ => apply t_append_to
  end.

(** [known] proves the triples of the programs a section has lemmas for,
    [use] puts what is known of a result to use, [side] proves the side
    conditions that come from the invariant at hand. *)
Ltac cell_with known use side :=
  cbv beta;
  lazymatch goal with
  | |- triple _ _ _ (bind _ _) _ _ =>
      eapply t_bind;
      [ cell_with known use side
      | let a := fresh "a" in
        let Ha := fresh "Ha" in
        intros a Ha; cbv beta in Ha; use Ha; try subst a;
        cell_with known use side ]
  | |- triple _ _ _ (for_in _ _ _ _) _ _ =>
      apply t_for_in; try intros ?; cell_with known use side
  | |- triple _ _ _ (for_range _ _ _) _ _ =>
      apply t_for_range; intros ?; cell_with known use side
  | |- triple _ _ _ (with_ctx _ _ _) _ _ =>
      apply t_with_ctx; cell_with known use side
  | |- triple _ _ _ (try_except _ _ _) _ _ =>
      apply t_try_except;
      [cell_with known use side | intros ? ?; cell_with known use side]
  | |- triple _ _ _ (except_as _ _ _) _ _ =>
      apply t_except_as;
      [first [side_condition | side] | cell_with known use side]
  | |- triple _ _ _ (match ?r with Ok _ => _ | Raise _ => _ end) _ _ =>
      destruct r; cell_with known use side
  | |- triple _ _ _ (if ?b then _ else _) _ _ =>
      destruct b; cell_with known use side
  | |- triple _ _ _ (ret _) _ _ =>
      first [ apply t_ret_eq
            | apply t_ret; first [side_condition | side]
            | eapply t_post; [apply t_ret_eq | intros; exact I | same_globals]
            | eapply t_post; [apply t_ret_eq | intros; exact I | side] ]
  | |- triple _ _ _ ?c _ _ =>
      first
        [ known
        | eapply t_post; [known | intros; exact I | same_globals]
        | primitive; try first [side_condition | side]
        | eapply t_post;
          [ primitive; try first [side_condition | side]
          | intros; exact I
          | first [same_globals | side] ]
        | let h := head_of c in unfold h; cell_with known use side ]
  | |- _ => try first [side_condition | side]
  end.

Ltac nothing_known := fail.
Ltac no_use H := idtac.

Ltac cell := cell_with nothing_known no_use fail; try side_condition.

Ltac each_cell :=
  repeat first [apply Forall_nil_2 | apply Forall_cons_2];
  repeat lazymatch goal with
         | |- context [run_cell (code ?id ?src)] =>
             change (run_cell (code id src)) with src
         | |- context [run_cell (markdown ?id)] =>
             change (run_cell (markdown id)) with (@ret unit tt)
         end.

(** Every session and every "run all" of a notebook, from a fresh kernel,
    keeps an invariant its cells keep. *)
Lemma notebook_inv (event_ok : event -> bool) (G : string -> sym -> Prop)
    (nb : notebook) :
  Forall (fun c => triple event_ok G G (run_cell c) (fun _ => True) G)
         (cells nb) ->
  (forall order, forallb event_ok (trace (session nb order fresh_kernel)) = true)
  /\ forallb event_ok (trace (fst (run_all nb fresh_kernel))) = true.
Proof.
  intros Hcells. rewrite Forall_forall in Hcells. split.
  - intros order. apply (session_inv _ _ _ Hcells), inv_fresh.
  - apply (run_all_inv _ _ _ Hcells), inv_fresh.
Qed.

(** ** No concurrency of the notebooks' own *)

Ltac use_callable H :=
  cbv [callables_by_name] in H; cbn in H;
  lazymatch type of H with
  | _ /\ _ => destruct H as [? ?]
  | _ => idtac
  end.

Ltac side_callable :=
  first
    [ solve [vm_compute; reflexivity]
    | solve [vm_compute; split; reflexivity]
    | solve [ cbn;
              repeat match goal with
                     | H : callable _ = true |- _ => rewrite H
                     end;
              reflexivity ]
    | solve [ cbv [callables_by_name]; cbn;
              repeat match goal with
                     | H : callable _ = true |- _ => rewrite H
                     end;
              try split; first [reflexivity | exact I] ] ].

Section Delegation.

Variable fails : list event -> event -> option exn.
Variable len : sym -> nat.
Variable pairs_of : sym -> node_pairs_of_minibatch.

Local Abbreviation keeps p c :=
  (triple delegates (callables_by_name p) (callables_by_name p) c
     (fun _ => True) (callables_by_name p)).

Lemma SAGE_init_callable (in_size hidden_size : sym) :
  triple delegates (callables_by_name true) (callables_by_name true)
    (SAGE_init fails in_size hidden_size)
    (fun v => callable v = true /\ callable (attr v "predictor") = true)
    (callables_by_name true).
Proof. cell_with nothing_known use_callable side_callable. Qed.

Lemma Model_init_callable (in_feats h_feats num_classes : sym) :
  triple delegates (callables_by_name false) (callables_by_name false)
    (Model_init fails in_feats h_feats num_classes)
    (fun v => callable v = true)
    (callables_by_name false).
Proof. cell_with nothing_known use_callable side_callable. Qed.

Ltac known_callable :=
  first [apply SAGE_init_callable | apply Model_init_callable].

Ltac cell_callable :=
  cell_with ltac:(idtac; known_callable) use_callable side_callable.

Lemma walkthrough_delegates :
  Forall (fun c => keeps false (run_cell c)) (cells (walkthrough fails)).
Proof. each_cell. all: cell_callable. Qed.

Lemma link_prediction_delegates :
  Forall (fun c => keeps true (run_cell c))
         (cells (link_prediction fails len pairs_of)).
Proof. each_cell. all: cell_callable. Qed.

Lemma node_classification_delegates :
  Forall (fun c => keeps false (run_cell c))
         (cells (node_classification fails len)).
Proof. each_cell. all: cell_callable. Qed.


End Delegation.

(** What does not pass for delegating: a process or a thread of the
    notebook's own ([os.fork], [torch.multiprocessing.spawn],
    [threading.Thread]), a lock, a loader with workers, another shell
    line, the import of a module for any of these. *)
Lemma delegates_rejects (f : sym) (args : list sym) :
  delegates (EvCall (SModule "os") "fork" []) = false
  /\ delegates (EvCall (SAttr (SModule "torch") "multiprocessing") "spawn"
                  (f :: args)) = false
  /\ delegates (EvCall (SModule "threading") "Thread" args) = false
  /\ delegates (EvCall (SModule "threading") "Lock" []) = false
  /\ delegates (EvCall (SAttr (SModule "os") "fork") "__call__" []) = false
  /\ delegates (EvImport "multiprocessing") = false
  /\ delegates (EvImport "threading") = false
  /\ delegates (EvImport "torch.multiprocessing") = false
  /\ delegates (EvShell "python train.py &") = false
  /\ delegates
       (EvCall (SModule "dgl.graphbolt") "MultiProcessDataLoader"
          [SKw "num_workers" (SInt 4)]) = false.
Proof. repeat split; vm_compute; reflexivity. Qed.

(** The four data loaders of the runs in which nothing raises. *)
Lemma loaders_of_calm_runs :
  loaders_made (trace (fst (run_all (walkthrough calm) fresh_kernel))) = []
  /\ loaders_made
       (trace (fst (run_all (link_prediction calm two_items sample_pairs)
                            fresh_kernel)))
     = [Some (SInt 0); Some (SInt 0)]
  /\ loaders_made
       (trace (fst (run_all (node_classification calm two_items)
                            fresh_kernel)))
     = [Some (SInt 0); Some (SInt 0)].
Proof. repeat split; vm_compute; reflexivity. Qed.

(** ** Shuffling follows the split *)

Ltac use_split H := cbn in H.

Ltac side_split :=
  solve
    [ cbn;
      repeat match goal with H : split_of _ = _ |- _ => rewrite H end;
      reflexivity ].

Ltac cell_split := cell_with nothing_known use_split side_split.

Section Shuffling.

Variable fails : list event -> event -> option exn.
Variable len : sym -> nat.
Variable pairs_of : sym -> node_pairs_of_minibatch.

Local Abbreviation keeps c :=
  (triple shuffle_matches_split split_by_name split_by_name c
     (fun _ => True) split_by_name).

Lemma link_prediction_shuffling :
  Forall (fun c => keeps (run_cell c))
         (cells (link_prediction fails len pairs_of)).
Proof. each_cell. all: cell_split. Qed.

Lemma node_classification_shuffling :
  Forall (fun c => keeps (run_cell c)) (cells (node_classification fails len)).
Proof. each_cell. all: cell_split. Qed.

(** C10: in every session and every "run all" of the two training
    tutorials, whatever raises, an ItemSampler over a training set is made
    with [shuffle=True] and one over a validation or test set with
    [shuffle=False]. *)
Theorem shuffle_follows_split :
  Forall
    (fun nb =>
       (forall order,
          forallb shuffle_matches_split
                  (trace (session nb order fresh_kernel)) = true)
       /\ forallb shuffle_matches_split
                  (trace (fst (run_all nb fresh_kernel))) = true)
    (tutorials fails len pairs_of).
Proof.
  repeat apply Forall_cons_2; [| |apply Forall_nil_2];
    apply (notebook_inv _ split_by_name).
  - apply link_prediction_shuffling.
  - apply node_classification_shuffling.
Qed.

End Shuffling.

(** The four samplers of the runs in which nothing raises. *)
Lemma samplers_of_calm_runs :
  samplers (trace (fst (run_all (link_prediction calm two_items sample_pairs)
                                fresh_kernel)))
    = [(training, Some (SBool true)); (evaluation, Some (SBool false))]
  /\ samplers (trace (fst (run_all (node_classification calm two_items)
                                   fresh_kernel)))
    = [(training, Some (SBool true)); (evaluation, Some (SBool false))].
Proof. split; vm_compute; reflexivity. Qed.

(** ** Pipelines of the training tutorials *)

Ltac use_loader H :=
  cbn in H;
  try (let Hc := fresh "Hcomplete" in destruct H as (? & ? & ? & -> & Hc)).

Ltac side_loader :=
  first
    [ solve [vm_compute; reflexivity]
    | solve [cbn;
             repeat match goal with H : complete _ = true |- _ => rewrite H end;
             reflexivity]
    | solve [cbn; unfold finished_loader; eauto 10] ].

Ltac cell_loader := cell_with nothing_known use_loader side_loader.

Section Pipelines.

Variable fails : list event -> event -> option exn.
Variable len : sym -> nat.
Variable pairs_of : sym -> node_pairs_of_minibatch.

Local Abbreviation keeps c :=
  (triple staged_then_loaded loaders_by_name loaders_by_name c
     (fun _ => True) loaders_by_name).

Lemma link_prediction_pipelines :
  Forall (fun c => keeps (run_cell c))
         (cells (link_prediction fails len pairs_of)).
Proof. each_cell. all: cell_loader. Qed.

Lemma node_classification_pipelines :
  Forall (fun c => keeps (run_cell c)) (cells (node_classification fails len)).
Proof. each_cell. all: cell_loader. Qed.

End Pipelines.

(** ** The pipeline of the walkthrough, cell after cell *)

Ltac use_pipe H :=
  cbv [datapipe_has pipe_so_far] in H; cbn in H;
  lazymatch type of H with
  | _ /\ _ =>
      let Hst := fresh "Hstages" in
      let Hit := fresh "Hiterated" in
      destruct H as [Hst Hit]
  | _ => idtac
  end.

Ltac side_pipe :=
  first
    [ solve [vm_compute; reflexivity]
    | solve [ cbv [staged_stepwise chained_in_order iterated_in_order
                   in_order];
              cbn;
              repeat match goal with
                     | H : pipeline_iterated _ = _ |- _ => rewrite H
                     | H : stages _ = _ |- _ => rewrite H
                     end;
              vm_compute; reflexivity ]
    | solve [ let y := fresh "y" in
              intros y ? ?; cbv [datapipe_has];
              destruct (String.eqb_spec y "datapipe"); [contradiction|auto] ]
    | solve [ cbv [datapipe_has pipe_so_far];
              cbn;
              repeat match goal with
                     | H : stages _ = _ |- _ => rewrite H
                     end;
              split; vm_compute; reflexivity ] ].

(** The cell chains stage [n]: [datapipe] is bound to a longer pipeline. *)
Ltac chains n :=
  lazymatch goal with
  | |- triple _ _ _ (set "datapipe" _) _ _ =>
      apply (t_set _ _ _ (datapipe_has n)); side_pipe
  end.

Ltac cell_pipe n := cell_with ltac:(idtac; chains n) use_pipe side_pipe.

Section Walkthrough.

Variable fails : list event -> event -> option exn.

Local Abbreviation keeps pre c post :=
  (triple staged_stepwise anything (datapipe_has pre) c (fun _ => True)
     (datapipe_has post)).

Lemma walkthrough_install_pipe (n : nat) :
  keeps n (walkthrough_install fails) n.
Proof.
  apply (t_exc _ (datapipe_has n)); [|intros; exact I]. cell_pipe n.
Qed.

Lemma walkthrough_item_set_pipe (n : nat) :
  keeps n (walkthrough_item_set fails) n.
Proof. cell_pipe n. Qed.

Lemma walkthrough_graph_pipe (n : nat) :
  keeps n (walkthrough_graph fails) n.
Proof. cell_pipe n. Qed.

Lemma walkthrough_feature_store_pipe (n : nat) :
  keeps n (walkthrough_feature_store fails) n.
Proof. cell_pipe n. Qed.

Lemma walkthrough_item_sampler_pipe (n : nat) :
  keeps n (walkthrough_item_sampler fails) 1.
Proof. cell_pipe 1%nat. Qed.

Lemma walkthrough_negative_sampler_pipe :
  keeps 1 (walkthrough_negative_sampler fails) 2.
Proof. cell_pipe 2%nat. Qed.

Lemma walkthrough_subgraph_sampler_pipe :
  keeps 2 (walkthrough_subgraph_sampler fails) 3.
Proof. cell_pipe 3%nat. Qed.

Lemma walkthrough_feature_fetcher_pipe :
  keeps 3 (walkthrough_feature_fetcher fails) 4.
Proof. cell_pipe 4%nat. Qed.

Lemma walkthrough_to_dgl_pipe :
  keeps 4 (walkthrough_to_dgl fails) 5.
Proof. cell_pipe 5%nat. Qed.

Lemma walkthrough_copy_to_pipe :
  keeps 5 (walkthrough_copy_to fails) 6.
Proof. cell_pipe 6%nat. Qed.

Lemma walkthrough_exercise_pipe :
  keeps 6 (walkthrough_exercise fails) 6.
Proof. cell_pipe 6%nat. Qed.

Lemma markdown_cell_pipe (n : nat) (id : string) :
  keeps n (run_cell (markdown id)) n.
Proof. now apply t_ret. Qed.

(** The whole notebook, top to bottom. *)
Lemma walkthrough_run_all_pipe :
  keeps 0 (run_all (walkthrough fails)) 6.
Proof.
  unfold run_all, walkthrough, cells, run_cells.
  repeat (eapply t_bind;
          [ first [ apply markdown_cell_pipe
                  | apply walkthrough_install_pipe
                  | apply walkthrough_item_set_pipe
                  | apply walkthrough_graph_pipe
                  | apply walkthrough_feature_store_pipe
                  | apply walkthrough_item_sampler_pipe
                  | apply walkthrough_negative_sampler_pipe
                  | apply walkthrough_subgraph_sampler_pipe
                  | apply walkthrough_feature_fetcher_pipe
                  | apply walkthrough_to_dgl_pipe
                  | apply walkthrough_copy_to_pipe
                  | apply walkthrough_exercise_pipe ]
          | intros _ _ ]).
  now apply t_ret.
Qed.

End Walkthrough.

(** What the training tutorials do is what the specification says. *)
Lemma staged_then_loaded_iterated (e : event) :
  staged_then_loaded e = true -> staged_then_iterated e = true.
Proof.
  unfold staged_then_loaded, staged_then_iterated.
  destruct e; try (intros H; exact H).
  intros H. apply andb_true_iff in H as [Hc Hl]. apply andb_true_iff.
  split; [exact Hc|]. cbn in Hl |- *. unfold pipeline_iterated.
  destruct (loader_datapipe (unwrap it)); [exact Hl|discriminate].
Qed.



(** The iterations of the runs in which nothing raises: the six growing
    pipelines of the walkthrough and the last one again, and the data
    loaders of the tutorials. *)
Lemma iterations_of_calm_runs :
  iterations (trace (fst (run_all (walkthrough calm) fresh_kernel)))
    = [(take 1 canonical, false); (take 2 canonical, false);
       (take 3 canonical, false); (take 4 canonical, false);
       (take 5 canonical, false); (canonical, false); (canonical, false)]
  /\ iterations
       (trace (fst (run_all (link_prediction calm two_items sample_pairs)
                            fresh_kernel)))
     = [(canonical, true); (canonical, true); (canonical, true);
        (canonical, true); (canonical_without_negatives, true)]
  /\ iterations
       (trace (fst (run_all (node_classification calm two_items)
                            fresh_kernel)))
     = [(canonical_without_negatives, true);
        (canonical_without_negatives, true);
        (canonical_without_negatives, true)].
Proof. repeat split; vm_compute; reflexivity. Qed.

(** ** The notebooks leave item sets, graphs, feature stores and
    minibatches alone *)

Lemma unprotected_appended (l v : sym) : unprotected (appended l v).
Proof. destruct l; split; reflexivity. Qed.

Lemma append_unprotected (name : string) (l v : sym) :
  existsb (String.eqb name) receivers = true ->
  unprotected_by_name name l ->
  leaves_alone (EvAppend l v) = true
  /\ unprotected_by_name name (appended l v).
Proof.
  unfold unprotected_by_name. intros ->. intros [Hp _]. split.
  - cbn [leaves_alone]. now rewrite Hp.
  - apply unprotected_appended.
Qed.

Lemma unprotected_weaken (skip : list string) (x : string) (v : sym) :
  unprotected_by_name x v -> unprotected_except skip x v.
Proof. unfold unprotected_except. now destruct (existsb _ skip). Qed.

Lemma unprotected_but_labels (x : string) (v : sym) :
  x <> "labels" -> unprotected_except ["labels"] x v ->
  unprotected_by_name x v.
Proof.
  intros Hne. unfold unprotected_except. cbn [existsb].
  destruct (String.eqb_spec x "labels") as [->|_]; [contradiction|].
  intros H. exact H.
Qed.

Ltac use_unprotected H :=
  cbv [unprotected_except unprotected_by_name unprotected] in H; cbn in H;
  lazymatch type of H with
  | _ /\ _ => destruct H as [? ?]
  | _ => idtac
  end.

Ltac side_unprotected :=
  first
    [ solve [vm_compute; reflexivity]
    | solve [vm_compute; split; reflexivity]
    | solve [ cbn;
              repeat match goal with
                     | H : within_protected _ = false |- _ => rewrite H
                     end;
              reflexivity ]
    | solve [ cbv [unprotected_except unprotected_by_name unprotected]; cbn;
              repeat match goal with
                     | H : within_protected _ = false |- _ => rewrite H
                     end;
              try split; reflexivity ]
    | solve [ cbn; match goal with
                   | |- context [within_protected ?v] =>
                       destruct (within_protected v)
                   end; reflexivity ]
    | solve [intros ?; apply append_unprotected; reflexivity]
    | solve [intros; apply unprotected_weaken; assumption] ].

Section LeftAlone.

Variable fails : list event -> event -> option exn.
Variable len : sym -> nat.
Variable pairs_of : sym -> node_pairs_of_minibatch.

Local Abbreviation keeps G c := (triple leaves_alone G G c (fun _ => True) G).

Lemma SAGE_init_unprotected (in_size hidden_size : sym) :
  triple leaves_alone unprotected_by_name unprotected_by_name
    (SAGE_init fails in_size hidden_size) unprotected unprotected_by_name.
Proof. cell_with nothing_known use_unprotected side_unprotected. Qed.

Lemma Model_init_unprotected (in_feats h_feats num_classes : sym) :
  triple leaves_alone (unprotected_except ["labels"])
    (unprotected_except ["labels"])
    (Model_init fails in_feats h_feats num_classes) unprotected
    (unprotected_except ["labels"]).
Proof. cell_with nothing_known use_unprotected side_unprotected. Qed.

Lemma Model_call_unprotected (G : string -> sym -> Prop) (self mfgs x : sym) :
  within_protected self = false ->
  (forall y w, G y w -> unprotected_except ["labels"] y w) ->
  triple leaves_alone (unprotected_except ["labels"]) G
    (Model_call fails len self mfgs x) unprotected G.
Proof.
  intros Hself Hsub. unfold Model_call.
  eapply t_bind;
    [ apply t_ext;
      [reflexivity|unfold leaves_alone; now rewrite Hself|exact Hsub] |].
  intros _ _.
  eapply t_bind; [apply t_get; [reflexivity|exact Hsub]|].
  intros F _. eapply t_post; [apply t_lift; [reflexivity|exact Hsub]| |same_globals].
  intros a. unfold Model_forward.
  destruct (index_list _ 0); [|discriminate].
  destruct (index_list _ 1); [|discriminate].
  intros [= <-]. split; reflexivity.
Qed.

Ltac known_unprotected :=
  first [ apply SAGE_init_unprotected
        | apply Model_init_unprotected
        | apply Model_call_unprotected;
          [ assumption
          | first [ same_globals
                  | intros; apply unprotected_weaken; assumption ] ]
        | lazymatch goal with
          | |- triple _ _ (unprotected_except ["labels"])
                      (set "labels" (SList [])) _ _ =>
              apply (t_set _ _ _ unprotected_by_name);
              [ split; reflexivity
              | intros ? ?; apply unprotected_but_labels ]
          end ].

Ltac cell_unprotected :=
  cell_with ltac:(idtac; known_unprotected) use_unprotected side_unprotected.

Lemma walkthrough_left_alone :
  Forall (fun c => keeps unprotected_by_name (run_cell c))
         (cells (walkthrough fails)).
Proof. each_cell. all: cell_unprotected. Qed.

Lemma link_prediction_left_alone :
  Forall (fun c => keeps unprotected_by_name (run_cell c))
         (cells (link_prediction fails len pairs_of)).
Proof. each_cell. all: cell_unprotected. Qed.

Lemma node_classification_left_alone :
  Forall (fun c => keeps (unprotected_except ["labels"]) (run_cell c))
         (cells (node_classification fails len)).
Proof. each_cell. all: cell_unprotected. Qed.

End LeftAlone.

(** *** Objects outlive the cell that made them *)

Ltac run_ok H :=
  repeat first
    [ rewrite lookup_insert_eq in H
    | rewrite lookup_insert_ne in H by discriminate
    | match goal with
      | Hx : ?g !! ?x = Some _ |- _ => rewrite Hx in H
      end
    | match type of H with
      | context [match ?g !! ?x with _ => _ end] =>
          let v := fresh "v" in
          let Hv := fresh "Hv" in
          destruct (g !! x) as [v|] eqn:Hv; [|discriminate]
      | context [match ?f ?tr ?e with Some _ => _ | None => _ end] =>
          destruct (f tr e); [discriminate|]
      end
    | progress cbv beta iota in H ].

(** A run that completed, step by step: every name read was bound and no
    call raised. *)
Ltac completed H :=
  cbv [bind ret get set emit throw print ext meth builtin next_iter
       print_first_minibatch peek_train_dataloader globals trace] in H;
  run_ok H; injection H as <-.

Ltac bound :=
  let k := fresh "k" in
  let k' := fresh "k'" in
  let H := fresh "Hrun" in
  intros k k' H; destruct k as [g tr]; completed H;
  eexists; cbn [globals]; split;
    [ rewrite ?lookup_insert_ne by discriminate; apply lookup_insert_eq
    | reflexivity ].

Ltac passed :=
  let k := fresh "k" in
  let k' := fresh "k'" in
  let v := fresh "v" in
  let Hv := fresh "Hv" in
  let H := fresh "Hrun" in
  intros k k' v Hv H; destruct k as [g tr]; cbn [globals] in Hv; completed H;
  eexists _, _, _; cbn [trace]; split;
    [ rewrite <- ?app_assoc; cbn [app]; reflexivity |];
  split;
    [ repeat first [apply list_elem_of_here | apply list_elem_of_further]
    | apply list_elem_of_here ].

Ltac loader_read :=
  let k := fresh "k" in
  let k' := fresh "k'" in
  let H := fresh "Hrun" in
  intros k k' H; destruct k as [g tr]; completed H;
  eexists _, _, _, _; cbn [globals trace];
  repeat split; try eassumption;
    [ rewrite <- ?app_assoc; cbn [app]; reflexivity | .. ];
  eexists _, _;
  repeat first [apply list_elem_of_here | apply list_elem_of_further].

Section HandedOver.

Variable fails : list event -> event -> option exn.

Lemma walkthrough_leaves_bound :
  leaves_bound "item_set" (walkthrough_item_set fails) /\
  leaves_bound "graph" (walkthrough_graph fails) /\
  leaves_bound "feature_store" (walkthrough_feature_store fails).
Proof.
  repeat split.
  - unfold walkthrough_item_set. bound.
  - unfold walkthrough_graph. bound.
  - unfold walkthrough_feature_store, build_feature_store. bound.
Qed.

Lemma walkthrough_passes_on :
  passes_on "item_set" (walkthrough_item_sampler fails) "ItemSampler" /\
  passes_on "graph" (walkthrough_negative_sampler fails)
    "sample_uniform_negative" /\
  passes_on "graph" (walkthrough_subgraph_sampler fails) "sample_neighbor" /\
  passes_on "feature_store" (walkthrough_feature_fetcher fails)
    "fetch_feature".
Proof.
  repeat split.
  - unfold walkthrough_item_sampler. passed.
  - unfold walkthrough_negative_sampler. passed.
  - unfold walkthrough_subgraph_sampler. passed.
  - unfold walkthrough_feature_fetcher. passed.
Qed.

Lemma link_train_dataloader_reads :
  loader_reads "train_set" (link_train_dataloader fails).
Proof. unfold link_train_dataloader. loader_read. Qed.

Lemma node_dataloader_reads (item_set_name : string) (shuffle : bool)
    (loader_name : string) :
  loader_reads item_set_name
    (node_dataloader fails item_set_name shuffle loader_name).
Proof. unfold node_dataloader. loader_read. Qed.

Lemma loader_passes_on (item_set_name : string) (c : M unit) :
  loader_reads item_set_name c ->
  passes_on item_set_name c "ItemSampler" /\
  passes_on "graph" c "sample_neighbor" /\
  passes_on "feature" c "fetch_feature".
Proof.
  intros Hreads. repeat split; intros k k' v Hv Hrun;
    destruct (Hreads k k' Hrun)
      as (item_set & graph & feature & es & Hset & Hgraph & Hfeature & Htr
          & (o1 & args1 & H1) & (o2 & args2 & H2) & (o3 & args3 & H3));
    exists es.
  - exists o1, (item_set :: args1). rewrite Hv in Hset. injection Hset as <-.
    repeat split; [exact Htr|exact H1|apply list_elem_of_here].
  - exists o2, (graph :: args2). rewrite Hv in Hgraph. injection Hgraph as <-.
    repeat split; [exact Htr|exact H2|apply list_elem_of_here].
  - exists o3, (feature :: args3). rewrite Hv in Hfeature.
    injection Hfeature as <-.
    repeat split; [exact Htr|exact H3|apply list_elem_of_here].
Qed.

Lemma link_tasks_leaves_bound :
  leaves_bound "train_set" link_tasks /\
  leaves_bound "graph" link_tasks /\
  leaves_bound "feature" link_tasks.
Proof. repeat split; unfold link_tasks; bound. Qed.

Lemma node_tasks_leaves_bound :
  leaves_bound "train_set" node_tasks /\
  leaves_bound "graph" node_tasks /\
  leaves_bound "feature" node_tasks.
Proof. repeat split; unfold node_tasks; bound. Qed.

Lemma peek_leaves_bound :
  leaves_bound "data" (link_peek fails) /\
  leaves_bound "data" (node_peek fails).
Proof. split; [unfold link_peek|unfold node_peek]; bound. Qed.

Lemma node_input_nodes_reads : reads_field "data" node_input_nodes "mfgs" "blocks".
Proof.
  intros k k' data Hdata Hrun. destruct k as [g tr]. cbn [globals] in Hdata.
  unfold node_input_nodes in Hrun. completed Hrun. cbn [globals].
  rewrite lookup_insert_ne by discriminate. apply lookup_insert_eq.
Qed.

End HandedOver.

Ltac hand_over Hbound Hpassed :=
  split; [lia|]; eexists _, _;
  split; [reflexivity|]; split; [reflexivity|];
  split; [exact Hbound|exact Hpassed].

(** The objects the kernels of the runs in which nothing raises still
    refer to when the last cell has run. *)
Lemma references_of_calm_runs :
  references (fst (run_all (walkthrough calm) fresh_kernel))
    ≡ₚ ["item_set"; "graph"; "node_feature"; "edge_feature"; "feature_store"]
  /\ references
       (fst (run_all (link_prediction calm two_items sample_pairs)
                     fresh_kernel))
     ≡ₚ ["graph"; "feature"; "train_set"; "test_set"; "data"]
  /\ references
       (fst (run_all (node_classification calm two_items) fresh_kernel))
     ≡ₚ ["graph"; "feature"; "train_set"; "valid_set"; "test_set"; "data"].
Proof.
  repeat split.
  - apply (Permutation_trans
             (l' := ["graph"; "edge_feature"; "item_set"; "node_feature";
                     "feature_store"])).
    + assert (H : references (fst (run_all (walkthrough calm) fresh_kernel))
                  = ["graph"; "edge_feature"; "item_set"; "node_feature";
                     "feature_store"]) by (vm_compute; reflexivity).
      now rewrite H.
    + solve_Permutation.
  - assert (H : references
                  (fst (run_all (link_prediction calm two_items sample_pairs)
                                fresh_kernel))
                = ["graph"; "feature"; "test_set"; "train_set"; "data"])
      by (vm_compute; reflexivity).
    rewrite H. solve_Permutation.
  - assert (H : references
                  (fst (run_all (node_classification calm two_items)
                                fresh_kernel))
                = ["graph"; "valid_set"; "feature"; "test_set"; "train_set";
                   "data"]) by (vm_compute; reflexivity).
    rewrite H. solve_Permutation.
Qed.


(** Writes to a minibatch's fields and calls that change one of these
    objects do not pass for leaving it alone. *)
Lemma leaves_alone_rejects (data : sym) (v : sym) :
  is_minibatch data = true ->
  leaves_alone
    (EvSetItem (SAttr data "node_features") (SStr "feat") v) = false
  /\ leaves_alone (EvSetAttr data "blocks" v) = false
  /\ leaves_alone (EvSetAttr data "labels" v) = false
  /\ leaves_alone (EvAppend (SAttr data "blocks") v) = false
  /\ leaves_alone (EvCall (SAttr data "labels") "zero_" []) = false.
Proof.
  intros Hdata.
  assert (Hp : protected data = true).
  { unfold protected. rewrite Hdata. now rewrite !orb_true_r. }
  assert (Hw : within_protected data = true)
    by (destruct data; cbn [within_protected]; now rewrite Hp).
  assert (Hf : forall a, within_protected (SAttr data a) = true).
  { intros a. cbn [within_protected]. rewrite Hw. apply orb_true_r. }
  repeat split; cbn [leaves_alone]; rewrite ?Hf, ?Hw; reflexivity.
Qed.


(** The in-place updates the notebooks do make, in the runs in which
    nothing raises, are on [os.environ], on lists and module lists of
    their own, and on the attributes of the models they define. *)
Lemma updates_of_calm_runs :
  updates (trace (fst (run_all (walkthrough calm) fresh_kernel))) = 2%nat
  /\ updates
       (trace (fst (run_all (link_prediction calm two_items sample_pairs)
                            fresh_kernel))) = 11%nat
  /\ updates
       (trace (fst (run_all (node_classification calm two_items)
                            fresh_kernel))) = 9%nat.
Proof. repeat split; vm_compute; reflexivity. Qed.

(** ** Error handling *)

Lemma raised_log (g g' : gmap string sym) (tr : list event) (e : event) :
  not_a_raise e -> raised (Kernel g' (tr ++ [e])) = raised (Kernel g tr).
Proof.
  intros He. unfold raised. cbn [trace]. rewrite omap_app.
  destruct e; try contradiction; cbn; apply app_nil_r.
Qed.

Section Transparent.

Variable fails : list event -> event -> option exn.
Variable len : sym -> nat.

Lemma tr_ret {A} (a : A) : transparent (ret a).
Proof. intros k k' b [= <- _]. reflexivity. Qed.

Lemma tr_bind {A B} (c : M A) (f : A -> M B) :
  transparent c -> (forall a, transparent (f a)) -> transparent (bind c f).
Proof.
  intros Hc Hf k k' b. unfold bind.
  destruct (c k) as [k1 [a|e]] eqn:Hck; [|discriminate].
  intros Hfa. rewrite (Hf a k1 k' b Hfa). eapply Hc; eauto.
Qed.

Lemma tr_throw {A} (e : exn) : transparent (@throw A e).
Proof. intros k k' a. discriminate. Qed.

Lemma tr_emit (e : event) : not_a_raise e -> transparent (emit e).
Proof.
  intros He k k' a [= <- _]. destruct k as [g tr]. now apply raised_log.
Qed.

Lemma tr_print (args : list sym) : transparent (print args).
Proof. now apply tr_emit. Qed.

Lemma tr_set (x : string) (v : sym) : transparent (set x v).
Proof. intros k k' a [= <- _]. reflexivity. Qed.

Lemma tr_get (x : string) : transparent (get x).
Proof.
  intros k k' a. unfold get. destruct (globals k !! x); [|discriminate].
  now intros [= <- _].
Qed.

Lemma tr_lift {A} (r : result A) : transparent (lift r).
Proof. destruct r; [apply tr_ret|apply tr_throw]. Qed.

Lemma tr_ext (e : event) : not_a_raise e -> transparent (ext fails e).
Proof.
  intros He k k' a. unfold ext.
  destruct (fails (trace k) e); [discriminate|]. now apply tr_emit.
Qed.

Lemma tr_for_items (it : sym) (body : sym -> M unit) (n : nat) :
  (forall x, transparent (body x)) ->
  forall i, transparent (for_items fails it i n body).
Proof.
  intros Hbody. induction n as [|n IH]; intros i; [apply tr_ret|].
  cbn [for_items]. apply tr_bind; [now apply tr_ext|]. intros _.
  apply tr_bind; [apply Hbody|]. intros _. apply IH.
Qed.

Lemma tr_for_in (it : sym) (body : sym -> M unit) :
  (forall x, transparent (body x)) -> transparent (for_in fails len it body).
Proof.
  intros Hbody. unfold for_in. apply tr_bind; [now apply tr_ext|].
  intros _. now apply tr_for_items.
Qed.

Lemma tr_for_range (body : Z -> M ctl) (n : nat) :
  (forall i, transparent (body i)) ->
  forall i, transparent (for_range i n body).
Proof.
  intros Hbody. induction n as [|n IH]; intros i; [apply tr_ret|].
  cbn [for_range]. apply tr_bind; [apply Hbody|].
  intros [|]; [apply IH|apply tr_ret].
Qed.

Lemma tr_with_ctx {A} (ctx : sym) (body : sym -> M A) :
  transparent (body ctx) -> transparent (with_ctx fails ctx body).
Proof.
  intros Hbody. unfold with_ctx. apply tr_bind; [now apply tr_ext|].
  intros _ k k' a.
  destruct (body ctx k) as [k1 [b|e]] eqn:Hb.
  - intros Hexit. rewrite <- (Hbody k k1 b Hb). revert Hexit.
    apply (tr_bind (ext fails _) (fun _ => ret b)); [now apply tr_ext|].
    intros _. apply tr_ret.
  - destruct (ext fails _ k1) as [k2 [[]|x]]; discriminate.
Qed.

Lemma tr_append_to (name : string) (v : sym) : transparent (append_to name v).
Proof.
  unfold append_to. apply tr_bind; [apply tr_get|]. intros l.
  apply tr_bind; [now apply tr_emit|]. intros _. apply tr_set.
Qed.

End Transparent.

Ltac transparency :=
  cbv beta;
  lazymatch goal with
  | |- transparent (bind _ _) => apply tr_bind; [|intros ?]; transparency
  | |- transparent (ret _) => apply tr_ret
  | |- transparent (get _) => apply tr_get
  | |- transparent (set _ _) => apply tr_set
  | |- transparent (print _) => apply tr_print
  | |- transparent (lift _) => apply tr_lift
  | |- transparent (append_to _ _) => apply tr_append_to
  | |- transparent (ext _ _) => apply tr_ext; exact I
  | |- transparent (for_in _ _ _ _) => apply tr_for_in; intros ?; transparency
  | |- transparent (for_range _ _ _) =>
      apply tr_for_range; intros ?; transparency
  | |- transparent (with_ctx _ _ _) => apply tr_with_ctx; transparency
  | |- transparent ?c => let h := head_of c in unfold h; transparency
  end.

(** *** The guard cells *)

Section Guards.

Variable fails : list event -> event -> option exn.

Lemma raised_throw (k : kernel) (e : exn) :
  raised (Kernel (globals k) (trace k ++ [EvRaise e])) = raised k ++ [e].
Proof. unfold raised. cbn [trace]. now rewrite omap_app. Qed.

Lemma rl_ext (e : event) : raises_logged (ext fails e).
Proof.
  intros k k' x. unfold ext. destruct (fails (trace k) e) as [y|].
  - intros [= <- <-]. apply raised_throw.
  - discriminate.
Qed.

Lemma rl_bind {A B} (c : M A) (f : A -> M B) :
  transparent c -> raises_logged c -> (forall a, raises_logged (f a)) ->
  raises_logged (bind c f).
Proof.
  intros Ht Hc Hf k k' e. unfold bind.
  destruct (c k) as [k1 [a|x]] eqn:Hck.
  - intros Hfa. rewrite (Hf a k1 k' e Hfa). f_equal. eapply Ht; eauto.
  - intros [= <- <-]. eapply Hc; eauto.
Qed.

Lemma rl_set (x : string) (v : sym) : raises_logged (set x v).
Proof. intros k k' e. discriminate. Qed.

Lemma rl_import_as (m alias : string) :
  raises_logged (import_as fails m alias).
Proof.
  apply rl_bind; [now apply tr_ext|apply rl_ext|intros _; apply rl_set].
Qed.

Lemma rl_import (m : string) : raises_logged (import fails m).
Proof.
  apply rl_bind; [now apply tr_ext|apply rl_ext|intros _; apply rl_set].
Qed.

(** A guard over imports catches one ImportError at most. *)
Lemma import_guard_catches_import_errors_only (guarded : M unit) :
  transparent guarded -> raises_logged guarded ->
  catches_import_errors_only (import_guard guarded).
Proof.
  intros Ht Hr k k' a Hrun.
  destruct (guarded k) as [k1 [[]|e]] eqn:Hg.
  - rewrite (import_guard_installed guarded k k1 Hg) in Hrun.
    injection Hrun as <- _. left.
    rewrite <- (Ht k k1 tt Hg). destruct k1 as [g tr]. now apply raised_log.
  - destruct (isinstance_ImportError e) eqn:Hcls.
    + rewrite (import_guard_caught guarded k k1 e Hg Hcls) in Hrun.
      injection Hrun as <- _. right. exists e. split; [exact Hcls|].
      rewrite <- (Hr k k1 e Hg). destruct k1 as [g tr]. cbn [globals trace].
      change [EvPrint [SExn e]; EvPrint [SStr "DGL not found!"]]
        with ([EvPrint [SExn e]] ++ [EvPrint [SStr "DGL not found!"]]).
      rewrite app_assoc.
      rewrite (raised_log g _ _ (EvPrint [SStr "DGL not found!"]) I).
      now apply raised_log.
    + rewrite (import_guard_propagates guarded k k1 e Hg Hcls) in Hrun.
      discriminate.
Qed.

Lemma cio_after_transparent {A B} (c : M A) (f : A -> M B) :
  transparent c -> (forall a, catches_import_errors_only (f a)) ->
  catches_import_errors_only (bind c f).
Proof.
  intros Ht Hf k k' b. unfold bind.
  destruct (c k) as [k1 [a|e]] eqn:Hck; [|discriminate].
  intros Hfa. rewrite <- (Ht k k1 a Hck). eapply Hf; eauto.
Qed.

Ltac before_guard :=
  repeat (apply cio_after_transparent; [transparency|intros ?]).

Lemma walkthrough_install_catches :
  catches_import_errors_only (walkthrough_install fails).
Proof.
  unfold walkthrough_install. before_guard.
  apply import_guard_catches_import_errors_only.
  - unfold import_as. transparency.
  - apply rl_import_as.
Qed.

Lemma training_install_catches :
  catches_import_errors_only (training_install fails).
Proof.
  unfold training_install. before_guard.
  apply import_guard_catches_import_errors_only.
  - transparency.
  - apply rl_bind; [transparency|apply rl_import|intros _; apply rl_import_as].
Qed.

Lemma rl_ret {A} (a : A) : raises_logged (ret a).
Proof. intros k k' e. discriminate. Qed.

Lemma rl_get (x : string) : raises_logged (get x).
Proof.
  intros k k' e. unfold get. destruct (globals k !! x); [discriminate|].
  intros [= <- <-]. apply raised_throw.
Qed.

(** An exception the guard ends with went through it untouched. *)
Lemma rl_import_guard (guarded : M unit) :
  raises_logged guarded -> raises_logged (import_guard guarded).
Proof.
  intros Hr k k' e Hrun. destruct (guarded k) as [k1 [[]|x]] eqn:Hg.
  - rewrite (import_guard_installed guarded k k1 Hg) in Hrun. discriminate.
  - destruct (isinstance_ImportError x) eqn:Hcls.
    + rewrite (import_guard_caught guarded k k1 x Hg Hcls) in Hrun.
      discriminate.
    + rewrite (import_guard_propagates guarded k k1 x Hg Hcls) in Hrun.
      injection Hrun as <- <-. exact (Hr k k1 x Hg).
Qed.

Ltac logged :=
  cbv beta;
  lazymatch goal with
  | |- raises_logged (bind _ _) =>
      apply rl_bind; [transparency | logged | intros ?; logged]
  | |- raises_logged (ret _) => apply rl_ret
  | |- raises_logged (get _) => apply rl_get
  | |- raises_logged (set _ _) => apply rl_set
  | |- raises_logged (ext _ _) => apply rl_ext
  | |- raises_logged (import_guard _) => apply rl_import_guard; logged
  | |- raises_logged ?c => let h := head_of c in unfold h; logged
  end.

Lemma walkthrough_install_logged : raises_logged (walkthrough_install fails).
Proof. logged. Qed.

Lemma training_install_logged : raises_logged (training_install fails).
Proof. logged. Qed.

End Guards.

Lemma swallows_computed {A} (c : M A) (k : kernel) (a : A) :
  snd (c k) = Ok a -> raised (fst (c k)) <> raised k -> swallows c k.
Proof.
  unfold swallows. destruct (c k) as [k' r]. cbn. intros -> Hne.
  now exists k', a.
Qed.

(** *** Cells with no error handling of their own *)

Section Propagates.

Variable fails : list event -> event -> option exn.
Variable len : sym -> nat.

Local Abbreviation propagates := (propagates fails).

Lemma pr_ret {A} (a : A) : propagates (ret a).
Proof. intros k k' r [= <- <-]. reflexivity. Qed.

Lemma pr_throw {A} (e : exn) : propagates (@throw A e).
Proof.
  intros k k' r [= <- <-]. exists e, []. split; [apply raised_throw|].
  split; [reflexivity|apply Forall_nil_2].
Qed.

Lemma pr_bind {A B} (c : M A) (f : A -> M B) :
  propagates c -> (forall a, propagates (f a)) -> propagates (bind c f).
Proof.
  intros Hc Hf k k' r. unfold bind.
  destruct (c k) as [k1 [a|e]] eqn:Hck; intros Hrun.
  - pose proof (Hc k k1 (Ok a) Hck) as Hsame. cbn in Hsame.
    pose proof (Hf a k1 k' r Hrun) as Hrest. rewrite Hsame in Hrest.
    exact Hrest.
  - injection Hrun as <- <-. exact (Hc k k1 (Raise e) Hck).
Qed.

Lemma pr_emit (e : event) : not_a_raise e -> propagates (emit e).
Proof.
  intros He k k' r [= <- <-]. destruct k as [g tr]. now apply raised_log.
Qed.

Lemma pr_print (args : list sym) : propagates (print args).
Proof. now apply pr_emit. Qed.

Lemma pr_set (x : string) (v : sym) : propagates (set x v).
Proof. intros k k' r [= <- <-]. reflexivity. Qed.

Lemma pr_get (x : string) : propagates (get x).
Proof.
  intros k. unfold get. destruct (globals k !! x); [apply pr_ret|apply pr_throw].
Qed.

Lemma pr_lift {A} (r : result A) : propagates (lift r).
Proof. destruct r; [apply pr_ret|apply pr_throw]. Qed.

Lemma pr_ext (e : event) : not_a_raise e -> propagates (ext fails e).
Proof.
  intros He k. unfold ext.
  destruct (fails (trace k) e); [apply pr_throw|now apply pr_emit].
Qed.

Lemma pr_for_items (it : sym) (body : sym -> M unit) (n : nat) :
  (forall x, propagates (body x)) ->
  forall i, propagates (for_items fails it i n body).
Proof.
  intros Hbody. induction n as [|n IH]; intros i; [apply pr_ret|].
  cbn [for_items]. apply pr_bind; [now apply pr_ext|]. intros _.
  apply pr_bind; [apply Hbody|]. intros _. apply IH.
Qed.

Lemma pr_for_in (it : sym) (body : sym -> M unit) :
  (forall x, propagates (body x)) -> propagates (for_in fails len it body).
Proof.
  intros Hbody. unfold for_in. apply pr_bind; [now apply pr_ext|].
  intros _. now apply pr_for_items.
Qed.

Lemma pr_for_range (body : Z -> M ctl) (n : nat) :
  (forall i, propagates (body i)) ->
  forall i, propagates (for_range i n body).
Proof.
  intros Hbody. induction n as [|n IH]; intros i; [apply pr_ret|].
  cbn [for_range]. apply pr_bind; [apply Hbody|].
  intros [|]; [apply IH|apply pr_ret].
Qed.

(** Leaving a [with] block: [__exit__] runs whether the body raised or
    not, and an exception of the body goes on unless [__exit__] raises
    one of its own. *)
Lemma pr_with_ctx {A} (ctx : sym) (body : sym -> M A) :
  propagates (body ctx) -> propagates (with_ctx fails ctx body).
Proof.
  intros Hbody. unfold with_ctx. apply pr_bind; [now apply pr_ext|].
  intros _ k k' r.
  destruct (body ctx k) as [k1 [a|e]] eqn:Hb.
  - pose proof (Hbody k k1 (Ok a) Hb) as Hsame. cbn in Hsame.
    intros Hexit. rewrite <- Hsame. revert Hexit.
    apply (pr_bind (ext fails _) (fun _ => ret a)); [now apply pr_ext|].
    intros _. apply pr_ret.
  - destruct (Hbody k k1 (Raise e) Hb) as (first & exits & Hlog & Hlast & Hex).
    unfold ext. destruct (fails (trace k1) (EvCall ctx "__exit__" []))
      as [x|] eqn:Hfails.
    + intros [= <- <-]. exists first, (exits ++ [x]). split; [|split].
      * cbv [throw]. rewrite raised_throw, Hlog, <- app_assoc. reflexivity.
      * change (first :: exits ++ [x]) with ((first :: exits) ++ [x]).
        apply last_snoc.
      * apply Forall_app. split; [exact Hex|].
        apply Forall_cons_2; [|apply Forall_nil_2]. now exists (trace k1), ctx.
    + intros [= <- <-]. exists first, exits. split; [|split; assumption].
      destruct k1 as [g tr]. cbn [globals trace].
      rewrite (raised_log g g tr (EvCall ctx "__exit__" []) I). exact Hlog.
Qed.

End Propagates.

Ltac propagation :=
  cbv beta;
  lazymatch goal with
  | |- propagates _ (bind _ _) =>
      apply pr_bind; [propagation | intros ?; propagation]
  | |- propagates _ (ret _) => apply pr_ret
  | |- propagates _ (get _) => apply pr_get
  | |- propagates _ (set _ _) => apply pr_set
  | |- propagates _ (print _) => apply pr_print
  | |- propagates _ (emit _) => apply pr_emit; exact I
  | |- propagates _ (lift _) => apply pr_lift
  | |- propagates _ (ext _ _) => apply pr_ext; exact I
  | |- propagates _ (for_in _ _ _ _) =>
      apply pr_for_in; intros ?; propagation
  | |- propagates _ (for_range _ _ _) =>
      apply pr_for_range; intros ?; propagation
  | |- propagates _ (with_ctx _ _ _) => apply pr_with_ctx; propagation
  | |- propagates _ ?c => let h := head_of c in unfold h; propagation
  end.

(** A handler that swallows an exception, or raises another in its
    place, does not pass for propagating. *)
Lemma propagates_rejects (e e' : exn) :
  ~ propagates calm
      (try_except (@throw unit e) (fun _ => true) (fun _ => ret tt))
  /\ ~ propagates calm
        (try_except (@throw unit e) (fun _ => true) (fun _ => throw e')).
Proof.
  split; intros H; specialize (H fresh_kernel _ _ eq_refl).
  - vm_compute in H. discriminate.
  - destruct H as (first & exits & Hlog & _ & Hex). vm_compute in Hlog.
    injection Hlog as <- <-.
    inversion Hex as [|x l (tr & ctx & Hf) _]. discriminate.
Qed.

(** When DGL is missing, the install cell of each of the three notebooks
    completes although an exception was raised: the repository has three
    cells that handle an error, one in each notebook, not one. *)
Lemma three_cells_handle_an_error :
  Forall2
    (fun nb i =>
       exists c, cells nb !! i = Some c /\ swallows (run_cell c) fresh_kernel)
    (repository no_dgl two_items sample_pairs) [1; 2; 2]%nat.
Proof.
  repeat apply List.Forall2_cons; [| | |apply List.Forall2_nil].
  all: eexists; (split; [reflexivity|]);
    apply (swallows_computed _ _ tt);
    [vm_compute; reflexivity|vm_compute; discriminate].
Qed.

(** Every cell of a notebook but cell [i]. *)
Ltac open_cell :=
  lazymatch goal with
  | |- propagates _ (run_cell (code ?id ?src)) =>
      change (run_cell (code id src)) with src
  | |- propagates _ (run_cell (markdown ?id)) =>
      change (run_cell (markdown id)) with (@ret unit tt)
  end.

Ltac each_other_cell j Hne Hcell :=
  cbn [cells] in Hcell;
  repeat lazymatch type of Hcell with
         | (?x :: ?l) !! _ = Some ?c =>
             destruct j as [|j];
             [ change (Some x = Some c) in Hcell; injection Hcell as <-;
               first [ now contradiction Hne | open_cell; propagation ]
             | change (l !! j = Some c) in Hcell ]
         end;
  destruct j; discriminate Hcell.

Section OneGuard.

Variable len : sym -> nat.
Variable pairs_of : sym -> node_pairs_of_minibatch.

Lemma walkthrough_one_guard : one_guard (fun fails => walkthrough fails).
Proof.
  exists 1%nat. split; [|split].
  - exists no_dgl, (code "fWiaC1WaDE-W" (walkthrough_install no_dgl)),
      fresh_kernel.
    split; [reflexivity|].
    apply (swallows_computed _ _ tt);
      [vm_compute; reflexivity | vm_compute; discriminate].
  - intros fails c [= <-].
    split; [apply walkthrough_install_catches|apply walkthrough_install_logged].
  - intros fails j c Hne Hcell. unfold walkthrough in Hcell.
    each_other_cell j Hne Hcell.
Qed.

Lemma link_prediction_one_guard :
  one_guard (fun fails => link_prediction fails len pairs_of).
Proof.
  exists 2%nat. split; [|split].
  - exists no_dgl, (code "QcpjTazg6hEo" (training_install no_dgl)),
      fresh_kernel.
    split; [reflexivity|].
    apply (swallows_computed _ _ tt);
      [vm_compute; reflexivity | vm_compute; discriminate].
  - intros fails c [= <-].
    split; [apply training_install_catches|apply training_install_logged].
  - intros fails j c Hne Hcell. unfold link_prediction in Hcell.
    each_other_cell j Hne Hcell.
Qed.

Lemma node_classification_one_guard :
  one_guard (fun fails => node_classification fails len).
Proof.
  exists 2%nat. split; [|split].
  - exists no_dgl, (code "QcpjTazg6hEo" (training_install no_dgl)),
      fresh_kernel.
    split; [reflexivity|].
    apply (swallows_computed _ _ tt);
      [vm_compute; reflexivity | vm_compute; discriminate].
  - intros fails c [= <-].
    split; [apply training_install_catches|apply training_install_logged].
  - intros fails j c Hne Hcell. unfold node_classification in Hcell.
    each_other_cell j Hne Hcell.
Qed.

End OneGuard.

(** C2, as the notebooks have it: each notebook has exactly one cell that
    handles an error, the cell that installs DGL.  That cell can complete
    after an exception was raised in it; what it catches is one
    ImportError at most, and an exception it ends with is the only one
    raised in it.  Every other cell of the notebook has no error handling
    of its own: if it completes nothing was raised while it ran, and if it
    ends with an exception nothing was caught, replaced or raised again by
    the cell. *)
Theorem one_import_guard_per_notebook :
  forall (len : sym -> nat) (pairs_of : sym -> node_pairs_of_minibatch),
    one_guard (fun fails => walkthrough fails) /\
    one_guard (fun fails => link_prediction fails len pairs_of) /\
    one_guard (fun fails => node_classification fails len).
Proof.
  intros len pairs_of. split; [|split].
  - apply walkthrough_one_guard.
  - apply link_prediction_one_guard.
  - apply node_classification_one_guard.
Qed.

(** * Further properties of the notebooks' code *)

(** ** The import guard: what it does not catch, and what follows *)

Section GuardEdges.

Variable fails : list event -> event -> option exn.

(** X1: the guard catches ImportError only.  An exception of any other
    class raised by one of the guarded imports leaves the guard as it was
    raised: [installed] is not assigned and nothing is printed (in the
    training tutorials, [dgl] stays bound when it was [import dgl.graphbolt]
    that raised). *)
Theorem guards_let_other_exceptions_through (k : kernel) (e : exn) :
  isinstance_ImportError e = false ->
  (fails (trace k) (EvImport "dgl.graphbolt") = Some e ->
   walkthrough_guard fails k =
     (Kernel (globals k) (trace k ++ [EvRaise e]), Raise e)) /\
  (fails (trace k) (EvImport "dgl") = Some e ->
   training_guard fails k =
     (Kernel (globals k) (trace k ++ [EvRaise e]), Raise e)) /\
  (fails (trace k) (EvImport "dgl") = None ->
   fails (trace k ++ [EvImport "dgl"]) (EvImport "dgl.graphbolt") = Some e ->
   training_guard fails k =
     (Kernel (<["dgl" := SModule "dgl"]> (globals k))
             (trace k ++ [EvImport "dgl"; EvRaise e]),
      Raise e)).
Proof.
  intros Hcls. repeat split.
  - intros Hf.
    cbv [walkthrough_guard import_guard try_except bind import_as ext throw].
    now rewrite Hf, Hcls.
  - intros Hf.
    cbv [training_guard import_guard try_except bind import ext throw].
    now rewrite Hf, Hcls.
  - intros Hdgl Hf. destruct k as [g tr]. cbn [trace globals] in *.
    cbv [training_guard import_guard try_except bind import import_as ext
         throw emit set globals trace].
    rewrite Hdgl, Hf, Hcls. rewrite <- app_assoc. reflexivity.
Qed.

(** X2: in the training tutorials an ImportError of [import dgl] ends the
    [try] body there: [import dgl.graphbolt] is not attempted, neither
    [dgl] nor [gb] is bound, and the guard reports DGL missing.  The
    kernel it leaves is the one it found with [installed] False and
    without [error], the name the handler had the exception under. *)
Theorem training_guard_stops_at_import_dgl (k : kernel) (e : exn) :
  fails (trace k) (EvImport "dgl") = Some e ->
  isinstance_ImportError e = true ->
  training_guard fails k =
    (Kernel (<["installed" := SBool false]> (delete "error" (globals k)))
            (trace k ++ [EvRaise e; EvPrint [SExn e];
                         EvPrint [SStr "DGL not found!"]]),
     Ok tt).
Proof.
  intros Hf Hcls. unfold training_guard.
  rewrite (import_guard_caught _ k
             (Kernel (globals k) (trace k ++ [EvRaise e])) e); [|..|exact Hcls].
  - cbn [globals trace]. now rewrite <- app_assoc.
  - cbv [bind]. now rewrite (import_raises _ _ k e Hf).
Qed.

(** X3: the error the guard swallowed comes back.  When the guard of a
    training tutorial has reported DGL missing in a kernel that did not
    have [gb], [gb] is still unbound, and the dataset cell, which comes
    next, raises NameError for [gb] before it calls anything. *)
Theorem missing_dgl_resurfaces_as_NameError (name : string) (k : kernel)
    (e : exn) :
  globals k !! "gb" = None ->
  isinstance_ImportError e = true ->
  fails (trace k) (EvImport "dgl") = Some e \/
  (fails (trace k) (EvImport "dgl") = None /\
   fails (trace k ++ [EvImport "dgl"]) (EvImport "dgl.graphbolt") = Some e) ->
  exists k1,
    training_guard fails k = (k1, Ok tt) /\
    globals k1 !! "installed" = Some (SBool false) /\
    globals k1 !! "gb" = None /\
    load_dataset fails name k1 =
      (Kernel (globals k1) (trace k1 ++ [EvRaise (Exn NameError "gb")]),
       Raise (Exn NameError "gb")).
Proof.
  intros Hgb Hcls Himport.
  assert (Hguard : exists k0,
            globals k0 !! "gb" = None /\
            training_guard fails k =
              (Kernel (<["installed" := SBool false]>
                         (delete "error" (globals k0)))
                      (trace k0 ++ [EvPrint [SExn e];
                                    EvPrint [SStr "DGL not found!"]]),
               Ok tt)).
  { destruct Himport as [Hf|[Hdgl Hf]].
    - exists (Kernel (globals k) (trace k ++ [EvRaise e])).
      split; [exact Hgb|]. unfold training_guard.
      apply import_guard_caught; [|exact Hcls].
      cbv [bind]. now rewrite (import_raises _ _ k e Hf).
    - exists (Kernel (<["dgl" := SModule "dgl"]> (globals k))
                     (trace k ++ [EvImport "dgl"; EvRaise e])).
      split; [cbn [globals]; now rewrite lookup_insert_ne by discriminate|].
      unfold training_guard. apply import_guard_caught; [|exact Hcls].
      cbv [bind]. rewrite (import_ok _ _ k Hdgl).
      change (top_package "dgl") with "dgl".
      rewrite (import_as_raises _ _ _ _ e) by exact Hf.
      cbn [globals trace]. now rewrite <- app_assoc. }
  destruct Hguard as (k0 & Hgb0 & Hrun). eexists. split; [exact Hrun|].
  cbn [globals].
  assert (Hunbound : <["installed" := SBool false]> (delete "error" (globals k0))
                     !! "gb" = None).
  { rewrite lookup_insert_ne by discriminate.
    now rewrite lookup_delete_ne by discriminate. }
  split; [apply lookup_insert_eq|]. split; [exact Hunbound|].
  unfold load_dataset, bind, get. cbn [globals]. now rewrite Hunbound.
Qed.

End GuardEdges.

Lemma guards_let_other_exceptions_through_witness :
  let e := Exn (OtherError "OSError")
               "libgraphbolt.so: cannot open shared object file" in
  walkthrough_guard broken_dgl fresh_kernel =
    (Kernel ∅ [EvRaise e], Raise e) /\
  training_guard broken_dgl fresh_kernel = (Kernel ∅ [EvRaise e], Raise e).
Proof.
  intros e.
  destruct (guards_let_other_exceptions_through broken_dgl fresh_kernel e
              eq_refl) as (Hwalk & Htrain & _).
  split; [apply Hwalk|apply Htrain]; reflexivity.
Defined.

Lemma training_guard_stops_at_import_dgl_witness :
  let e := Exn ModuleNotFoundError "No module named 'dgl'" in
  training_guard no_dgl fresh_kernel =
    (Kernel (<["installed" := SBool false]> (delete "error" ∅))
            [EvRaise e; EvPrint [SExn e]; EvPrint [SStr "DGL not found!"]],
     Ok tt).
Proof.
  intros e.
  exact (training_guard_stops_at_import_dgl no_dgl fresh_kernel e
           eq_refl eq_refl).
Defined.

Lemma missing_dgl_resurfaces_as_NameError_witness :
  exists k1,
    training_guard no_graphbolt fresh_kernel = (k1, Ok tt) /\
    globals k1 !! "installed" = Some (SBool false) /\
    globals k1 !! "gb" = None /\
    load_dataset no_graphbolt "cora" k1 =
      (Kernel (globals k1) (trace k1 ++ [EvRaise (Exn NameError "gb")]),
       Raise (Exn NameError "gb")).
Proof.
  apply (missing_dgl_resurfaces_as_NameError no_graphbolt "cora" fresh_kernel
           (Exn ModuleNotFoundError "No module named 'dgl.graphbolt'")).
  - reflexivity.
  - reflexivity.
  - right. split; reflexivity.
Defined.

(** ** [to_binary_link_dgl_computing_pack]: errors and shapes *)

(** X4: the function returns exactly when the minibatch has both its
    positive and its negative node pairs; when either is [None] the
    unpacking raises TypeError, and that is the only exception the function
    raises. *)
Theorem to_binary_link_needs_both_pairs (data : node_pairs_of_minibatch) :
  match positive_node_pairs data, negative_node_pairs data with
  | Some _, Some _ =>
      exists packed, to_binary_link_dgl_computing_pack data = Ok packed
  | _, _ =>
      to_binary_link_dgl_computing_pack data =
      Raise (Exn TypeError "cannot unpack non-iterable NoneType object")
  end.
Proof.
  destruct data as [[[ps pd]|] [[ns nd]|]]; cbn [positive_node_pairs
    negative_node_pairs]; try reflexivity.
  eexists. reflexivity.
Qed.

(** X5: the labels follow the source tensors alone.  Whatever the element
    types and whatever the lengths of the destination tensors, the label
    tensor is float32 and holds one 1 per positive source followed by one 0
    per negative source, so it is as long as the source tensor returned;
    the destination tensor returned is as long as the two destination
    tensors together, which the function does not compare with the
    sources. *)
Theorem to_binary_link_labels_follow_sources
    (data : node_pairs_of_minibatch)
    (pos_src pos_dst neg_src neg_dst : tensor) :
  positive_node_pairs data = Some (pos_src, pos_dst) ->
  negative_node_pairs data = Some (neg_src, neg_dst) ->
  exists src dst labels,
    to_binary_link_dgl_computing_pack data = Ok ((src, dst), labels) /\
    tensor_dtype labels = float32 /\
    tensor_data labels =
      replicate (length (tensor_data pos_src)) 1
      ++ replicate (length (tensor_data neg_src)) 0 /\
    length (tensor_data labels) = length (tensor_data src) /\
    tensor_dtype src = promote (tensor_dtype pos_src) (tensor_dtype neg_src) /\
    tensor_dtype dst = promote (tensor_dtype pos_dst) (tensor_dtype neg_dst) /\
    length (tensor_data dst) =
      (length (tensor_data pos_dst) + length (tensor_data neg_dst))%nat.
Proof.
  intros Hpos Hneg. unfold to_binary_link_dgl_computing_pack.
  rewrite Hpos, Hneg. cbn [unpack_pair and_then]. rewrite !cat_pair.
  cbn [and_then]. do 3 eexists. split; [reflexivity|].
  cbn [float ones_like zeros_like tensor_data tensor_dtype].
  rewrite !map_const_replicate.
  repeat split; rewrite ?length_app, ?length_replicate; reflexivity.
Qed.

(** Three positive sources against one positive destination: the labels
    still follow the sources. *)
Lemma to_binary_link_labels_follow_sources_witness :
  exists src dst labels,
    to_binary_link_dgl_computing_pack
      (MiniBatchPairs (Some (Tensor int32 [0; 1; 2], Tensor int64 [7]))
                      (Some (Tensor int32 [3], Tensor int64 [8; 9])))
    = Ok ((src, dst), labels) /\
    tensor_data labels = [1; 1; 1; 0] /\
    tensor_dtype src = int32 /\
    length (tensor_data dst) = 3%nat.
Proof.
  destruct (to_binary_link_labels_follow_sources
              (MiniBatchPairs (Some (Tensor int32 [0; 1; 2], Tensor int64 [7]))
                              (Some (Tensor int32 [3], Tensor int64 [8; 9])))
              (Tensor int32 [0; 1; 2]) (Tensor int64 [7])
              (Tensor int32 [3]) (Tensor int64 [8; 9]) eq_refl eq_refl)
    as (src & dst & labels & Hrun & _ & Hlabels & _ & Hsrc & _ & Hdst).
  exists src, dst, labels.
  repeat split; [exact Hrun|exact Hlabels|exact Hsrc|exact Hdst].
Defined.

(** ** The forward passes: too few blocks *)

Section ForwardEdges.

Context {layer block repr : Type}.
Variable conv : layer -> block -> repr -> repr.
Variable relu : repr -> repr.

Lemma SAGE_forward_loop_never_last (len_layers : Z) :
  forall (zipped : list (layer * block)) (idx : Z) (h : repr),
    idx + Z.of_nat (length zipped) < len_layers ->
    SAGE_forward_loop conv relu len_layers idx zipped h =
    fold_left (fun h lb => relu (conv (fst lb) (snd lb) h)) zipped h.
Proof.
  induction zipped as [|[l b] rest IH]; intros idx h Hlen; [reflexivity|].
  cbn [SAGE_forward_loop fold_left fst snd]. cbn [length] in Hlen.
  replace (idx =? len_layers - 1) with false
    by (symmetry; apply Z.eqb_neq; lia).
  cbn [negb]. apply IH. lia.
Qed.

(** X6: SAGE.forward with fewer blocks than layers does not raise: [zip]
    stops at the last block, the layers beyond it are skipped, and every
    layer that is applied is followed by a ReLU.  So the result went
    through a ReLU last, unless there is no block at all, and then the
    input comes back unchanged. *)
Theorem SAGE_forward_short_of_blocks (layers : list layer)
    (blocks : list block) (x : repr) :
  (length blocks < length layers)%nat ->
  SAGE_forward conv relu layers blocks x =
    fold_left (fun h lb => relu (conv (fst lb) (snd lb) h))
              (zip layers blocks) x /\
  (blocks = [] -> SAGE_forward conv relu layers blocks x = x) /\
  (blocks <> [] -> exists h, SAGE_forward conv relu layers blocks x = relu h).
Proof.
  intros Hshort.
  assert (Hfold : SAGE_forward conv relu layers blocks x =
                  fold_left (fun h lb => relu (conv (fst lb) (snd lb) h))
                            (zip layers blocks) x).
  { unfold SAGE_forward. apply SAGE_forward_loop_never_last.
    rewrite length_zip_with. lia. }
  split; [exact Hfold|]. split.
  - intros ->. rewrite Hfold. now destruct layers.
  - intros Hne. rewrite Hfold.
    destruct (zip layers blocks) as [|z zs] eqn:Hzip using rev_ind.
    + destruct layers, blocks; cbn in *; try lia; congruence.
    + rewrite fold_left_app. cbn [fold_left]. eauto.
Qed.

(** X7: Model.forward needs two blocks.  With fewer than two it raises
    IndexError, and with two or more blocks it returns. *)
Theorem Model_forward_needs_two_blocks (conv1 conv2 : layer)
    (mfgs : list block) (x : repr) :
  (Model_forward conv relu conv1 conv2 mfgs x =
     Raise (Exn IndexError "list index out of range")
   <-> (length mfgs < 2)%nat) /\
  ((exists h, Model_forward conv relu conv1 conv2 mfgs x = Ok h)
   <-> (2 <= length mfgs)%nat).
Proof.
  destruct mfgs as [|m0 [|m1 rest]]; cbn; repeat split;
    try (intros; lia); try (intros; reflexivity); try discriminate;
    try (intros [h Hh]; discriminate); eauto.
Qed.

(** X8: the two models are the same network when it has two layers: on
    two or more blocks Model.forward returns what SAGE.forward does with
    [conv1] and [conv2] as its layers.  On a single block they part:
    Model raises where SAGE returns the activated output of the first
    layer. *)
Theorem Model_forward_is_two_layer_SAGE (conv1 conv2 : layer)
    (mfgs : list block) (x : repr) :
  ((2 <= length mfgs)%nat ->
   Model_forward conv relu conv1 conv2 mfgs x =
   Ok (SAGE_forward conv relu [conv1; conv2] mfgs x)) /\
  (forall b,
     mfgs = [b] ->
     SAGE_forward conv relu [conv1; conv2] mfgs x = relu (conv conv1 b x) /\
     Model_forward conv relu conv1 conv2 mfgs x =
       Raise (Exn IndexError "list index out of range")).
Proof.
  split.
  - intros Hlen. destruct mfgs as [|m0 [|m1 rest]]; cbn in Hlen; try lia.
    reflexivity.
  - intros b ->. split; reflexivity.
Qed.

End ForwardEdges.

Lemma SAGE_forward_short_of_blocks_witness :
  let conv := fun layer block h : Z => layer * h + block in
  let relu := Z.max 0 in
  SAGE_forward conv relu [1; 2; 3] [10; -50] 5 = 0 /\
  SAGE_forward conv relu [1; 2; 3] [10; -50] 5
    = relu (conv 2 (-50) (relu (conv 1 10 5))).
Proof.
  intros conv relu.
  destruct (SAGE_forward_short_of_blocks conv relu [1; 2; 3] [10; -50] 5)
    as (Hfold & _); [simpl; lia|].
  split; [reflexivity|exact Hfold].
Defined.

(** ** Running a notebook top to bottom *)

Lemma binds_nil (k : kernel) : binds [] k.
Proof. apply Forall_nil_2. Qed.

Lemma binds_trace (names : list string) (k : kernel) (tr : list event) :
  binds names k -> binds names (Kernel (globals k) tr).
Proof. intros H. exact H. Qed.

Lemma binds_set (names : list string) (k : kernel) (x : string) (v : sym) :
  binds names k ->
  binds (x :: names) (Kernel (<[x := v]> (globals k)) (trace k)).
Proof.
  intros H. apply Forall_cons_2.
  - cbn [globals]. rewrite lookup_insert_eq. eauto.
  - eapply Forall_impl; [exact H|]. intros y Hy. cbn [globals].
    destruct (decide (x = y)) as [->|Hne].
    + rewrite lookup_insert_eq. eauto.
    + now rewrite lookup_insert_ne.
Qed.

Lemma binds_lookup (names : list string) (k : kernel) (x : string) :
  existsb (String.eqb x) names = true -> binds names k ->
  is_Some (globals k !! x).
Proof.
  intros Hx H. apply existsb_exists in Hx as (y & Hy & Heq).
  apply String.eqb_eq in Heq as <-.
  unfold binds in H. rewrite Forall_forall in H. apply H.
  now apply list_elem_of_In.
Qed.

Lemma binds_names_in (names among : list string) (k : kernel) :
  names_in names among = true -> binds among k -> binds names k.
Proof.
  unfold names_in. rewrite forallb_forall. intros Hin H.
  apply Forall_forall. intros x Hx. eapply binds_lookup; [|exact H].
  apply Hin. now apply list_elem_of_In.
Qed.

Section Completes.

Variable fails : list event -> event -> option exn.
Variable len : sym -> nat.
Hypothesis Hquiet : quiet fails.

Lemma c_ret {A} (ns : list string) (a : A) : completes ns (ret a) ns.
Proof. intros k Hk. now exists k, a. Qed.

Lemma c_bind {A B} (ns mid post : list string) (c : M A) (f : A -> M B) :
  completes ns c mid -> (forall a, completes mid (f a) post) ->
  completes ns (bind c f) post.
Proof.
  intros Hc Hf k Hk. destruct (Hc k Hk) as (k1 & a & Hrun & Hk1).
  unfold bind. rewrite Hrun. now apply Hf.
Qed.

Lemma c_post {A} (ns post post' : list string) (c : M A) :
  completes ns c post -> names_in post' post = true -> completes ns c post'.
Proof.
  intros Hc Hin k Hk. destruct (Hc k Hk) as (k1 & a & Hrun & Hk1).
  exists k1, a. split; [exact Hrun|]. now apply (binds_names_in _ post).
Qed.

Lemma c_get (ns : list string) (x : string) :
  existsb (String.eqb x) ns = true -> completes ns (get x) ns.
Proof.
  intros Hx k Hk. destruct (binds_lookup ns k x Hx Hk) as [v Hv].
  exists k, v. unfold get. now rewrite Hv.
Qed.

Lemma c_set (ns : list string) (x : string) (v : sym) :
  completes ns (set x v) (x :: ns).
Proof.
  intros k Hk. eexists _, tt. split; [reflexivity|]. now apply binds_set.
Qed.

Lemma c_emit (ns : list string) (e : event) : completes ns (emit e) ns.
Proof. intros k Hk. eexists _, tt. split; [reflexivity|exact Hk]. Qed.

Lemma c_print (ns : list string) (args : list sym) :
  completes ns (print args) ns.
Proof. apply c_emit. Qed.

Lemma c_ext (ns : list string) (e : event) : completes ns (ext fails e) ns.
Proof. intros k Hk. unfold ext. rewrite Hquiet. now apply c_emit. Qed.

Lemma c_lift {A} (ns : list string) (r : result A) :
  (exists a, r = Ok a) -> completes ns (lift r) ns.
Proof. intros [a ->]. apply c_ret. Qed.

Lemma c_for_items (ns : list string) (it : sym) (body : sym -> M unit) :
  (forall x, completes ns (body x) ns) ->
  forall n i, completes ns (for_items fails it i n body) ns.
Proof.
  intros Hbody. induction n as [|n IH]; intros i; [apply c_ret|].
  cbn [for_items]. eapply c_bind; [apply c_ext|]. intros _.
  eapply c_bind; [apply Hbody|]. intros _. apply IH.
Qed.

Lemma c_for_in (ns : list string) (it : sym) (body : sym -> M unit) :
  (forall x, completes ns (body x) ns) ->
  completes ns (for_in fails len it body) ns.
Proof.
  intros Hbody. unfold for_in. eapply c_bind; [apply c_ext|]. intros _.
  now apply c_for_items.
Qed.

(** A loop that runs at least once leaves bound what its body binds. *)
Lemma c_for_in_nonempty (ns post : list string) (it : sym)
    (body : sym -> M unit) :
  (1 <= len it)%nat ->
  (forall x, completes ns (body x) post) -> names_in ns post = true ->
  completes ns (for_in fails len it body) post.
Proof.
  intros Hlen Hbody Hin. unfold for_in.
  eapply c_bind; [apply c_ext|]. intros _.
  destruct (len it) as [|n]; [lia|]. cbn [for_items].
  eapply c_bind; [apply c_ext|]. intros _.
  eapply c_bind; [apply Hbody|]. intros _.
  assert (Hloop : forall x, completes post (body x) post).
  { intros x k Hk. apply Hbody. now apply (binds_names_in _ post). }
  now apply c_for_items.
Qed.

Lemma c_for_range (ns : list string) (body : Z -> M ctl) :
  (forall i, completes ns (body i) ns) ->
  forall n i, completes ns (for_range i n body) ns.
Proof.
  intros Hbody. induction n as [|n IH]; intros i; [apply c_ret|].
  cbn [for_range]. eapply c_bind; [apply Hbody|].
  intros [|]; [apply IH|apply c_ret].
Qed.

Lemma c_with_ctx {A} (ns post : list string) (ctx : sym) (body : sym -> M A) :
  completes ns (body ctx) post -> completes ns (with_ctx fails ctx body) post.
Proof.
  intros Hbody. unfold with_ctx. eapply c_bind; [apply c_ext|]. intros _.
  intros k Hk. destruct (Hbody k Hk) as (k1 & a & Hrun & Hk1). rewrite Hrun.
  apply (c_bind post post post (ext fails _) (fun _ => ret a));
    [apply c_ext|intros _; apply c_ret|exact Hk1].
Qed.

Lemma c_try_except {A} (ns post : list string) (body : M A)
    (catches : exn -> bool) (handler : exn -> M A) :
  completes ns body post -> completes ns (try_except body catches handler) post.
Proof.
  intros Hbody k Hk. destruct (Hbody k Hk) as (k1 & a & Hrun & Hk1).
  exists k1, a. unfold try_except. now rewrite Hrun.
Qed.

End Completes.

(** [known] proves what the section at hand has lemmas for; the rest goes
    by the construct. *)
Ltac through known :=
  cbv beta;
  lazymatch goal with
  | |- completes _ (bind _ _) _ =>
      eapply c_bind; [through known | intros ?; through known]
  | |- completes _ (ret _) _ => apply c_ret
  | |- completes _ (get _) _ => apply c_get; reflexivity
  | |- completes _ (set _ _) _ => apply c_set
  | |- completes _ (print _) _ => apply c_print
  | |- completes _ (emit _) _ => apply c_emit
  | |- completes _ (ext _ _) _ => apply c_ext; assumption
  | |- completes _ (for_in _ _ _ _) _ =>
      first
        [ eapply c_for_in_nonempty;
          [ assumption
          | solve [auto]
          | intros ?; through known
          | reflexivity ]
        | apply c_for_in;
          [ assumption
          | intros ?; eapply c_post; [through known | reflexivity] ] ]
  | |- completes _ (for_range _ _ _) _ =>
      apply c_for_range; intros ?; eapply c_post; [through known | reflexivity]
  | |- completes _ (with_ctx _ _ _) _ =>
      apply c_with_ctx; [assumption | through known]
  | |- completes _ (try_except _ _ _) _ => apply c_try_except; through known
  | |- completes _ ?c _ =>
      first [ known | let h := head_of c in unfold h; through known ]
  end.

Ltac run_cells_through known :=
  unfold run_all;
  lazymatch goal with
  | |- completes _ (run_cells (cells ?nb)) _ =>
      let h := head_of nb in unfold h
  end;
  cbn [cells run_cells];
  repeat lazymatch goal with
         | |- context [run_cell (code ?id ?src)] =>
             change (run_cell (code id src)) with src
         | |- context [run_cell (markdown ?id)] =>
             change (run_cell (markdown id)) with (@ret unit tt)
         end;
  through known.

Lemma completes_from_fresh (post names : list string) (c : M unit) :
  completes [] c post -> names_in names post = true ->
  exists k', c fresh_kernel = (k', Ok tt) /\ binds names k'.
Proof.
  intros Hc Hin. destruct (Hc fresh_kernel (binds_nil _)) as (k' & [] & Hrun & Hk').
  exists k'. split; [exact Hrun|]. now apply (binds_names_in _ post).
Qed.

(** X9: when no call into the outside world raises, the walkthrough run
    top to bottom ends without an exception: every name a cell reads has
    been bound by a cell before it (the exercise cell reads the
    [datapipe] the cells before it built). *)
Theorem walkthrough_runs_to_the_end
    (fails : list event -> event -> option exn) :
  quiet fails ->
  exists k',
    run_all (walkthrough fails) fresh_kernel = (k', Ok tt) /\
    binds ["gb"; "item_set"; "graph"; "feature_store"; "datapipe"] k'.
Proof.
  intros Hquiet.
  eapply completes_from_fresh; [run_cells_through fail|reflexivity].
Qed.

Lemma walkthrough_runs_to_the_end_witness :
  exists k',
    run_all (walkthrough calm) fresh_kernel = (k', Ok tt) /\
    binds ["gb"; "item_set"; "graph"; "feature_store"; "datapipe"] k'.
Proof. apply (walkthrough_runs_to_the_end calm). intros tr e. reflexivity. Defined.

Section LinkRunAll.

Variable fails : list event -> event -> option exn.
Variable len : sym -> nat.
Variable pairs_of : sym -> node_pairs_of_minibatch.
Hypothesis Hquiet : quiet fails.
Hypothesis Hbatches : forall it, (1 <= len it)%nat.
Hypothesis Hpairs : with_negatives pairs_of.

Lemma c_call_to_binary_link (ns : list string) (data : sym) :
  existsb (String.eqb "to_binary_link_dgl_computing_pack") ns = true ->
  completes ns (call_to_binary_link pairs_of data) ns.
Proof.
  intros Hdef. unfold call_to_binary_link.
  eapply c_bind; [now apply c_get|]. intros _. apply c_lift.
  destruct (Hpairs data) as [[[ps pd] Hpos] [[ns' nd] Hneg]].
  unfold to_binary_link_dgl_computing_pack. rewrite Hpos, Hneg.
  eexists. reflexivity.
Qed.

Lemma link_prediction_completes :
  exists post,
    completes [] (run_all (link_prediction fails len pairs_of)) post /\
    names_in ["model"; "optimizer"; "eval_dataloader"; "auc"] post = true.
Proof.
  eexists. split;
    [ run_cells_through ltac:(idtac; apply c_call_to_binary_link; reflexivity)
    | reflexivity ].
Qed.

End LinkRunAll.

Section NodeRunAll.

Variable fails : list event -> event -> option exn.
Variable len : sym -> nat.
Hypothesis Hquiet : quiet fails.
Hypothesis Hblocks : forall data, (2 <= len (SAttr data "blocks"))%nat.

Lemma c_Model_call (ns : list string) (self data x : sym) :
  existsb (String.eqb "F") ns = true ->
  completes ns (Model_call fails len self (SAttr data "blocks") x) ns.
Proof.
  intros HF. unfold Model_call.
  eapply c_bind; [now apply c_ext|]. intros _.
  eapply c_bind; [now apply c_get|]. intros F. apply c_lift.
  pose proof (Hblocks data) as Hlen. cbn [elements].
  destruct (len (SAttr data "blocks")) as [|[|n]]; try lia.
  eexists. reflexivity.
Qed.

Lemma node_classification_completes :
  exists post,
    completes [] (run_all (node_classification fails len)) post /\
    names_in ["model"; "opt"; "train_dataloader"; "valid_dataloader"] post
      = true.
Proof.
  eexists. split;
    [ run_cells_through ltac:(idtac; apply c_Model_call; reflexivity)
    | reflexivity ].
Qed.

End NodeRunAll.

(** X10: when no call into the outside world raises, every iterable
    yields at least one item and every minibatch has its positive and its
    negative node pairs, the link-prediction tutorial run top to bottom
    ends without an exception, whatever the number of minibatches: every
    name a cell reads has been bound before, [step] by the training loop
    for the line that prints the loss of the epoch. *)
Theorem link_prediction_runs_to_the_end
    (fails : list event -> event -> option exn) (len : sym -> nat)
    (pairs_of : sym -> node_pairs_of_minibatch) :
  quiet fails ->
  (forall it, (1 <= len it)%nat) ->
  with_negatives pairs_of ->
  exists k',
    run_all (link_prediction fails len pairs_of) fresh_kernel = (k', Ok tt) /\
    binds ["model"; "optimizer"; "eval_dataloader"; "auc"] k'.
Proof.
  intros Hquiet Hbatches Hpairs.
  destruct (link_prediction_completes fails len pairs_of Hquiet Hbatches Hpairs)
    as (post & Hrun & Hnames).
  now apply (completes_from_fresh post).
Qed.

Lemma link_prediction_runs_to_the_end_witness :
  exists k',
    run_all (link_prediction calm two_items sample_pairs) fresh_kernel
      = (k', Ok tt) /\
    binds ["model"; "optimizer"; "eval_dataloader"; "auc"] k'.
Proof.
  apply (link_prediction_runs_to_the_end calm two_items sample_pairs).
  - intros tr e. reflexivity.
  - intros it. unfold two_items. lia.
  - intros data. split; eexists; reflexivity.
Defined.

(** X11: when no call into the outside world raises, every data loader
    yields at least one minibatch (so that [next(iter(train_dataloader))]
    has a minibatch to return and [np.concatenate] has arrays to join)
    and every minibatch has at least two blocks, the node-classification
    tutorial run top to bottom ends without an exception. *)
Theorem node_classification_runs_to_the_end
    (fails : list event -> event -> option exn) (len : sym -> nat) :
  quiet fails ->
  (forall it, (1 <= len it)%nat) ->
  (forall data, (2 <= len (SAttr data "blocks"))%nat) ->
  exists k',
    run_all (node_classification fails len) fresh_kernel = (k', Ok tt) /\
    binds ["model"; "opt"; "train_dataloader"; "valid_dataloader"] k'.
Proof.
  intros Hquiet Hbatches Hblocks.
  destruct (node_classification_completes fails len Hquiet Hblocks)
    as (post & Hrun & Hnames).
  now apply (completes_from_fresh post).
Qed.

Lemma node_classification_runs_to_the_end_witness :
  exists k',
    run_all (node_classification calm two_items) fresh_kernel = (k', Ok tt) /\
    binds ["model"; "opt"; "train_dataloader"; "valid_dataloader"] k'.
Proof.
  apply (node_classification_runs_to_the_end calm two_items).
  - intros tr e. reflexivity.
  - intros it. unfold two_items. lia.
  - intros data. unfold two_items. lia.
Defined.

(** ** The training loops *)

(** X12: a training loader that yields no minibatch.  The inner loop of
    the link-prediction training cell then never binds [step], and the
    line that prints the loss of the epoch reads it: in a kernel where
    [step] is not bound yet, the cell raises NameError in its first epoch,
    after [model.train()] and before anything is printed. *)
Theorem link_training_loop_without_minibatches
    (fails : list event -> event -> option exn) (len : sym -> nat)
    (pairs_of : sym -> node_pairs_of_minibatch) (k : kernel)
    (model loader : sym) :
  quiet fails ->
  globals k !! "model" = Some model ->
  globals k !! "train_dataloader" = Some loader ->
  globals k !! "step" = None ->
  len (SMeth (SModule "tqdm") "tqdm" [SApp "enumerate" [loader]]) = 0%nat ->
  link_training_loop fails len pairs_of k =
    (Kernel (<["total_loss" := SInt 0]>
               (<["epoch" := SInt 0]>
                  (<["tqdm" := SModule "tqdm"]> (globals k))))
            (trace k ++
             [EvImport "tqdm";
              EvCall model "train" [];
              EvCall (SModule "builtins") "enumerate" [loader];
              EvCall (SModule "tqdm") "tqdm" [SApp "enumerate" [loader]];
              EvIter (SMeth (SModule "tqdm") "tqdm"
                            [SApp "enumerate" [loader]]);
              EvRaise (Exn NameError "step")]),
     Raise (Exn NameError "step")).
Proof.
  intros Hq Hmodel Hloader Hstep Hlen. destruct k as [g tr].
  cbn [globals trace] in *.
  unfold link_training_loop, import. change (top_package "tqdm") with "tqdm".
  cbv [bind ext emit set get throw for_range meth builtin for_in print
       globals trace].
  repeat (first [ rewrite Hq
                | rewrite lookup_insert_eq
                | rewrite lookup_insert_ne by discriminate
                | rewrite Hmodel | rewrite Hloader | rewrite Hstep
                | rewrite Hlen ];
          cbv beta iota; cbn [for_items ret]).
  rewrite <- !app_assoc. reflexivity.
Qed.

Lemma link_training_loop_without_minibatches_witness :
  let k := session (link_prediction calm no_items sample_pairs)
             [2; 4; 6; 8; 10; 12; 14; 16]%nat fresh_kernel in
  snd (link_training_loop calm no_items sample_pairs k)
    = Raise (Exn NameError "step").
Proof.
  intros k.
  assert (exists model, globals k !! "model" = Some model) as [model Hmodel]
    by (eexists; vm_compute; reflexivity).
  assert (exists loader, globals k !! "train_dataloader" = Some loader)
    as [loader Hloader] by (eexists; vm_compute; reflexivity).
  rewrite (link_training_loop_without_minibatches calm no_items sample_pairs
             k model loader);
    [reflexivity|intros tr e; reflexivity|exact Hmodel|exact Hloader
    |vm_compute; reflexivity|reflexivity].
Defined.

(** *** Counting calls *)

Lemma count_events_app (p : event -> bool) (es es' : list event) :
  count_events p (es ++ es') = (count_events p es + count_events p es')%nat.
Proof. unfold count_events. now rewrite List.filter_app, length_app. Qed.

Section AtMost.

Variable fails : list event -> event -> option exn.
Variable len : sym -> nat.
Variable names : list string.

Local Abbreviation p := (calls_any names).

Lemma b_ret {A} (a : A) : at_most p 0 (ret a).
Proof. intros k. exists []. split; [now rewrite app_nil_r|reflexivity]. Qed.

Lemma b_weaken {A} (n m : nat) (c : M A) :
  at_most p n c -> (n <=? m)%nat = true -> at_most p m c.
Proof.
  intros Hc Hle k. destruct (Hc k) as (es & Htr & Hn). exists es.
  split; [exact Htr|]. apply Nat.leb_le in Hle. lia.
Qed.

Lemma b_bind {A B} (n m : nat) (c : M A) (f : A -> M B) :
  at_most p n c -> (forall a, at_most p m (f a)) ->
  at_most p (n + m) (bind c f).
Proof.
  intros Hc Hf k. destruct (Hc k) as (es & Htr & Hn). unfold bind.
  destruct (c k) as [k1 [a|e]]; cbn [fst] in Htr |- *.
  - destruct (Hf a k1) as (es' & Htr' & Hm). exists (es ++ es'). split.
    + now rewrite Htr', Htr, app_assoc.
    + rewrite count_events_app. lia.
  - exists es. split; [exact Htr|lia].
Qed.

Lemma b_emit_counted (e : event) : at_most p 1 (emit e).
Proof.
  intros k. exists [e]. split; [reflexivity|].
  unfold count_events. cbn. destruct (p e); cbn; lia.
Qed.

Lemma b_emit (e : event) : p e = false -> at_most p 0 (emit e).
Proof.
  intros He k. exists [e]. split; [reflexivity|].
  unfold count_events. cbn. now rewrite He.
Qed.

Lemma b_throw {A} (e : exn) : at_most p 0 (@throw A e).
Proof. intros k. exists [EvRaise e]. split; reflexivity. Qed.

Lemma b_ext_counted (e : event) : at_most p 1 (ext fails e).
Proof.
  intros k. unfold ext. destruct (fails (trace k) e) as [x|].
  - destruct (b_throw (A := unit) x k) as (es & Htr & Hn).
    exists es. split; [exact Htr|lia].
  - apply b_emit_counted.
Qed.

Lemma b_ext (e : event) : p e = false -> at_most p 0 (ext fails e).
Proof.
  intros He k. unfold ext. destruct (fails (trace k) e) as [x|].
  - apply b_throw.
  - now apply b_emit.
Qed.

Lemma b_print (args : list sym) : at_most p 0 (print args).
Proof. now apply b_emit. Qed.

Lemma b_set (x : string) (v : sym) : at_most p 0 (set x v).
Proof. intros k. exists []. split; [now rewrite app_nil_r|reflexivity]. Qed.

Lemma b_get (x : string) : at_most p 0 (get x).
Proof.
  intros k. unfold get. destruct (globals k !! x); [apply b_ret|apply b_throw].
Qed.

Lemma b_lift {A} (r : result A) : at_most p 0 (lift r).
Proof. destruct r; [apply b_ret|apply b_throw]. Qed.

Lemma b_for_items (it : sym) (body : sym -> M unit) :
  (forall x, at_most p 0 (body x)) ->
  forall n i, at_most p 0 (for_items fails it i n body).
Proof.
  intros Hbody. induction n as [|n IH]; intros i; [apply b_ret|].
  cbn [for_items].
  apply (b_bind 0 0); [now apply b_ext|]. intros _.
  apply (b_bind 0 0); [apply Hbody|]. intros _. apply IH.
Qed.

Lemma b_for_in (it : sym) (body : sym -> M unit) :
  (forall x, at_most p 0 (body x)) -> at_most p 0 (for_in fails len it body).
Proof.
  intros Hbody. unfold for_in. apply (b_bind 0 0); [now apply b_ext|].
  intros _. now apply b_for_items.
Qed.

Lemma b_for_range (m : nat) (body : Z -> M ctl) :
  (forall i, at_most p m (body i)) ->
  forall n i, at_most p (n * m) (for_range i n body).
Proof.
  intros Hbody. induction n as [|n IH]; intros i; [apply b_ret|].
  cbn [for_range]. change (S n * m)%nat with (m + n * m)%nat.
  apply b_bind; [apply Hbody|]. intros [|]; [apply IH|].
  apply (b_weaken 0); [apply b_ret|reflexivity].
Qed.

(** A loop whose body never asks for the next iteration runs it once. *)
Lemma for_range_once (body : Z -> M ctl) (n : nat) (i : Z) (k : kernel) :
  (forall i, ends_without_next (body i)) ->
  for_range i (S n) body k = bind (body i) (fun _ => ret tt) k.
Proof.
  intros Hbody. cbn [for_range]. unfold bind.
  destruct (body i k) as [k1 [[|]|e]] eqn:Hrun; try reflexivity.
  now destruct (Hbody i k k1).
Qed.

Lemma b_for_range_once (m : nat) (body : Z -> M ctl) (n : nat) (i : Z) :
  (forall i, ends_without_next (body i)) ->
  (forall i, at_most p m (body i)) ->
  at_most p m (for_range i n body).
Proof.
  intros Hend Hbody. destruct n as [|n].
  - apply (b_weaken 0); [apply b_ret|reflexivity].
  - intros k. rewrite for_range_once by exact Hend.
    apply (b_weaken (m + 0)); [|apply Nat.leb_le; lia].
    apply b_bind; [apply Hbody|intros _; apply b_ret].
Qed.

Lemma b_with_ctx {A} (m : nat) (ctx : sym) (body : sym -> M A) :
  p (EvCall ctx "__enter__" []) = false ->
  p (EvCall ctx "__exit__" []) = false ->
  at_most p m (body ctx) -> at_most p m (with_ctx fails ctx body).
Proof.
  intros Henter Hexit Hbody. unfold with_ctx.
  apply (b_bind 0 m); [now apply b_ext|]. intros _ k.
  destruct (Hbody k) as (es & Htr & Hm).
  destruct (b_ext _ Hexit (fst (body ctx k))) as (es' & Htr' & Hn').
  exists (es ++ es'). split; [|rewrite count_events_app; lia].
  rewrite app_assoc, <- Htr, <- Htr'.
  destruct (body ctx k) as [k1 [a|e]]; cbn [fst]; unfold bind;
    destruct (ext fails _ k1) as [k2 [[]|x]]; reflexivity.
Qed.

Lemma b_try_except {A} (n m : nat) (body : M A) (catches : exn -> bool)
    (handler : exn -> M A) :
  at_most p n body -> (forall e, at_most p m (handler e)) ->
  at_most p (n + m) (try_except body catches handler).
Proof.
  intros Hbody Hh k. destruct (Hbody k) as (es & Htr & Hn). unfold try_except.
  destruct (body k) as [k1 [a|e]]; cbn [fst] in Htr |- *.
  - exists es. split; [exact Htr|lia].
  - destruct (catches e).
    + destruct (Hh e k1) as (es' & Htr' & Hm). exists (es ++ es'). split.
      * now rewrite Htr', Htr, app_assoc.
      * rewrite count_events_app. lia.
    + exists es. split; [exact Htr|lia].
Qed.

End AtMost.

Section EndsWithoutNext.

Variable fails : list event -> event -> option exn.

Lemma e_break : ends_without_next (ret Break).
Proof. intros k k'. discriminate. Qed.

Lemma e_bind {A} (c : M A) (f : A -> M ctl) :
  (forall a, ends_without_next (f a)) -> ends_without_next (bind c f).
Proof.
  intros Hf k k'. unfold bind. destruct (c k) as [k1 [a|e]]; [apply Hf|].
  discriminate.
Qed.

Lemma e_with_ctx (ctx : sym) (body : sym -> M ctl) :
  ends_without_next (body ctx) -> ends_without_next (with_ctx fails ctx body).
Proof.
  intros Hbody. unfold with_ctx. apply e_bind. intros _ k k'.
  destruct (body ctx k) as [k1 [[|]|e]] eqn:Hrun.
  - now destruct (Hbody k k1).
  - unfold bind. destruct (ext fails _ k1) as [k2 [[]|x]]; discriminate.
  - destruct (ext fails _ k1) as [k2 [[]|x]]; discriminate.
Qed.

End EndsWithoutNext.

Ltac without_next :=
  cbv beta;
  lazymatch goal with
  | |- ends_without_next (bind _ _) => apply e_bind; intros ?; without_next
  | |- ends_without_next (with_ctx _ _ _) => apply e_with_ctx; without_next
  | |- ends_without_next (ret Break) => apply e_break
  end.

(** The bound found is a sum with one term per construct; [counted] sums
    it up against the bound asked for. *)
Ltac count_through :=
  cbv beta;
  lazymatch goal with
  | |- at_most _ _ (bind _ _) =>
      eapply b_bind; [count_through | intros ?; count_through]
  | |- at_most _ _ (ret _) => apply b_ret
  | |- at_most _ _ (get _) => apply b_get
  | |- at_most _ _ (set _ _) => apply b_set
  | |- at_most _ _ (print _) => apply b_print
  | |- at_most _ _ (lift _) => apply b_lift
  | |- at_most _ _ (emit _) =>
      first [apply b_emit; reflexivity | apply b_emit_counted]
  | |- at_most _ _ (ext _ _) =>
      first [apply b_ext; reflexivity | apply b_ext_counted]
  | |- at_most _ _ (for_in _ _ _ _) =>
      apply b_for_in; intros ?;
      eapply b_weaken; [count_through | reflexivity]
  | |- at_most _ _ (for_range _ _ _) =>
      first
        [ eapply b_for_range_once;
          [intros ?; without_next | intros ?; count_through]
        | eapply b_for_range; intros ?; count_through ]
  | |- at_most _ _ (with_ctx _ _ _) =>
      eapply b_with_ctx; [reflexivity | reflexivity | count_through]
  | |- at_most _ _ (try_except _ _ _) =>
      eapply b_try_except; [count_through | intros ?; count_through]
  | |- at_most _ _ ?c => let h := head_of c in unfold h; count_through
  end.

Ltac counted := eapply b_weaken; [count_through | reflexivity].

(** X13: the epoch loop of the node-classification tutorial is written
    over [range(10)], but its body ends in [break] (or in an exception):
    whatever the environment and the kernel, one execution of the training
    cell calls [model.train()] at most once, [model.eval()] at most once
    and [torch.no_grad()] at most once. *)
Theorem node_training_stops_after_first_epoch
    (fails : list event -> event -> option exn) (len : sym -> nat) :
  at_most (calls_any ["train"]) 1 (node_training_loop fails len) /\
  at_most (calls_any ["eval"]) 1 (node_training_loop fails len) /\
  at_most (calls_any ["no_grad"]) 1 (node_training_loop fails len).
Proof. repeat split; counted. Qed.

(** X14: the evaluation cell of the link-prediction tutorial does not
    train: whatever the environment, the kernel and the number of
    minibatches, it calls neither [model.train()] nor [loss.backward()],
    [optimizer.step()] or [optimizer.zero_grad()]. *)
Theorem link_evaluation_never_trains
    (fails : list event -> event -> option exn) (len : sym -> nat)
    (pairs_of : sym -> node_pairs_of_minibatch) :
  at_most (calls_any ["train"; "backward"; "step"; "zero_grad"]) 0
    (link_evaluation fails len pairs_of).
Proof. counted. Qed.

(** ** What holds in every session of the training tutorials *)

Ltac use_device H := cbn in H.

Ltac side_device :=
  solve
    [ cbn;
      repeat match goal with H : is_cpu_device _ = true |- _ => rewrite H end;
      reflexivity ].

Ltac cell_device := cell_with nothing_known use_device side_device.

Section Devices.

Variable fails : list event -> event -> option exn.
Variable len : sym -> nat.
Variable pairs_of : sym -> node_pairs_of_minibatch.

Local Abbreviation keeps c :=
  (triple on_cpu device_by_name device_by_name c (fun _ => True)
     device_by_name).

Lemma link_prediction_on_cpu :
  Forall (fun c => keeps (run_cell c))
         (cells (link_prediction fails len pairs_of)).
Proof. each_cell. all: cell_device. Qed.

Lemma node_classification_on_cpu :
  Forall (fun c => keeps (run_cell c)) (cells (node_classification fails len)).
Proof. each_cell. all: cell_device. Qed.

End Devices.

(** X15: the training tutorials keep the model and the minibatches on
    one device.  In every session (cells run in any order, any number of
    times) and every "run all", whatever raises, [device] is only ever
    bound to [torch.device("cpu")], and that is what every [copy_to] of a
    pipeline and every [to] of a model is given. *)
Theorem tutorials_stay_on_one_device
    (fails : list event -> event -> option exn) (len : sym -> nat)
    (pairs_of : sym -> node_pairs_of_minibatch) :
  Forall
    (fun nb =>
       (forall order,
          let k := session nb order fresh_kernel in
          forallb on_cpu (trace k) = true /\
          forall v, globals k !! "device" = Some v -> is_cpu_device v = true)
       /\ forallb on_cpu (trace (fst (run_all nb fresh_kernel))) = true)
    (tutorials fails len pairs_of).
Proof.
  assert (Hnb : forall nb,
            Forall (fun c => triple on_cpu device_by_name device_by_name
                               (run_cell c) (fun _ => True) device_by_name)
                   (cells nb) ->
            (forall order,
               let k := session nb order fresh_kernel in
               forallb on_cpu (trace k) = true /\
               forall v, globals k !! "device" = Some v ->
                         is_cpu_device v = true)
            /\ forallb on_cpu (trace (fst (run_all nb fresh_kernel))) = true).
  { intros nb Hcells. rewrite Forall_forall in Hcells. split.
    - intros order k.
      destruct (session_inv _ _ _ Hcells order fresh_kernel (inv_fresh _ _))
        as [Htrace Hglobals].
      split; [exact Htrace|]. intros v Hv. exact (Hglobals "device" v Hv).
    - apply (run_all_inv _ _ _ Hcells), inv_fresh. }
  repeat apply Forall_cons_2; [| |apply Forall_nil_2]; apply Hnb.
  - apply link_prediction_on_cpu.
  - apply node_classification_on_cpu.
Qed.

Ltac use_loads H :=
  cbv [loads_by_name split_by_name] in H; cbn in H.

Ltac side_loads :=
  first
    [ solve [vm_compute; reflexivity]
    | solve [ cbv [loads_by_name split_by_name loader_split]; cbn;
              repeat match goal with
                     | H : split_of _ = _ |- _ => rewrite H
                     end;
              reflexivity ] ].

Ltac cell_loads := cell_with nothing_known use_loads side_loads.

Section Loads.

Variable fails : list event -> event -> option exn.
Variable len : sym -> nat.
Variable pairs_of : sym -> node_pairs_of_minibatch.

Local Abbreviation keeps c :=
  (triple any_event loads_by_name loads_by_name c (fun _ => True)
     loads_by_name).

Lemma link_prediction_loads :
  Forall (fun c => keeps (run_cell c))
         (cells (link_prediction fails len pairs_of)).
Proof. each_cell. all: cell_loads. Qed.

Lemma node_classification_loads :
  Forall (fun c => keeps (run_cell c)) (cells (node_classification fails len)).
Proof. each_cell. all: cell_loads. Qed.

End Loads.

(** X16: in the training tutorials a data loader reads what its name
    says.  All pipelines go through the one global [datapipe], but every
    loader is made in the cell that builds its pipeline from the item set:
    in every session, whatever raises, [train_dataloader] is a loader over
    a pipeline with all its stages rooted at a training set, and
    [valid_dataloader] and [eval_dataloader] are such loaders over a
    validation or test set. *)
Theorem loaders_read_their_split
    (fails : list event -> event -> option exn) (len : sym -> nat)
    (pairs_of : sym -> node_pairs_of_minibatch) :
  Forall
    (fun nb =>
       forall order,
         let k := session nb order fresh_kernel in
         (forall v, globals k !! "train_dataloader" = Some v ->
                    loader_split v = Some training) /\
         (forall v, globals k !! "valid_dataloader" = Some v ->
                    loader_split v = Some evaluation) /\
         (forall v, globals k !! "eval_dataloader" = Some v ->
                    loader_split v = Some evaluation))
    (tutorials fails len pairs_of).
Proof.
  assert (Hnb : forall nb,
            Forall (fun c => triple any_event loads_by_name loads_by_name
                               (run_cell c) (fun _ => True) loads_by_name)
                   (cells nb) ->
            forall order,
              let k := session nb order fresh_kernel in
              (forall v, globals k !! "train_dataloader" = Some v ->
                         loader_split v = Some training) /\
              (forall v, globals k !! "valid_dataloader" = Some v ->
                         loader_split v = Some evaluation) /\
              (forall v, globals k !! "eval_dataloader" = Some v ->
                         loader_split v = Some evaluation)).
  { intros nb Hcells order k. rewrite Forall_forall in Hcells.
    destruct (session_inv _ _ _ Hcells order fresh_kernel (inv_fresh _ _))
      as [_ Hglobals].
    repeat split; intros v Hv.
    - exact (Hglobals "train_dataloader" v Hv).
    - exact (Hglobals "valid_dataloader" v Hv).
    - exact (Hglobals "eval_dataloader" v Hv). }
  repeat apply Forall_cons_2; [| |apply Forall_nil_2]; apply Hnb.
  - apply link_prediction_loads.
  - apply node_classification_loads.
Qed.

(** The loaders of the runs in which nothing raises. *)
Lemma loader_splits_of_calm_runs :
  let link := fst (run_all (link_prediction calm two_items sample_pairs)
                           fresh_kernel) in
  let node := fst (run_all (node_classification calm two_items)
                           fresh_kernel) in
  loader_split <$> globals link !! "train_dataloader" = Some (Some training) /\
  loader_split <$> globals link !! "eval_dataloader" = Some (Some evaluation) /\
  loader_split <$> globals node !! "train_dataloader" = Some (Some training) /\
  loader_split <$> globals node !! "valid_dataloader"
    = Some (Some evaluation).
Proof. repeat split; vm_compute; reflexivity. Qed.

(** ** The exercise cell of the walkthrough *)

Section KeepsName.

Variable fails : list event -> event -> option exn.
Variable x : string.

Lemma k_ret {A} (a : A) : keeps_name x (ret a).
Proof. intros k. reflexivity. Qed.

Lemma k_bind {A B} (c : M A) (f : A -> M B) :
  keeps_name x c -> (forall a, keeps_name x (f a)) -> keeps_name x (bind c f).
Proof.
  intros Hc Hf k. unfold bind. rewrite <- (Hc k).
  destruct (c k) as [k1 [a|e]]; [apply Hf|reflexivity].
Qed.

Lemma k_set (y : string) (v : sym) :
  String.eqb x y = false -> keeps_name x (set y v).
Proof.
  intros Hne k. cbn. apply lookup_insert_ne. intros ->.
  now rewrite String.eqb_refl in Hne.
Qed.

Lemma k_get (y : string) : keeps_name x (get y).
Proof. intros k. unfold get. now destruct (globals k !! y). Qed.

Lemma k_emit (e : event) : keeps_name x (emit e).
Proof. intros k. reflexivity. Qed.

Lemma k_ext (e : event) : keeps_name x (ext fails e).
Proof. intros k. unfold ext. now destruct (fails (trace k) e). Qed.

Lemma pf_bind {A} (c : M A) (f : A -> M unit) :
  keeps_name x c -> (forall a, prints_first_of x (f a)) ->
  prints_first_of x (bind c f).
Proof.
  intros Hc Hf k k'. unfold bind. pose proof (Hc k) as Hkeep.
  destruct (c k) as [k1 [a|e]]; [|discriminate]. cbn [fst] in Hkeep.
  intros Hrun. destruct (Hf a k1 k' Hrun) as (dp & tr & Hdp & Hdp' & Htr).
  exists dp, tr. rewrite <- Hkeep. auto.
Qed.

End KeepsName.

Section KeepsNameLoops.

Variable fails : list event -> event -> option exn.
Variable len : sym -> nat.
Variable x : string.

Lemma k_throw {A} (e : exn) : keeps_name x (@throw A e).
Proof. intros k. reflexivity. Qed.

Lemma k_lift {A} (r : result A) : keeps_name x (lift r).
Proof. destruct r; [apply k_ret|apply k_throw]. Qed.

Lemma k_for_items (it : sym) (body : sym -> M unit) :
  (forall v, keeps_name x (body v)) ->
  forall n i, keeps_name x (for_items fails it i n body).
Proof.
  intros Hbody. induction n as [|n IH]; intros i; [apply k_ret|].
  cbn [for_items]. apply k_bind; [apply k_ext|]. intros _.
  apply k_bind; [apply Hbody|]. intros _. apply IH.
Qed.

Lemma k_for_in (it : sym) (body : sym -> M unit) :
  (forall v, keeps_name x (body v)) ->
  keeps_name x (for_in fails len it body).
Proof.
  intros Hbody. unfold for_in. apply k_bind; [apply k_ext|]. intros _.
  now apply k_for_items.
Qed.

Lemma k_for_range (body : Z -> M ctl) :
  (forall i, keeps_name x (body i)) ->
  forall n i, keeps_name x (for_range i n body).
Proof.
  intros Hbody. induction n as [|n IH]; intros i; [apply k_ret|].
  cbn [for_range]. apply k_bind; [apply Hbody|].
  intros [|]; [apply IH|apply k_ret].
Qed.

Lemma k_with_ctx {A} (ctx : sym) (body : sym -> M A) :
  keeps_name x (body ctx) -> keeps_name x (with_ctx fails ctx body).
Proof.
  intros Hbody. unfold with_ctx. apply k_bind; [apply k_ext|]. intros _ k.
  rewrite <- (Hbody k).
  pose proof (k_ext fails x (EvCall ctx "__exit__" []) (fst (body ctx k)))
    as Hexit.
  destruct (body ctx k) as [k1 [a|e]]; cbn [fst] in *; unfold bind;
    destruct (ext fails _ k1) as [k2 [[]|y]]; exact Hexit.
Qed.

End KeepsNameLoops.

Ltac keeps :=
  cbv beta;
  lazymatch goal with
  | |- keeps_name _ (bind _ _) =>
      apply k_bind; [keeps | intros ?; keeps]
  | |- keeps_name _ (ret _) => apply k_ret
  | |- keeps_name _ (get _) => apply k_get
  | |- keeps_name _ (set _ _) => apply k_set; reflexivity
  | |- keeps_name _ (emit _) => apply k_emit
  | |- keeps_name _ (print _) => apply k_emit
  | |- keeps_name _ (ext _ _) => apply k_ext
  | |- keeps_name _ (lift _) => apply k_lift
  | |- keeps_name _ (for_in _ _ _ _) => apply k_for_in; intros ?; keeps
  | |- keeps_name _ (for_range _ _ _) =>
      apply k_for_range; intros ?; keeps
  | |- keeps_name _ (with_ctx _ _ _) => apply k_with_ctx; keeps
  | |- keeps_name _ ?c => let h := head_of c in unfold h; keeps
  end.

Lemma pf_print_first_minibatch (fails : list event -> event -> option exn) :
  prints_first_of "datapipe" (print_first_minibatch fails).
Proof.
  intros [g tr] k'.
  cbv [print_first_minibatch bind get next_iter ext print emit throw globals
       trace].
  destruct (g !! "datapipe") as [dp|] eqn:Hdp; [|discriminate].
  destruct (fails tr (EvIter dp)); [discriminate|].
  destruct (fails (tr ++ [EvIter dp]) (EvNext dp 0)); [discriminate|].
  intros [= <-]. exists dp, tr. cbn [globals trace].
  repeat split; [exact Hdp|]. now rewrite <- !app_assoc.
Qed.

Ltac prints_first :=
  cbv beta;
  lazymatch goal with
  | |- prints_first_of _ (print_first_minibatch _) =>
      apply pf_print_first_minibatch
  | |- prints_first_of _ (bind _ _) =>
      apply pf_bind; [keeps | intros ?; prints_first]
  | |- prints_first_of _ ?c => let h := head_of c in unfold h; prints_first
  end.

(** X17: the exercise cell of the walkthrough rebuilds an item set, a
    graph and a feature store for node classification, but leaves the
    datapipe to the reader ([...]): it never rebinds [datapipe].  So when
    the cell completes, the minibatch it printed is the first one of the
    pipeline [datapipe] was bound to before the cell ran, not one made
    from the objects the cell built. *)
Theorem exercise_prints_from_the_old_pipeline
    (fails : list event -> event -> option exn) :
  keeps_name "datapipe" (walkthrough_exercise fails) /\
  prints_first_of "datapipe" (walkthrough_exercise fails).
Proof. split; [keeps|prints_first]. Qed.

Lemma exercise_prints_from_the_old_pipeline_witness :
  let k := session (walkthrough calm) [1; 3; 5; 7; 9]%nat fresh_kernel in
  exists item_set dp tr,
    globals k !! "item_set" = Some item_set /\
    globals k !! "datapipe" = Some dp /\
    pipeline_source dp = Some item_set /\
    trace (fst (walkthrough_exercise calm k))
      = tr ++ [EvIter dp; EvNext dp 0; EvPrint [SNth dp 0]] /\
    globals (fst (walkthrough_exercise calm k)) !! "item_set" <> Some item_set.
Proof.
  intros k.
  destruct (exercise_prints_from_the_old_pipeline calm) as [_ Hprints].
  destruct (Hprints k (fst (walkthrough_exercise calm k)))
    as (dp & tr & Hdp & _ & Htr); [vm_compute; reflexivity|].
  assert (exists item_set, globals k !! "item_set" = Some item_set)
    as [item_set Hset] by (eexists; vm_compute; reflexivity).
  exists item_set, dp, tr. repeat split; [exact Hset|exact Hdp| |exact Htr|].
  - vm_compute in Hdp, Hset. injection Hdp as <-. injection Hset as <-.
    vm_compute. reflexivity.
  - vm_compute in Hset. injection Hset as <-. vm_compute. discriminate.
Defined.

(** ** Evaluation in the link-prediction tutorial *)

Lemma to_binary_link_needs_negatives (data : node_pairs_of_minibatch) :
  negative_node_pairs data = None ->
  to_binary_link_dgl_computing_pack data =
  Raise (Exn TypeError "cannot unpack non-iterable NoneType object").
Proof.
  intros Hneg. unfold to_binary_link_dgl_computing_pack. rewrite Hneg.
  now destruct (positive_node_pairs data) as [[ps pd]|].
Qed.

(** X18: the evaluation pipeline of the link-prediction tutorial has no
    negative-sampling stage, but the evaluation loop passes every
    minibatch to [to_binary_link_dgl_computing_pack], which unpacks
    [data.negative_node_pairs].  So when the minibatches of the test set
    bring no negative pairs of their own, the cell raises TypeError at its
    first minibatch, before the model is called. *)
Theorem link_evaluation_needs_negatives
    (fails : list event -> event -> option exn) (len : sym -> nat)
    (pairs_of : sym -> node_pairs_of_minibatch) (k : kernel) :
  quiet fails ->
  (forall it, (1 <= len it)%nat) ->
  (forall data, negative_node_pairs (pairs_of data) = None) ->
  binds ["model"; "gb"; "test_set"; "graph"; "feature"; "device";
         "to_binary_link_dgl_computing_pack"] k ->
  let run := link_evaluation fails len pairs_of k in
  snd run = Raise (Exn TypeError "cannot unpack non-iterable NoneType object")
  /\ count_events (calls_any ["__call__"])
       (drop (length (trace k)) (trace (fst run))) = 0%nat.
Proof.
  intros Hq Hlen Hneg Hk.
  assert (Hbound : forall x,
            existsb (String.eqb x)
              ["model"; "gb"; "test_set"; "graph"; "feature"; "device";
               "to_binary_link_dgl_computing_pack"] = true ->
            is_Some (globals k !! x))
    by (intros x Hx; eapply binds_lookup; [exact Hx|exact Hk]).
  destruct (Hbound "model" eq_refl) as [model Hmodel].
  destruct (Hbound "gb" eq_refl) as [gb Hgb].
  destruct (Hbound "test_set" eq_refl) as [test_set Htest].
  destruct (Hbound "graph" eq_refl) as [graph Hgraph].
  destruct (Hbound "feature" eq_refl) as [feature Hfeature].
  destruct (Hbound "device" eq_refl) as [device Hdevice].
  destruct (Hbound "to_binary_link_dgl_computing_pack" eq_refl)
    as [def Hdef].
  clear Hbound.
  clear Hk. destruct k as [g tr]. cbn [globals trace] in *.
  unfold link_evaluation, call_to_binary_link.
  cbv [bind ret ext emit set get throw meth builtin for_in print lift
       globals trace].
  repeat (first [ rewrite Hq
                | rewrite lookup_insert_eq
                | rewrite lookup_insert_ne by discriminate
                | rewrite Hmodel | rewrite Hgb | rewrite Htest
                | rewrite Hgraph | rewrite Hfeature | rewrite Hdevice
                | rewrite Hdef ];
          cbv beta iota).
  match goal with
  | |- context [len ?it] =>
      pose proof (Hlen it); destruct (len it) as [|n]; [lia|]
  end.
  cbn [for_items]. cbv [bind ret ext emit set get throw lift globals trace].
  repeat (first [ rewrite Hq
                | rewrite lookup_insert_eq
                | rewrite lookup_insert_ne by discriminate
                | rewrite Hdef
                | rewrite to_binary_link_needs_negatives by apply Hneg ];
          cbv beta iota).
  cbn [fst snd]. split; [reflexivity|].
  rewrite <- !app_assoc, drop_app_length. reflexivity.
Qed.

Lemma link_evaluation_needs_negatives_witness :
  let k := session (link_prediction calm two_items positives_only)
             [2; 4; 6; 12; 14; 16]%nat fresh_kernel in
  snd (link_evaluation calm two_items positives_only k)
    = Raise (Exn TypeError "cannot unpack non-iterable NoneType object").
Proof.
  intros k.
  destruct (link_evaluation_needs_negatives calm two_items positives_only k)
    as [Hraise _].
  - intros tr e. reflexivity.
  - intros it. unfold two_items. lia.
  - intros data. reflexivity.
  - repeat apply Forall_cons_2; try apply Forall_nil_2;
      eexists; vm_compute; reflexivity.
  - exact Hraise.
Defined.

(** ** What the training and evaluation cells leave bound *)

(** X19: the training and evaluation cells work on the model they find.
    Whatever the environment and however they end, the training cells of
    both tutorials and the evaluation cell of the link-prediction tutorial
    never rebind the model, the optimizer, the item sets, the graph or the
    feature store, and the training cells never rebind a data loader:
    running a training cell again goes on training the same model. *)
Theorem training_cells_keep_the_model
    (fails : list event -> event -> option exn) (len : sym -> nat)
    (pairs_of : sym -> node_pairs_of_minibatch) :
  Forall (fun x => keeps_name x (link_training_loop fails len pairs_of))
         ["model"; "optimizer"; "train_dataloader"; "train_set"; "test_set";
          "graph"; "feature"; "device"] /\
  Forall (fun x => keeps_name x (link_evaluation fails len pairs_of))
         ["model"; "optimizer"; "train_dataloader"; "train_set"; "test_set";
          "graph"; "feature"; "device"] /\
  Forall (fun x => keeps_name x (node_training_loop fails len))
         ["model"; "opt"; "train_dataloader"; "valid_dataloader"; "train_set";
          "valid_set"; "test_set"; "graph"; "feature"; "device"].
Proof.
  repeat split; repeat apply Forall_cons_2; try apply Forall_nil_2;
    keeps.
Qed.
